(** * make-eaf: merging two ELAN documents into a third

    A shallow embedding of [make-eaf.py].  The script reads two ELAN
    documents ([eaf_1], [eaf_2]), builds a third one ([eaf_3]) with four
    tier-copy procedures and an inline gloss aggregation, and saves it.

    The development has three layers:
    - [Py]: the fragment of Python the script relies on (exceptions,
      insertion-ordered dictionaries, [str.join], [int(a / b)]);
    - [Elan]: the document object of the pympi library, which the script
      drives but which is not part of the repository;
    - the procedures of [make-eaf.py] themselves, over a store holding the
      three document objects. *)

From Stdlib Require Import ZArith List String Ascii Lia Bool Arith.
From Stdlib Require Import DecimalString DecimalNat.
From Stdlib Require Import Permutation.
From Stdlib Require OrderedTypeEx.
Import ListNotations.

Open Scope string_scope.
Open Scope list_scope.

(** ** Python runtime *)

Module Py.

(** The exceptions the script can meet. *)
Inductive exn : Type :=
| KeyError
| ValueError
| IndexError
| ZeroDivisionError
| OverflowError.

(** A computation either returns or raises. *)
Inductive result (A : Type) : Type :=
| Ok (a : A)
| Raise (e : exn).

Arguments Ok {A} a.
Arguments Raise {A} e.

Definition bind {A B : Type} (c : result A) (k : A -> result B) : result B :=
  match c with
  | Ok a => k a
  | Raise e => Raise e
  end.

(** A [for] loop whose body may raise: the exception leaves the loop. *)
Fixpoint for_each {A S : Type} (body : S -> A -> result S) (xs : list A) (s : S)
  : result S :=
  match xs with
  | [] => Ok s
  | x :: xs' => bind (body s x) (for_each body xs')
  end.

(** A list comprehension whose element expression may raise. *)
Fixpoint comprehension {A B : Type} (f : A -> result B) (xs : list A)
  : result (list B) :=
  match xs with
  | [] => Ok []
  | x :: xs' =>
      bind (f x) (fun y => bind (comprehension f xs') (fun ys => Ok (y :: ys)))
  end.

(** *** Dictionaries

    A [dict] keeps its items in insertion order and iterates in that order:
    an association list.  Assigning to a present key replaces the value in
    place, assigning to an absent key appends the item. *)
Definition dict (V : Type) : Type := list (string * V).

Fixpoint dict_get {V : Type} (k : string) (d : dict V) : option V :=
  match d with
  | [] => None
  | (k', v) :: d' => if String.eqb k k' then Some v else dict_get k d'
  end.

Fixpoint dict_set {V : Type} (k : string) (v : V) (d : dict V) : dict V :=
  match d with
  | [] => [(k, v)]
  | (k', v') :: d' =>
      if String.eqb k k' then (k, v) :: d' else (k', v') :: dict_set k v d'
  end.

Fixpoint dict_del {V : Type} (k : string) (d : dict V) : dict V :=
  match d with
  | [] => []
  | (k', v') :: d' =>
      if String.eqb k k' then d' else (k', v') :: dict_del k d'
  end.

Definition dict_keys {V : Type} (d : dict V) : list string := map fst d.

Definition dict_values {V : Type} (d : dict V) : list V := map snd d.

Definition dict_mem {V : Type} (k : string) (d : dict V) : bool :=
  match dict_get k d with
  | Some _ => true
  | None => false
  end.

(** [d[k]]. *)
Definition subscript {V : Type} (d : dict V) (k : string) : result V :=
  match dict_get k d with
  | Some v => Ok v
  | None => Raise KeyError
  end.

(** Truth value of a container. *)
Definition truthy {A : Type} (xs : list A) : bool :=
  match xs with
  | [] => false
  | _ :: _ => true
  end.

(** *** Strings *)

(** [sep.join(parts)]. *)
Definition str_join (sep : string) (parts : list string) : string :=
  String.concat sep parts.

(** ['{:d}'.format(n)] for a non-negative [n]. *)
Definition format_d (n : nat) : string :=
  NilEmpty.string_of_uint (Nat.to_uint n).

(** *** [int(a / b)] on integers

    [a / b] on two [int]s is the quotient correctly rounded to a binary64
    float (round half to even on a 53-bit significand), and [int] truncates
    that float toward zero.  [b == 0] raises [ZeroDivisionError]; a rounded
    quotient of [2^1024] or more raises [OverflowError].  Quotients below
    [2^-1022] lose significand bits in the float but truncate to [0] either
    way, so they need no case of their own. *)

(** Nearest integer to [num / den], ties to even ([0 <= num], [0 < den]). *)
Definition round_half_even (num den : Z) : Z :=
  let m := (num / den)%Z in
  let r := (num mod den)%Z in
  if ((2 * r >? den) || ((2 * r =? den) && Z.odd m))%Z%bool
  then (m + 1)%Z else m.

(** [floor (a / (b * 2^e))]. *)
Definition scaled_floor (a b e : Z) : Z :=
  if (0 <=? e)%Z then (a / (b * 2 ^ e))%Z else ((a * 2 ^ (- e)) / b)%Z.

(** The exponent [e] of the unit in the last place of [a / b]:
    [2^52 <= a / (b * 2^e) < 2^53] ([0 < a], [0 < b]). *)
Definition float_exponent (a b : Z) : Z :=
  let e0 := (Z.log2 a - Z.log2 b - 52)%Z in
  if (scaled_floor a b e0 <? 2 ^ 52)%Z then (e0 - 1)%Z else e0.

(** [int(a / b)] for [0 <= a], [0 < b]. *)
Definition truediv_trunc (a b : Z) : result Z :=
  if (a =? 0)%Z then Ok 0%Z
  else
    let e := float_exponent a b in
    if (0 <=? e)%Z then
      let v := (round_half_even a (b * 2 ^ e) * 2 ^ e)%Z in
      if (2 ^ 1024 <=? v)%Z then Raise OverflowError else Ok v
    else
      Ok (round_half_even (a * 2 ^ (- e)) b / 2 ^ (- e))%Z.

(** [int(a / b)]. *)
Definition int_truediv (a b : Z) : result Z :=
  if (b =? 0)%Z then Raise ZeroDivisionError
  else
    bind (truediv_trunc (Z.abs a) (Z.abs b))
         (fun q => Ok (Z.sgn a * Z.sgn b * q)%Z).

End Py.

Export Py.

Declare Scope py_scope.
Delimit Scope py_scope with py.
Notation "x <- c ;; k" := (bind c (fun x => k))
  (at level 61, c at next level, right associativity) : py_scope.
Notation "' p <- c ;; k" := (bind c (fun x => match x with p => k end))
  (at level 61, p pattern, c at next level, right associativity) : py_scope.
Open Scope py_scope.

(** ** The document object

    [make-eaf.py] drives the [Eaf] class of the pympi library, which is not
    part of the repository.  Its state and the methods the script calls are
    modelled here. *)

Module Elan.

(** Attributes of a tier or of a linguistic type: an XML attribute value is
    a string or [None]. *)
Definition attrs : Type := dict (option string).

(** [(begin slot, end slot, value, svg_ref)] *)
Definition aligned_annotation : Type :=
  (string * string * string * option string)%type.

(** [(reference, value, previous, svg_ref)] *)
Definition ref_annotation : Type :=
  (string * string * option string * option string)%type.

(** Modelled from the spec: a tier of the document object (section 3,
    "Tier"), in the layout the script reads at [eaf_2_tiers[name][k]]:
    [(aligned_annotations, reference_annotations, attributes, ordinal)]. *)
Record tier : Type := mk_tier {
  aligned_annotations : dict aligned_annotation;
  reference_annotations : dict ref_annotation;
  attributes : attrs;
  ordinal : nat
}.

(** Modelled from the spec: the document object (section 3, "Document"):
    linguistic types, tiers, the mapping from time-slot id to numeric
    offset, and the counters from which fresh identifiers are drawn.
    [adocument] holds the attributes of the document header, stamped by the
    constructor; [annotations] maps an annotation id to its tier. *)
Record Eaf : Type := mk_Eaf {
  adocument : dict string;
  annotations : dict string;
  linguistic_types : dict attrs;
  tiers : dict tier;
  timeslots : dict Z;
  maxaid : nat;
  maxts : nat
}.

Definition set_adocument (v : dict string) (e : Eaf) : Eaf :=
  mk_Eaf v (annotations e) (linguistic_types e) (tiers e) (timeslots e)
         (maxaid e) (maxts e).

Definition set_annotations (v : dict string) (e : Eaf) : Eaf :=
  mk_Eaf (adocument e) v (linguistic_types e) (tiers e) (timeslots e)
         (maxaid e) (maxts e).

Definition set_linguistic_types (v : dict attrs) (e : Eaf) : Eaf :=
  mk_Eaf (adocument e) (annotations e) v (tiers e) (timeslots e)
         (maxaid e) (maxts e).

Definition set_tiers (v : dict tier) (e : Eaf) : Eaf :=
  mk_Eaf (adocument e) (annotations e) (linguistic_types e) v (timeslots e)
         (maxaid e) (maxts e).

Definition set_timeslots (v : dict Z) (e : Eaf) : Eaf :=
  mk_Eaf (adocument e) (annotations e) (linguistic_types e) (tiers e) v
         (maxaid e) (maxts e).

Definition set_maxaid (v : nat) (e : Eaf) : Eaf :=
  mk_Eaf (adocument e) (annotations e) (linguistic_types e) (tiers e)
         (timeslots e) v (maxts e).

Definition set_maxts (v : nat) (e : Eaf) : Eaf :=
  mk_Eaf (adocument e) (annotations e) (linguistic_types e) (tiers e)
         (timeslots e) (maxaid e) v.

(** ['a{:d}'.format(n)] and ['ts{:d}'.format(n)]. *)
Definition aid_of (n : nat) : string := "a" ++ format_d n.
Definition tsid_of (n : nat) : string := "ts" ++ format_d n.

(** Modelled from the spec: [Eaf.add_linguistic_type(lingtype,
    param_dict=...)] (section 4.1, "declare a LinguisticType").  A non-empty
    [param_dict] is stored as given; otherwise the type is time-alignable
    and has no constraint. *)
Definition add_linguistic_type (lingtype : string) (param_dict : attrs)
    (e : Eaf) : Eaf :=
  let params :=
    if truthy param_dict then param_dict
    else [("LINGUISTIC_TYPE_ID", Some lingtype);
          ("TIME_ALIGNABLE", Some "true");
          ("GRAPHIC_REFERENCES", Some "false");
          ("CONSTRAINTS", None)] in
  set_linguistic_types (dict_set lingtype params (linguistic_types e)) e.

(** The least string of a non-empty list: [sorted(keys)[0]]. *)
Fixpoint least (k : string) (ks : list string) : string :=
  match ks with
  | [] => k
  | k' :: ks' => least (if String.leb k k' then k else k') ks'
  end.

(** Modelled from the spec: [Eaf.add_tier(tier_id, ling, parent,
    tier_dict)] (section 4.1, "create a Tier bound to a type and optional
    parent").  The tier starts with no annotation.  As the library documents
    it, a [tier_dict] that is given becomes the tier's attributes and the
    other options are ignored; otherwise the attributes are built from
    [ling] and [parent].  An unknown [ling] falls back to the first declared
    type in sorted order. *)
Definition add_tier (tier_id : string) (ling : option string)
    (parent : option string) (tier_dict : option attrs) (e : Eaf)
  : result Eaf :=
  if String.eqb tier_id "" then Raise ValueError
  else
    ling' <- (if match ling with
                 | Some l => dict_mem l (linguistic_types e)
                 | None => false
                 end
              then Ok ling
              else match dict_keys (linguistic_types e) with
                   | [] => Raise IndexError
                   | k :: ks => Ok (Some (least k ks))
                   end) ;;
    let a := match tier_dict with
             | None => [("TIER_ID", Some tier_id);
                        ("LINGUISTIC_TYPE_REF", ling');
                        ("PARENT_REF", parent);
                        ("PARTICIPANT", None);
                        ("DEFAULT_LOCALE", None);
                        ("LANG_REF", None);
                        ("ANNOTATOR", None)]
             | Some d => d
             end in
    Ok (set_tiers
          (dict_set tier_id (mk_tier [] [] a (List.length (tiers e))) (tiers e))
          e).

(** [Eaf.clean_time_slots()]: drop the time slots no aligned annotation
    uses. *)
Definition used_slots (ts : dict tier) : list string :=
  flat_map (fun t => flat_map (fun a => match a with
                                        | (b, e, _, _) => [b; e]
                                        end)
                              (dict_values (aligned_annotations t)))
           (dict_values ts).

Definition clean_time_slots (e : Eaf) : Eaf :=
  let used := used_slots (tiers e) in
  set_timeslots
    (filter (fun kv => existsb (String.eqb (fst kv)) used) (timeslots e)) e.

(** Modelled from the spec: [Eaf.remove_tier(id_tier)] (section 3,
    "a single default placeholder tier that must be discarded"). *)
Definition remove_tier (id_tier : string) (e : Eaf) : result Eaf :=
  if dict_mem id_tier (tiers e)
  then Ok (clean_time_slots (set_tiers (dict_del id_tier (tiers e)) e))
  else Raise KeyError.

(** Modelled from the spec: the constructor [Eaf()] (section 3, "the target
    Document starts ... with a single default placeholder tier").  The
    header carries the author and the date of the run. *)
Definition Eaf_new (author date : string) : Eaf :=
  let e0 := mk_Eaf [("AUTHOR", author); ("DATE", date);
                    ("VERSION", "2.8"); ("FORMAT", "2.8")]
                   [] [] [] [] 1 1 in
  let e1 := add_linguistic_type "default-lt" [] e0 in
  match add_tier "default" (Some "default-lt") None None e1 with
  | Ok e2 => e2
  | Raise _ => e1
  end.

(** Modelled from the spec: [Eaf.generate_ts_id(time)]: the next time-slot
    id, bound to [time] in the time-slot mapping. *)
Definition generate_ts_id (time : Z) (e : Eaf) : result (string * Eaf) :=
  if (time <? 0)%Z then Raise ValueError
  else
    let n := S (maxts e) in
    Ok (tsid_of n,
        set_timeslots (dict_set (tsid_of n) time (timeslots e)) (set_maxts n e)).

(** Modelled from the spec: [Eaf.generate_annotation_id()] (section 4.1,
    "each write returns the newly generated annotation identifier"): the
    counter [maxaid] is advanced and formatted. *)
Definition generate_annotation_id (e : Eaf) : string * Eaf :=
  let n := S (maxaid e) in (aid_of n, set_maxaid n e).

(** Replace the annotations of one tier. *)
Definition put_aligned (id_tier aid : string) (a : aligned_annotation)
    (e : Eaf) : result Eaf :=
  t <- subscript (tiers e) id_tier ;;
  Ok (set_tiers
        (dict_set id_tier
           (mk_tier (dict_set aid a (aligned_annotations t))
                    (reference_annotations t) (attributes t) (ordinal t))
           (tiers e)) e).

Definition put_ref (id_tier aid : string) (a : ref_annotation)
    (e : Eaf) : result Eaf :=
  t <- subscript (tiers e) id_tier ;;
  Ok (set_tiers
        (dict_set id_tier
           (mk_tier (aligned_annotations t)
                    (dict_set aid a (reference_annotations t))
                    (attributes t) (ordinal t))
           (tiers e)) e).

(** Modelled from the spec: [Eaf.add_annotation(id_tier, start, end,
    value)] (section 4.1, "append a TimeAligned annotation to an
    independent tier"; section 3, start strictly before end).  Two fresh
    time slots hold the offsets. *)
Definition add_annotation (id_tier : string) (start end_ : Z) (value : string)
    (e : Eaf) : result Eaf :=
  t <- subscript (tiers e) id_tier ;;
  if truthy (reference_annotations t) then Raise ValueError
  else if (start =? end_)%Z then Raise ValueError
  else if (start >? end_)%Z then Raise ValueError
  else if (start <? 0)%Z then Raise ValueError
  else
    '(start_ts, e1) <- generate_ts_id start e ;;
    '(end_ts, e2) <- generate_ts_id end_ e1 ;;
    let '(aid, e3) := generate_annotation_id e2 in
    let e4 := set_annotations (dict_set aid id_tier (annotations e3)) e3 in
    put_aligned id_tier aid (start_ts, end_ts, value, None) e4.

(** Modelled from the spec: [Eaf.get_parameters_for_tier(id_tier)]
    (section 4.1, "fetch a tier's declared type/parent/other
    parameters"). *)
Definition get_parameters_for_tier (e : Eaf) (id_tier : string)
  : result attrs :=
  t <- subscript (tiers e) id_tier ;;
  Ok (attributes t).

(** The two accessors of the library whose behaviour on hierarchies of
    reference tiers the script takes from a patched release:
    - [get_ref_annotation_data_for_tier]: the reference annotations of a
      tier in tier order, as [(begin, end, value, parent key)] (section 4.1,
      "fetch all Reference annotations of a dependent tier ... in tier
      order");
    - [find_annotation]: the annotation of tier [tier2] that a new
      reference annotation at [time] is anchored to (section 4.1, "given a
      parent annotation id (or equivalent parent-matching key)").
    Both only read the document. *)
Record ref_api : Type := mk_ref_api {
  get_ref_annotation_data_for_tier :
    Eaf -> string -> result (list (Z * Z * string * string));
  find_annotation : Eaf -> string -> Z -> result string
}.

Section WithApi.

Variable api : ref_api.

(** Modelled from the spec: [Eaf.add_ref_annotation(id_tier, tier2, time,
    value, prev)] (section 4.1, "append a Reference annotation to a
    dependent tier given a parent annotation id ... and optional
    previous-link"). *)
Definition add_ref_annotation (id_tier tier2 : string) (time : Z)
    (value : string) (prev : option string) (e : Eaf) : result Eaf :=
  t <- subscript (tiers e) id_tier ;;
  if truthy (aligned_annotations t) then Raise ValueError
  else
    ann <- find_annotation api e tier2 time ;;
    let '(aid, e1) := generate_annotation_id e in
    let e2 := set_annotations (dict_set aid id_tier (annotations e1)) e1 in
    put_ref id_tier aid (ann, value, prev, None) e2.

(** The element expression of the list returned by
    [get_annotation_data_for_tier]: the offsets of the two slots and the
    value. *)
Definition annotation_data (ts : dict Z) (kv : string * aligned_annotation)
  : result (Z * Z * string) :=
  match kv with
  | (_, (b, e', v, _)) =>
      s <- subscript ts b ;;
      f <- subscript ts e' ;;
      Ok (s, f, v)
  end.

(** Modelled from the spec: [Eaf.get_annotation_data_for_tier(id_tier)]
    (section 4.1, "fetch all TimeAligned annotations of an independent tier
    as (start, end, value) triples in tier order").  On a tier that holds
    reference annotations the library answers with their data instead. *)
Definition get_annotation_data_for_tier (e : Eaf) (id_tier : string)
  : result (list (Z * Z * string)) :=
  t <- subscript (tiers e) id_tier ;;
  if truthy (reference_annotations t) then
    rs <- get_ref_annotation_data_for_tier api e id_tier ;;
    Ok (map (fun r => match r with (b, e', v, _) => (b, e', v) end) rs)
  else
    comprehension (annotation_data (timeslots e)) (aligned_annotations t).

End WithApi.

End Elan.

Export Elan.

(** ** The script *)

(** The three document objects of [main]. A procedure receives references
    to them, so a write through [target_eaf] is seen through every other
    reference to the same object. *)
Inductive ref : Type := eaf_1 | eaf_2 | eaf_3.

Record store : Type := mk_store {
  obj_1 : Eaf;
  obj_2 : Eaf;
  obj_3 : Eaf
}.

Definition deref (h : store) (r : ref) : Eaf :=
  match r with
  | eaf_1 => obj_1 h
  | eaf_2 => obj_2 h
  | eaf_3 => obj_3 h
  end.

Definition update (h : store) (r : ref) (e : Eaf) : store :=
  match r with
  | eaf_1 => mk_store e (obj_2 h) (obj_3 h)
  | eaf_2 => mk_store (obj_1 h) e (obj_3 h)
  | eaf_3 => mk_store (obj_1 h) (obj_2 h) e
  end.

(** One aggregated utterance: the Python list
    [[utt_start, word_dur, [word, gloss], [word, gloss], ...]]. *)
Record word_gloss_list : Type := mk_word_gloss_list {
  item_0 : Z;
  item_1 : Z;
  items_from_2 : list (string * string)
}.

Section Script.

Variable api : ref_api.

(** [override_params if override_params else
     source_eaf.get_parameters_for_tier(source_tier_name)] *)
Definition params_of (h : store) (source_eaf : ref) (source_tier_name : string)
    (override_params : attrs) : result attrs :=
  if truthy override_params then Ok override_params
  else get_parameters_for_tier (deref h source_eaf) source_tier_name.

(** [_tier_copy]: straight copy of a non-ref tier. *)
Definition _tier_copy (source_eaf target_eaf : ref)
    (source_tier_name target_tier_name : string) (override_params : attrs)
    (h : store) : result store :=
  params <- params_of h source_eaf source_tier_name override_params ;;
  ling <- subscript params "LINGUISTIC_TYPE_REF" ;;
  t <- add_tier target_tier_name ling None (Some params) (deref h target_eaf) ;;
  let h := update h target_eaf t in
  annotations <- get_annotation_data_for_tier api (deref h source_eaf)
                   source_tier_name ;;
  for_each
    (fun h annotation =>
       match annotation with
       | (a0, a1, a2) =>
           t <- add_annotation target_tier_name a0 a1 a2 (deref h target_eaf) ;;
           Ok (update h target_eaf t)
       end)
    annotations h.

(** [_ref_tier_copy]: copy of a ref tier to a ref tier. *)
Definition _ref_tier_copy (source_eaf target_eaf : ref)
    (source_tier_name target_tier_name target_parent_tier_name : string)
    (override_params : attrs) (h : store) : result store :=
  params <- params_of h source_eaf source_tier_name override_params ;;
  ling <- subscript params "LINGUISTIC_TYPE_REF" ;;
  t <- add_tier target_tier_name ling (Some target_parent_tier_name)
         (Some params) (deref h target_eaf) ;;
  let h := update h target_eaf t in
  annotations <- get_ref_annotation_data_for_tier api (deref h source_eaf)
                   source_tier_name ;;
  for_each
    (fun h annotation =>
       match annotation with
       | (a0, _, a2, _) =>
           t <- add_ref_annotation api target_tier_name target_parent_tier_name
                  (a0 + 1)%Z a2 None (deref h target_eaf) ;;
           Ok (update h target_eaf t)
       end)
    annotations h.

(** [_tier_copy_to_ref]: copy of a non-ref tier to a ref tier. *)
Definition _tier_copy_to_ref (source_eaf target_eaf : ref)
    (source_tier_name target_tier_name target_parent_tier_name : string)
    (override_params : attrs) (h : store) : result store :=
  params <- params_of h source_eaf source_tier_name override_params ;;
  ling <- subscript params "LINGUISTIC_TYPE_REF" ;;
  t <- add_tier target_tier_name ling (Some target_parent_tier_name)
         (Some params) (deref h target_eaf) ;;
  let h := update h target_eaf t in
  annotations <- get_annotation_data_for_tier api (deref h source_eaf)
                   source_tier_name ;;
  for_each
    (fun h annotation =>
       match annotation with
       | (a0, _, a2) =>
           t <- add_ref_annotation api target_tier_name target_parent_tier_name
                  a0 a2 None (deref h target_eaf) ;;
           Ok (update h target_eaf t)
       end)
    annotations h.

(** The variables of the loop of [_copy_symbolic_subdivision_tier]. *)
Record chain_state : Type := mk_chain_state {
  chain_store : store;
  previous_parent_id : option string;
  previous_id : option string
}.

(** One iteration of the loop of [_copy_symbolic_subdivision_tier]. *)
Definition chain_step (target_eaf : ref)
    (target_tier_name target_parent_tier_name : string)
    (s : chain_state) (annotation : Z * Z * string * string)
  : result chain_state :=
  match annotation with
  | (a0, _, a2, a3) =>
      let prev :=
        match previous_parent_id s with
        | Some p => if String.eqb a3 p then previous_id s else None
        | None => None
        end in
      t <- add_ref_annotation api target_tier_name target_parent_tier_name
             (a0 + 1)%Z a2 prev (deref (chain_store s) target_eaf) ;;
      Ok (mk_chain_state (update (chain_store s) target_eaf t)
                         (Some a3)
                         (Some (aid_of (maxaid t))))
  end.

(** [_copy_symbolic_subdivision_tier]: copy of a symbolic-subdivision ref
    tier; inside a group every annotation but the first refers to its
    previous one. *)
Definition _copy_symbolic_subdivision_tier (source_eaf target_eaf : ref)
    (source_tier_name target_tier_name target_parent_tier_name : string)
    (override_params : attrs) (h : store) : result store :=
  params <- params_of h source_eaf source_tier_name override_params ;;
  ling <- subscript params "LINGUISTIC_TYPE_REF" ;;
  t <- add_tier target_tier_name ling (Some target_parent_tier_name)
         (Some params) (deref h target_eaf) ;;
  let h := update h target_eaf t in
  annotations <- get_ref_annotation_data_for_tier api (deref h source_eaf)
                   source_tier_name ;;
  s <- for_each (chain_step target_eaf target_tier_name target_parent_tier_name)
         annotations (mk_chain_state h None None) ;;
  Ok (chain_store s).

(** *** [main] *)

Definition utterance_id_source_tier : string := "A_phrase-segnum-en".
Definition utterance_id_target_tier : string := "utterance_id".
Definition utterance_source_tier : string :=
  "DDD_Transcription-txt-qaa-fonipa-x-eib".
Definition utterance_target_tier : string := "utterance".
Definition utterance_translation_source_tier : string :=
  "DDD_Translation-gls-en".
Definition utterance_translation_target_tier : string :=
  "utterance_translation".
Definition word_source_tier : string := "A_word-txt-qaa-fonipa-x-eib".
Definition word_target_tier : string := "grammatical_words".
Definition morph_source_tier : string := "A_morph-txt-qaa-fonipa-x-eib".
Definition gloss_source_tier : string := "A_morph-gls-en".
Definition gloss_target_tier : string := "gloss".

Definition utterance_id_tier_params : attrs :=
  [("LINGUISTIC_TYPE_REF", Some "default-lt");
   ("TIER_ID", Some utterance_id_target_tier)].

Definition blank_type_params : attrs :=
  [("LINGUISTIC_TYPE_ID", Some "Blank");
   ("CONSTRAINTS", Some "Symbolic_Association");
   ("TIME_ALIGNABLE", Some "false")].

Definition utterance_tier_params : attrs :=
  [("LINGUISTIC_TYPE_REF", Some "Blank");
   ("PARENT_REF", Some utterance_id_target_tier);
   ("TIER_ID", Some utterance_target_tier)].

Definition utterance_translation_tier_params : attrs :=
  [("LINGUISTIC_TYPE_REF", Some "Blank");
   ("PARENT_REF", Some utterance_target_tier);
   ("TIER_ID", Some utterance_translation_target_tier)].

Definition word_type_params : attrs :=
  [("LINGUISTIC_TYPE_ID", Some "word");
   ("CONSTRAINTS", Some "Symbolic_Subdivision");
   ("TIME_ALIGNABLE", Some "false")].

Definition word_tier_params : attrs :=
  [("LINGUISTIC_TYPE_REF", Some "word");
   ("PARENT_REF", Some utterance_target_tier);
   ("TIER_ID", Some word_target_tier)].

Definition gloss_tier_params : attrs :=
  [("LINGUISTIC_TYPE_REF", Some "Blank");
   ("PARENT_REF", Some word_target_tier);
   ("TIER_ID", Some gloss_target_tier)].

(** The glosses of one word (lines 310-317): for each morph of the word,
    in morph-tier order, the values of the glosses of that morph, in
    gloss-tier order. *)
Definition collect_glosses (morph_tier gloss_tier : dict ref_annotation)
    (word_id : string) : list string :=
  fold_left
    (fun glosses morph_item =>
       match morph_item with
       | (morph_id, (morph_0, _, _, _)) =>
           if String.eqb morph_0 word_id then
             fold_left
               (fun glosses gloss_item =>
                  match gloss_item with
                  | (_, (gloss_0, gloss_1, _, _)) =>
                      if String.eqb gloss_0 morph_id
                      then glosses ++ [gloss_1] else glosses
                  end)
               gloss_tier glosses
           else glosses
       end)
    morph_tier [].

(** The [[word, gloss]] pairs of one utterance (lines 307-319). *)
Definition collect_word_gloss (word_tier morph_tier gloss_tier
    : dict ref_annotation) (utterance_id : string) : list (string * string) :=
  fold_left
    (fun word_gloss word_item =>
       match word_item with
       | (word_id, (word_0, word_1, _, _)) =>
           if String.eqb word_0 utterance_id then
             word_gloss ++
               [(word_1,
                 str_join "-" (collect_glosses morph_tier gloss_tier word_id))]
           else word_gloss
       end)
    word_tier [].

(** The body of the loop over the utterances (lines 304-327). *)
Definition aggregate_step (eaf_2_timeslots : dict Z)
    (word_tier morph_tier gloss_tier : dict ref_annotation)
    (new_dict : dict word_gloss_list)
    (item : string * aligned_annotation) : result (dict word_gloss_list) :=
  match item with
  | (utterance_id, (utterance_0, utterance_1, _, _)) =>
      utt_start <- subscript eaf_2_timeslots utterance_0 ;;
      utt_end <- subscript eaf_2_timeslots utterance_1 ;;
      let word_gloss :=
        collect_word_gloss word_tier morph_tier gloss_tier utterance_id in
      let num_segments := Z.of_nat (List.length word_gloss) in
      let utt_dur := (utt_end - utt_start)%Z in
      word_dur <- int_truediv utt_dur num_segments ;;
      Ok (dict_set utterance_id
            (mk_word_gloss_list utt_start word_dur word_gloss) new_dict)
  end.

(** Lines 290-327: the dictionary [new_dict] built from the second
    document. *)
Definition aggregate (e2 : Eaf) : result (dict word_gloss_list) :=
  let eaf_2_tiers := tiers e2 in
  let eaf_2_timeslots := timeslots e2 in
  w <- subscript eaf_2_tiers word_source_tier ;;
  m <- subscript eaf_2_tiers morph_source_tier ;;
  g <- subscript eaf_2_tiers gloss_source_tier ;;
  u <- subscript eaf_2_tiers utterance_id_source_tier ;;
  for_each
    (aggregate_step eaf_2_timeslots (reference_annotations w)
       (reference_annotations m) (reference_annotations g))
    (aligned_annotations u) [].

(** Lines 346-349: the body of the loop over the word tier of the target,
    for one synthesized word [ann]. *)
Definition match_step (ann : string * string) (e3 : Eaf)
    (item : string * ref_annotation) : result Eaf :=
  let id_tier := gloss_target_tier in
  match item with
  | (aid, (_, _value, _, _)) =>
      if String.eqb (fst ann) _value then
        let '(new_aid, e3) := generate_annotation_id e3 in
        put_ref id_tier new_aid (aid, snd ann, None, None) e3
      else Ok e3
  end.

(** Lines 346-349: one synthesized word against the word tier of the
    target.  [id_tier] and [tier2] are different tiers, so the dictionary
    being iterated is not the one being written. *)
Definition emit_matches (ann : string * string) (e3 : Eaf) : result Eaf :=
  let tier2 := word_target_tier in
  t2 <- subscript (tiers e3) tier2 ;;
  for_each (match_step ann) (reference_annotations t2) e3.

(** The variables of the loop over [annotation[2:]]; [word_starts] records
    the value [word_start] takes at each iteration. *)
Record emit_state : Type := mk_emit_state {
  emit_eaf : Eaf;
  count : Z;
  word_starts : list Z
}.

(** Lines 338-351: the body of the loop over [annotation[2:]]. *)
Definition emit_word (utt_start word_dur : Z) (s : emit_state)
    (ann : string * string) : result emit_state :=
  let word_start := (utt_start + word_dur * count s)%Z in
  e3 <- emit_matches ann (emit_eaf s) ;;
  Ok (mk_emit_state e3 (count s + 1)%Z (word_starts s ++ [word_start])).

(** Lines 333-351: the body of the loop over [new_dict.items()]. *)
Definition emit_utterance (e3 : Eaf) (annotation : word_gloss_list)
  : result (Eaf * list Z) :=
  let utt_start := item_0 annotation in
  let word_dur := item_1 annotation in
  s <- for_each (emit_word utt_start word_dur) (items_from_2 annotation)
         (mk_emit_state e3 0%Z []) ;;
  Ok (emit_eaf s, word_starts s).

(** Lines 331-351: the gloss tier and its annotations. *)
Definition emit (new_dict : dict word_gloss_list) (e3 : Eaf) : result Eaf :=
  e3 <- add_tier gloss_target_tier (Some "Blank") (Some word_target_tier)
          (Some gloss_tier_params) e3 ;;
  for_each
    (fun e3 item => '(e3', _) <- emit_utterance e3 (snd item) ;; Ok e3')
    new_dict e3.

(** Lines 212-278 of [main]: the placeholder tier is removed and the four
    tiers are copied, parents first. *)
Definition copy_tiers (h : store) : result store :=
  t <- remove_tier "default" (deref h eaf_3) ;;
  let h := update h eaf_3 t in
  h <- _tier_copy eaf_2 eaf_3 utterance_id_source_tier
         utterance_id_target_tier utterance_id_tier_params h ;;
  let h := update h eaf_3
             (add_linguistic_type "Blank" blank_type_params (deref h eaf_3)) in
  h <- _tier_copy_to_ref eaf_1 eaf_3 utterance_source_tier
         utterance_target_tier utterance_id_target_tier
         utterance_tier_params h ;;
  h <- _ref_tier_copy eaf_1 eaf_3 utterance_translation_source_tier
         utterance_translation_target_tier utterance_target_tier
         utterance_translation_tier_params h ;;
  let h := update h eaf_3
             (add_linguistic_type "word" word_type_params (deref h eaf_3)) in
  _copy_symbolic_subdivision_tier eaf_2 eaf_3 word_source_tier
    word_target_tier utterance_id_target_tier word_tier_params h.

(** [main], from the three objects once loaded and created to the store
    handed to [to_file]. *)
Definition main_from (h : store) : result store :=
  h <- copy_tiers h ;;
  new_dict <- aggregate (deref h eaf_2) ;;
  t <- emit new_dict (deref h eaf_3) ;;
  Ok (update h eaf_3 t).

(** [main]: [file_1] and [file_2] are the loaded documents; [author] and
    [date] are what the constructor [Eaf()] stamps on the new one. *)
Definition main (author date : string) (file_1 file_2 : Eaf) : result store :=
  main_from (mk_store file_1 file_2 (Eaf_new author date)).

End Script.

(** ** One implementation of the accessors

    Used to run the script on sample documents.  A reference annotation is
    resolved to the aligned annotation at the top of its chain of
    references, whose offsets and value are items [0], [1] and [3] of its
    data; a new reference annotation is anchored in [tier2] itself, to the
    first annotation of that tier that spans [time], an annotation of a
    reference tier spanning what its aligned ancestor spans. *)

Module Sample.

Definition has_parent (t : tier) : option string :=
  match dict_get "PARENT_REF" (attributes t) with
  | Some (Some p) => if String.eqb p "" then None else Some p
  | _ => None
  end.

(** [fuel] bounds the length of the chain of references. *)
Fixpoint get_parent_aligned_annotation (fuel : nat) (e : Eaf) (ref_id : string)
  : result aligned_annotation :=
  name <- subscript (annotations e) ref_id ;;
  parentTier <- subscript (tiers e) name ;;
  match has_parent parentTier with
  | None => subscript (aligned_annotations parentTier) ref_id
  | Some _ =>
      match fuel with
      | O => Raise KeyError
      | S fuel' =>
          r <- subscript (reference_annotations parentTier) ref_id ;;
          match r with
          | (ref_id', _, _, _) => get_parent_aligned_annotation fuel' e ref_id'
          end
      end
  end.

Definition ref_data (e : Eaf) (id_tier : string)
  : result (list (Z * Z * string * string)) :=
  t <- subscript (tiers e) id_tier ;;
  comprehension
    (fun kv =>
       match kv with
       | (_, (r, value, _, _)) =>
           refann <- get_parent_aligned_annotation
                       (List.length (tiers e)) e r ;;
           match refann with
           | (b, f, v, _) =>
               s <- subscript (timeslots e) b ;;
               t <- subscript (timeslots e) f ;;
               Ok (s, t, value, v)
           end
       end)
    (reference_annotations t).

Fixpoint first_at (ts : dict Z) (time : Z) (items : dict aligned_annotation)
  : result string :=
  match items with
  | [] => Raise ValueError
  | (aid, (b, f, _, _)) :: items' =>
      s <- subscript ts b ;;
      t <- subscript ts f ;;
      if ((s <=? time) && (time <=? t))%Z%bool then Ok aid
      else first_at ts time items'
  end.

Fixpoint first_ref_at (e : Eaf) (time : Z) (items : dict ref_annotation)
  : result string :=
  match items with
  | [] => Raise ValueError
  | (aid, (r, _, _, _)) :: items' =>
      refann <- get_parent_aligned_annotation (List.length (tiers e)) e r ;;
      match refann with
      | (b, f, _, _) =>
          s <- subscript (timeslots e) b ;;
          t <- subscript (timeslots e) f ;;
          if ((s <=? time) && (time <=? t))%Z%bool then Ok aid
          else first_ref_at e time items'
      end
  end.

Definition find_by_time (e : Eaf) (tier2 : string) (time : Z)
  : result string :=
  t <- subscript (tiers e) tier2 ;;
  match has_parent t with
  | None => first_at (timeslots e) time (aligned_annotations t)
  | Some _ => first_ref_at e time (reference_annotations t)
  end.

Definition api : ref_api := mk_ref_api ref_data find_by_time.

(** The first document: transcription and free translation. *)
Definition file_1 : Eaf :=
  mk_Eaf [("AUTHOR", "unspecified"); ("DATE", "2019-01-01T00:00:00+10:00")]
    [("a1", utterance_source_tier); ("a2", utterance_source_tier);
     ("a3", utterance_translation_source_tier);
     ("a4", utterance_translation_source_tier)]
    [("default-lt", [("LINGUISTIC_TYPE_ID", Some "default-lt");
                     ("TIME_ALIGNABLE", Some "true")]);
     ("Blank", blank_type_params)]
    [(utterance_source_tier,
      mk_tier [("a1", ("ts1", "ts2", "mi na", None));
               ("a2", ("ts3", "ts4", "ka rua te", None))]
              []
              [("LINGUISTIC_TYPE_REF", Some "default-lt");
               ("TIER_ID", Some utterance_source_tier)] 0);
     (utterance_translation_source_tier,
      mk_tier []
              [("a3", ("a1", "I did not", None, None));
               ("a4", ("a2", "he went there", None, None))]
              [("LINGUISTIC_TYPE_REF", Some "Blank");
               ("PARENT_REF", Some utterance_source_tier);
               ("TIER_ID", Some utterance_translation_source_tier)] 1)]
    [("ts1", 0%Z); ("ts2", 900%Z); ("ts3", 1000%Z); ("ts4", 4000%Z)]
    4 4.

(** The word, morph and gloss annotations of the second document.  The
    second utterance ([a2]) has three words: one morph glossed [NEG], two
    morphs glossed [go] and [PST], and no morph. *)
Definition words : dict ref_annotation :=
  [("a3", ("a1", "mina", None, None));
   ("a4", ("a2", "ka", None, None));
   ("a5", ("a2", "rua", Some "a4", None));
   ("a6", ("a2", "te", Some "a5", None))].

Definition morphs : dict ref_annotation :=
  [("a7", ("a3", "mina", None, None));
   ("a8", ("a4", "ka", None, None));
   ("a9", ("a5", "ru", None, None));
   ("a10", ("a5", "a", Some "a9", None))].

Definition glosses : dict ref_annotation :=
  [("a11", ("a7", "1SG", None, None));
   ("a12", ("a8", "NEG", None, None));
   ("a13", ("a9", "go", None, None));
   ("a14", ("a10", "PST", None, None))].

(** The second document: the interlinearized text; its second utterance
    spans [1000, 4000). *)
Definition file_2 : Eaf :=
  mk_Eaf [("AUTHOR", "unspecified"); ("DATE", "2019-01-02T00:00:00+10:00")]
    [("a1", utterance_id_source_tier); ("a2", utterance_id_source_tier);
     ("a3", word_source_tier); ("a4", word_source_tier);
     ("a5", word_source_tier); ("a6", word_source_tier);
     ("a7", morph_source_tier); ("a8", morph_source_tier);
     ("a9", morph_source_tier); ("a10", morph_source_tier);
     ("a11", gloss_source_tier); ("a12", gloss_source_tier);
     ("a13", gloss_source_tier); ("a14", gloss_source_tier)]
    [("default-lt", [("LINGUISTIC_TYPE_ID", Some "default-lt");
                     ("TIME_ALIGNABLE", Some "true")]);
     ("word", word_type_params);
     ("Blank", blank_type_params)]
    [(utterance_id_source_tier,
      mk_tier [("a1", ("ts1", "ts2", "1", None));
               ("a2", ("ts3", "ts4", "2", None))]
              []
              [("LINGUISTIC_TYPE_REF", Some "default-lt");
               ("TIER_ID", Some utterance_id_source_tier)] 0);
     (word_source_tier,
      mk_tier [] words
              [("LINGUISTIC_TYPE_REF", Some "word");
               ("PARENT_REF", Some utterance_id_source_tier);
               ("TIER_ID", Some word_source_tier)] 1);
     (morph_source_tier,
      mk_tier [] morphs
              [("LINGUISTIC_TYPE_REF", Some "word");
               ("PARENT_REF", Some word_source_tier);
               ("TIER_ID", Some morph_source_tier)] 2);
     (gloss_source_tier,
      mk_tier [] glosses
              [("LINGUISTIC_TYPE_REF", Some "Blank");
               ("PARENT_REF", Some morph_source_tier);
               ("TIER_ID", Some gloss_source_tier)] 3)]
    [("ts1", 0%Z); ("ts2", 900%Z); ("ts3", 1000%Z); ("ts4", 4000%Z)]
    14 4.

(** The second document with a third utterance that has no word. *)
Definition file_2_empty_group : Eaf :=
  set_timeslots
    (timeslots file_2 ++ [("ts5", 5000%Z); ("ts6", 6000%Z)])
    (set_tiers
       (dict_set utterance_id_source_tier
          (mk_tier [("a1", ("ts1", "ts2", "1", None));
                    ("a2", ("ts3", "ts4", "2", None));
                    ("a15", ("ts5", "ts6", "3", None))]
                   []
                   [("LINGUISTIC_TYPE_REF", Some "default-lt");
                    ("TIER_ID", Some utterance_id_source_tier)] 0)
          (tiers file_2))
       (set_annotations
          (annotations file_2 ++ [("a15", utterance_id_source_tier)])
          (set_maxaid 15 (set_maxts 6 file_2)))).

(** The second document with the text ["ka"] on two words of the second
    utterance. *)
Definition file_2_repeated_word : Eaf :=
  set_tiers
    (dict_set word_source_tier
       (mk_tier []
          [("a3", ("a1", "mina", None, None));
           ("a4", ("a2", "ka", None, None));
           ("a5", ("a2", "ka", Some "a4", None));
           ("a6", ("a2", "te", Some "a5", None))]
          [("LINGUISTIC_TYPE_REF", Some "word");
           ("PARENT_REF", Some utterance_id_source_tier);
           ("TIER_ID", Some word_source_tier)] 1)
       (tiers file_2))
    file_2.

(** The second document with the same value, ["1"], on its two utterance
    ids.  The words are those of [file_2]: ["mina"] under the first
    utterance ([a1]), the three others under the second ([a2]). *)
Definition file_2_equal_ids : Eaf :=
  set_tiers
    (dict_set utterance_id_source_tier
       (mk_tier [("a1", ("ts1", "ts2", "1", None));
                 ("a2", ("ts3", "ts4", "1", None))]
                []
                [("LINGUISTIC_TYPE_REF", Some "default-lt");
                 ("TIER_ID", Some utterance_id_source_tier)] 0)
       (tiers file_2))
    file_2.

(** The three objects when [main] starts. *)
Definition loaded : store :=
  mk_store file_1 file_2 (Eaf_new "pympi" "2019-01-03T00:00:00+10:00").

(** The store once the utterance ids are copied and the type of the word
    tier is declared. *)
Definition before_word_copy : store :=
  Eval vm_compute in
    match
      (t <- remove_tier "default" (deref loaded eaf_3) ;;
       h <- _tier_copy api eaf_2 eaf_3 utterance_id_source_tier
              utterance_id_target_tier utterance_id_tier_params
              (update loaded eaf_3 t) ;;
       Ok (update h eaf_3
             (add_linguistic_type "word" word_type_params (deref h eaf_3))))
    with
    | Ok h => h
    | Raise _ => loaded
    end.

(** A target in which two words have the same text. *)
Definition repeated_word_target : Eaf :=
  mk_Eaf [("AUTHOR", "pympi"); ("DATE", "2019-01-03T00:00:00+10:00")]
    [("a2", utterance_id_target_tier);
     ("a3", word_target_tier); ("a4", word_target_tier)]
    [("default-lt", [("LINGUISTIC_TYPE_ID", Some "default-lt");
                     ("TIME_ALIGNABLE", Some "true")]);
     ("Blank", blank_type_params);
     ("word", word_type_params)]
    [(utterance_id_target_tier,
      mk_tier [("a2", ("ts2", "ts3", "1", None))] []
              utterance_id_tier_params 0);
     (word_target_tier,
      mk_tier []
              [("a3", ("a2", "ka", None, None));
               ("a4", ("a2", "ka", Some "a3", None))]
              word_tier_params 1);
     (gloss_target_tier, mk_tier [] [] gloss_tier_params 2)]
    [("ts2", 0%Z); ("ts3", 900%Z)]
    4 3.

End Sample.

(** ** The vocabulary of the specification

    Definitions that follow the words of the specification, to be compared
    with the loops of the script. *)

Definition ref_parent (a : ref_annotation) : string :=
  match a with (r, _, _, _) => r end.

Definition ref_value (a : ref_annotation) : string :=
  match a with (_, v, _, _) => v end.

Definition ref_previous (a : ref_annotation) : option string :=
  match a with (_, _, p, _) => p end.

(** "the word-tier annotations whose parent id equals this utterance id,
    preserving source order" *)
Definition words_of (word_tier : dict ref_annotation) (utterance_id : string)
  : dict ref_annotation :=
  filter (fun w => String.eqb (ref_parent (snd w)) utterance_id) word_tier.

(** "morph-tier annotations whose parent id equals the word's id,
    preserving order" *)
Definition morphs_of (morph_tier : dict ref_annotation) (word_id : string)
  : dict ref_annotation :=
  filter (fun m => String.eqb (ref_parent (snd m)) word_id) morph_tier.

(** "gloss-tier annotations whose parent id equals the morph's id" *)
Definition glosses_of (gloss_tier : dict ref_annotation) (morph_id : string)
  : dict ref_annotation :=
  filter (fun g => String.eqb (ref_parent (snd g)) morph_id) gloss_tier.

(** The gloss values of the morphs of a word, in morph order. *)
Definition morph_gloss_values (morph_tier gloss_tier : dict ref_annotation)
    (word_id : string) : list string :=
  flat_map (fun m => map (fun g => ref_value (snd g))
                         (glosses_of gloss_tier (fst m)))
           (morphs_of morph_tier word_id).

(** The annotations of the target word tier whose value is that of a
    synthesized word. *)
Definition candidates (word_value : string) (word_tier : dict ref_annotation)
  : dict ref_annotation :=
  filter (fun w => String.eqb word_value (ref_value (snd w))) word_tier.

(** The gloss annotations created for one synthesized word: one per
    candidate, in word-tier order, anchored to that candidate, with the
    identifiers [first], [first + 1], ... *)
Definition new_glosses (first : nat) (gloss_value : string)
    (cs : dict ref_annotation) : dict ref_annotation :=
  map (fun nc => (aid_of (fst nc), (fst (snd nc), gloss_value, None, None)))
      (combine (seq first (List.length cs)) cs).

(** No identifier above [n] is a key of [d]. *)
Definition ids_below {V : Type} (n : nat) (d : dict V) : Prop :=
  forall k, n < k -> ~ In (aid_of k) (dict_keys d).

(** The target [e3] once the annotations [new] are appended to its gloss
    tier [tg] and as many identifiers are drawn. *)
Definition with_glosses (e3 : Eaf) (tg : tier) (new : dict ref_annotation)
  : Eaf :=
  set_tiers
    (dict_set gloss_target_tier
       (mk_tier (aligned_annotations tg) (reference_annotations tg ++ new)
                (attributes tg) (ordinal tg))
       (tiers e3))
    (set_maxaid (maxaid e3 + List.length new) e3).

(** The target has the two tiers the emission phase works on. *)
Definition emit_ready (e3 : Eaf) : Prop :=
  dict_mem word_target_tier (tiers e3) = true
  /\ dict_mem gloss_target_tier (tiers e3) = true.

(** [same_but r h h']: the stores agree on every object but [r]. *)
Definition same_but (r : ref) (h h' : store) : Prop :=
  forall r', r' <> r -> deref h' r' = deref h r'.

(** A time-aligned annotation as the data model has it: a non-negative
    start strictly before the end. *)
Definition valid_span (x : Z * Z * string) : Prop :=
  match x with (s, f, _) => (0 <= s < f)%Z end.

(** No time-slot identifier above [n] is used by the annotations [d]. *)
Definition slots_below (n : nat) (d : dict aligned_annotation) : Prop :=
  forall k b f v s, In (k, (b, f, v, s)) d ->
    forall j, n < j -> b <> tsid_of j /\ f <> tsid_of j.

(** The target tier during the copy: [done] is what reading it back
    gives. *)
Definition copying (target_tier_name : string) (e : Eaf)
    (n : nat) (done : list (Z * Z * string)) : Prop :=
  exists t,
    dict_get target_tier_name (tiers e) = Some t
    /\ reference_annotations t = []
    /\ List.length (aligned_annotations t) = n
    /\ ids_below (maxaid e) (aligned_annotations t)
    /\ slots_below (maxts e) (aligned_annotations t)
    /\ comprehension (annotation_data (timeslots e)) (aligned_annotations t)
       = Ok done.


(** *** Groups of a symbolic subdivision *)

(** The value and the parent key of an item of
    [get_ref_annotation_data_for_tier]. *)
Definition data_value (x : Z * Z * string * string) : string :=
  match x with (_, _, v, _) => v end.

Definition data_parent (x : Z * Z * string * string) : string :=
  match x with (_, _, _, p) => p end.

(** A generated annotation next to the parent key, item [3], of its
    source item. *)
Definition row : Type := (string * (string * ref_annotation))%type.

Definition row_id (x : row) : string := fst (snd x).

Definition row_previous (x : row) : option string :=
  ref_previous (snd (snd x)).

(** The groups: maximal runs of consecutive rows with the same parent
    key. *)
Fixpoint runs (rows : list row) : list (list row) :=
  match rows with
  | [] => []
  | x :: rows' =>
      match runs rows' with
      | (y :: g) :: gs =>
          if String.eqb (fst x) (fst y) then (x :: y :: g) :: gs
          else [x] :: (y :: g) :: gs
      | _ => [[x]]
      end
  end.

(** Every row of [g] refers to the row before it, the first one to
    [aid]. *)
Fixpoint chain_from (aid : string) (g : list row) : Prop :=
  match g with
  | [] => True
  | x :: g' => row_previous x = Some aid /\ chain_from (row_id x) g'
  end.

(** A group: a head without previous-link, followed by a chain. *)
Definition well_chained (g : list row) : Prop :=
  match g with
  | [] => False
  | x :: g' => row_previous x = None /\ chain_from (row_id x) g'
  end.

(** The previous-link the loop of [_copy_symbolic_subdivision_tier] gives
    to an annotation of parent [p]. *)
Definition link_of (previous_parent_id previous_id : option string)
    (p : string) : option string :=
  match previous_parent_id with
  | Some p0 => if String.eqb p p0 then previous_id else None
  | None => None
  end.

(** Every row carries the link the loop computes from the row before. *)
Fixpoint linked (previous_parent_id previous_id : option string)
    (rows : list row) : Prop :=
  match rows with
  | [] => True
  | x :: rows' =>
      row_previous x = link_of previous_parent_id previous_id (fst x)
      /\ linked (Some (fst x)) (Some (row_id x)) rows'
  end.

(** *** Two runs of the script *)

Definition result_map {A B : Type} (f : A -> B) (c : result A) : result B :=
  match c with
  | Ok a => Ok (f a)
  | Raise e => Raise e
  end.

(** The accessor that anchors a new reference annotation does not read the
    header of the document. *)
Definition api_ignores_header (api : ref_api) : Prop :=
  forall (a : dict string) (e : Eaf) (tier2 : string) (time : Z),
    find_annotation api (set_adocument a e) tier2 time
    = find_annotation api e tier2 time.

(** The store with another header on the target document. *)
Definition restamp (a : dict string) (h : store) : store :=
  update h eaf_3 (set_adocument a (deref h eaf_3)).

(** *** What a document declares *)

(** The tiers of a document with their attributes, in document order. *)
Definition tier_attributes (e : Eaf) : dict attrs :=
  map (fun kv => (fst kv, attributes (snd kv))) (tiers e).

(** The declarations of a document: its tiers with their attributes, and
    its linguistic types. *)
Definition declarations (e : Eaf) : dict attrs * dict attrs :=
  (tier_attributes e, linguistic_types e).

(** ** Further vocabulary *)

(** [e'] is [e] up to the tier [name], the identifier counter and the
    registry of annotation ids: the other tiers, the time slots, the
    linguistic types and the header are the same. *)
Definition only_tier_changed (name : string) (e e' : Eaf) : Prop :=
  adocument e' = adocument e
  /\ linguistic_types e' = linguistic_types e
  /\ timeslots e' = timeslots e
  /\ maxts e' = maxts e
  /\ forall k, k <> name -> dict_get k (tiers e') = dict_get k (tiers e).

(** What a reference copy makes of one source item, read at [time] with
    the value [value]: an annotation carrying the value and no
    previous-link, anchored to the annotation the library finds in [tier2]
    at [time], on a target that differs from [e0] by the tier being written
    only. *)
Definition copied_reference (api : ref_api) (e0 : Eaf) (id_tier tier2 : string)
    (time : Z) (value : string) (x : string * ref_annotation) : Prop :=
  ref_value (snd x) = value
  /\ ref_previous (snd x) = None
  /\ exists e,
       only_tier_changed id_tier e0 e
       /\ find_annotation api e tier2 time = Ok (ref_parent (snd x)).

(** The start offset and the value of an item of
    [get_annotation_data_for_tier], and the start offset of an item of
    [get_ref_annotation_data_for_tier]. *)
Definition span_start (x : Z * Z * string) : Z :=
  match x with (s, _, _) => s end.

Definition span_value (x : Z * Z * string) : string :=
  match x with (_, _, v) => v end.

Definition data_start (x : Z * Z * string * string) : Z :=
  match x with (s, _, _, _) => s end.

(** *** Aggregation and emission as a whole *)

(** The two slots of a time-aligned annotation. *)
Definition aligned_begin (a : aligned_annotation) : string :=
  match a with (b, _, _, _) => b end.

Definition aligned_end (a : aligned_annotation) : string :=
  match a with (_, f, _, _) => f end.

(** [entry] is what the aggregation records for the utterance [item]: under
    the utterance's id, its start offset, the word duration and one
    [[word, gloss]] pair per word of the utterance, of which there is at
    least one. *)
Definition entry_of (ts : dict Z)
    (word_tier morph_tier gloss_tier : dict ref_annotation)
    (item : string * aligned_annotation)
    (entry : string * word_gloss_list) : Prop :=
  fst entry = fst item
  /\ items_from_2 (snd entry)
     = map (fun w => (ref_value (snd w),
                      str_join "-"
                        (morph_gloss_values morph_tier gloss_tier (fst w))))
           (words_of word_tier (fst item))
  /\ words_of word_tier (fst item) <> []
  /\ exists S E,
       dict_get (aligned_begin (snd item)) ts = Some S
       /\ dict_get (aligned_end (snd item)) ts = Some E
       /\ item_0 (snd entry) = S
       /\ int_truediv (E - S)
            (Z.of_nat (List.length (words_of word_tier (fst item))))
          = Ok (item_1 (snd entry)).

(** The gloss annotations the emission creates for [new_dict], as
    [(id of the word annotation, gloss)]: utterance by utterance, pair by
    pair, one per annotation of the target word tier with the text of the
    pair's word. *)
Definition gloss_links (word_tier : dict ref_annotation)
    (new_dict : dict word_gloss_list) : list (string * string) :=
  flat_map
    (fun item =>
       flat_map
         (fun ann => map (fun c => (fst c, snd ann))
                         (candidates (fst ann) word_tier))
         (items_from_2 (snd item)))
    new_dict.

(** The links as reference annotations under the identifiers [first],
    [first + 1], ... *)
Definition numbered (first : nat) (links : list (string * string))
  : dict ref_annotation :=
  map (fun nl => (aid_of (fst nl), (fst (snd nl), snd (snd nl), None, None)))
      (combine (seq first (List.length links)) links).

(** The target once the gloss tier holds the annotations of [links]: the
    tier is the last one declared unless a tier of that name was there, and
    as many identifiers are drawn as there are links. *)
Definition glossed (e3 : Eaf) (links : list (string * string)) : Eaf :=
  set_tiers
    (dict_set gloss_target_tier
       (mk_tier [] (numbered (S (maxaid e3)) links) gloss_tier_params
                (List.length (tiers e3)))
       (tiers e3))
    (set_maxaid (maxaid e3 + List.length links) e3).

(** What the symbolic-subdivision copy makes of one source item, but for
    its previous-link: an annotation carrying [value], anchored to the
    annotation the library finds in [tier2] at [time], on a target that
    differs from [e0] by the tier being written only. *)
Definition anchored_reference (api : ref_api) (e0 : Eaf)
    (id_tier tier2 : string) (time : Z) (value : string)
    (x : string * ref_annotation) : Prop :=
  ref_value (snd x) = value
  /\ exists e,
       only_tier_changed id_tier e0 e
       /\ find_annotation api e tier2 time = Ok (ref_parent (snd x)).

(** *** Annotation identifiers *)

(** The identifiers of the annotations of a tier, of the tiers of a
    document, and of a document. *)
Definition tier_ids (t : tier) : list string :=
  dict_keys (aligned_annotations t) ++ dict_keys (reference_annotations t).

Definition tiers_ids (ts : dict tier) : list string :=
  flat_map (fun kt => tier_ids (snd kt)) ts.

Definition annotation_ids (e : Eaf) : list string := tiers_ids (tiers e).

(** No identifier names two annotations of the document, and none above
    the counter [maxaid] is in use. *)
Definition ids_fresh (e : Eaf) : Prop :=
  NoDup (annotation_ids e)
  /\ forall k, maxaid e < k -> ~ In (aid_of k) (annotation_ids e).

(** *** Time slots *)

(** The time slots [_tier_copy] creates for the spans [data] on a document
    whose slot counter is [n]: two per span, its start and its end, under
    the next identifiers. *)
Fixpoint span_slots (n : nat) (data : list (Z * Z * string)) : dict Z :=
  match data with
  | [] => []
  | (s, f, _) :: data' =>
      (tsid_of (S n), s) :: (tsid_of (S (S n)), f)
        :: span_slots (S (S n)) data'
  end.

(** No time-slot identifier above the counter [maxts] is in use. *)
Definition slots_fresh (e : Eaf) : Prop :=
  forall k, maxts e < k -> ~ In (tsid_of k) (dict_keys (timeslots e)).

(** ** [copy_media]

    The media descriptors of a document and [add_linked_file] belong to
    the library, and linking media is left to it: [copy_media] is given
    over any document type with these two operations.  A descriptor is a
    dictionary from attribute names to strings. *)

(** The order of Python on [(key, value)] tuples of strings. *)
Definition item_leb (x y : string * string) : bool :=
  match String.compare (fst x) (fst y) with
  | Lt => true
  | Gt => false
  | Eq => String.leb (snd x) (snd y)
  end.

Fixpoint insert_item (x : string * string) (l : list (string * string))
  : list (string * string) :=
  match l with
  | [] => [x]
  | y :: l' => if item_leb x y then x :: l else y :: insert_item x l'
  end.

(** [sorted(d.items())]: a stable sort. *)
Definition sorted (d : dict string) : list (string * string) :=
  fold_right insert_item [] d.

Section Media.

Variable Doc : Type.

(** [eaf.media_descriptors] *)
Variable media_descriptors : Doc -> list (dict string).

(** [eaf.add_linked_file(file_path, mimetype=..., relpath=...)], its
    arguments in the order [file_path], [mimetype], [relpath]. *)
Variable add_linked_file : string -> string -> string -> Doc -> result Doc.

(** [copy_media]: the first media descriptor of [eaf_1] is linked to
    [eaf_3]. *)
Definition copy_media (eaf_1 eaf_3 : Doc) : result Doc :=
  let media := media_descriptors eaf_1 in
  media_0 <- match media with
             | [] => Raise IndexError
             | d :: _ => Ok d
             end ;;
  let media_params := sorted media_0 in
  match map snd media_params with
  | [file_path; mimetype; relpath] =>
      add_linked_file file_path mimetype relpath eaf_3
  | _ => Raise ValueError
  end.

End Media.

Module SampleRuns.

(** The store once the utterance ids are copied and the type [Blank] is
    declared. *)
Definition before_utterance_copy : store :=
  Eval vm_compute in
    match
      (t <- remove_tier "default" (deref Sample.loaded eaf_3) ;;
       h <- _tier_copy Sample.api eaf_2 eaf_3 utterance_id_source_tier
              utterance_id_target_tier utterance_id_tier_params
              (update Sample.loaded eaf_3 t) ;;
       Ok (update h eaf_3
             (add_linguistic_type "Blank" blank_type_params
                (deref h eaf_3))))
    with
    | Ok h => h
    | Raise _ => Sample.loaded
    end.

(** The store once the utterances are copied as well. *)
Definition before_translation_copy : store :=
  Eval vm_compute in
    match
      _tier_copy_to_ref Sample.api eaf_1 eaf_3 utterance_source_tier
        utterance_target_tier utterance_id_target_tier
        utterance_tier_params before_utterance_copy
    with
    | Ok h => h
    | Raise _ => Sample.loaded
    end.

(** The sample documents, the first utterance of the second one having no
    length. *)
Definition zero_length_source : store :=
  update Sample.loaded eaf_2
    (set_timeslots
       [("ts1", 0%Z); ("ts2", 0%Z); ("ts3", 1000%Z); ("ts4", 4000%Z)]
       Sample.file_2).

(** The dictionary the aggregation builds from the second sample
    document, and the same pairs under other timings. *)
Definition sample_dict : dict word_gloss_list :=
  Eval vm_compute in
    match aggregate Sample.file_2 with
    | Ok d => d
    | Raise _ => []
    end.

Definition sample_dict_retimed : dict word_gloss_list :=
  map (fun item =>
         (fst item,
          mk_word_gloss_list 0 1 (items_from_2 (snd item))))
      sample_dict.

(** A document with its media descriptors, and a library that appends the
    descriptor of the linked file. *)
Definition linked_document : Type := (Eaf * list (dict string))%type.

Definition link_file (file_path mimetype relpath : string)
    (d : linked_document) : result linked_document :=
  Ok (fst d,
      snd d ++ [[("MEDIA_URL", file_path); ("MIME_TYPE", mimetype);
                 ("RELATIVE_MEDIA_URL", relpath)]]).

Definition sample_media : dict string :=
  [("RELATIVE_MEDIA_URL", "./story.wav"); ("MEDIA_URL", "file:///story.wav");
   ("MIME_TYPE", "audio/x-wav")].

End SampleRuns.

(** * Properties *)

(** ** Python runtime *)

Section PyFacts.

Context {V : Type}.

Lemma dict_get_set_same (k : string) (v : V) (d : dict V) :
  dict_get k (dict_set k v d) = Some v.
Proof.
  induction d as [| [k' v'] d IH]; simpl.
  - now rewrite String.eqb_refl.
  - destruct (String.eqb k k') eqn:E; simpl; rewrite ?E, ?String.eqb_refl; auto.
Qed.

Lemma dict_get_set_other (k k' : string) (v : V) (d : dict V) :
  k <> k' -> dict_get k' (dict_set k v d) = dict_get k' d.
Proof.
  intros Hne. induction d as [| [k0 v0] d IH]; simpl.
  - destruct (String.eqb_spec k' k); congruence.
  - destruct (String.eqb_spec k k0) as [-> | Hk]; simpl.
    + destruct (String.eqb_spec k' k0); congruence.
    + destruct (String.eqb_spec k' k0); auto.
Qed.

(** Assigning to an absent key appends the item. *)
Lemma dict_set_fresh (k : string) (v : V) (d : dict V) :
  ~ In k (dict_keys d) -> dict_set k v d = d ++ [(k, v)].
Proof.
  induction d as [| [k' v'] d IH]; simpl; intros Hn; [ reflexivity | ].
  destruct (String.eqb_spec k k') as [-> | Hk]; [ tauto | ].
  rewrite IH by tauto. reflexivity.
Qed.

Lemma dict_mem_set (k k' : string) (v : V) (d : dict V) :
  dict_mem k' d = true -> dict_mem k' (dict_set k v d) = true.
Proof.
  unfold dict_mem. intros H. destruct (String.eqb_spec k k') as [-> | Hk].
  - now rewrite dict_get_set_same.
  - now rewrite dict_get_set_other.
Qed.

Lemma subscript_Ok (d : dict V) (k : string) (v : V) :
  subscript d k = Ok v <-> dict_get k d = Some v.
Proof.
  unfold subscript. destruct (dict_get k d); split; congruence.
Qed.

Lemma dict_mem_subscript (d : dict V) (k : string) :
  dict_mem k d = true -> exists v, subscript d k = Ok v.
Proof.
  unfold dict_mem, subscript. destruct (dict_get k d); [ eauto | discriminate ].
Qed.

End PyFacts.

Lemma format_d_inj (n m : nat) : format_d n = format_d m -> n = m.
Proof.
  unfold format_d. intros H.
  apply (f_equal NilEmpty.uint_of_string) in H.
  rewrite !NilEmpty.usu in H. injection H as H.
  apply (f_equal Nat.of_uint) in H.
  now rewrite !DecimalNat.Unsigned.of_to in H.
Qed.

Lemma aid_of_inj (n m : nat) : aid_of n = aid_of m -> n = m.
Proof.
  unfold aid_of. simpl. intros H. injection H as H. now apply format_d_inj.
Qed.

Lemma tsid_of_inj (n m : nat) : tsid_of n = tsid_of m -> n = m.
Proof.
  unfold tsid_of. simpl. intros H. injection H as H. now apply format_d_inj.
Qed.

Section LoopFacts.

Context {A S : Type}.

Lemma for_each_app (body : S -> A -> result S) (xs ys : list A) (s : S) :
  for_each body (xs ++ ys) s = bind (for_each body xs s) (for_each body ys).
Proof.
  revert s. induction xs as [| x xs IH]; intros s; simpl; [ reflexivity | ].
  destruct (body s x); simpl; auto.
Qed.

(** A property kept by every iteration that returns is kept by the loop. *)
Lemma for_each_invariant (P : S -> Prop) (body : S -> A -> result S) :
  (forall s x s', P s -> body s x = Ok s' -> P s') ->
  forall xs s s', P s -> for_each body xs s = Ok s' -> P s'.
Proof.
  intros Hstep. induction xs as [| x xs IH]; simpl; intros s s' HP H.
  - now inversion H; subst.
  - destruct (body s x) as [s1 |] eqn:E; simpl in H; [ | discriminate ].
    eapply IH; [ eapply Hstep; eauto | exact H ].
Qed.

(** A loop whose body cannot raise under an invariant returns. *)
Lemma for_each_total (P : S -> Prop) (body : S -> A -> result S) :
  (forall s x, P s -> exists s', body s x = Ok s' /\ P s') ->
  forall xs s, P s -> exists s', for_each body xs s = Ok s' /\ P s'.
Proof.
  intros Hstep. induction xs as [| x xs IH]; simpl; intros s HP.
  - eauto.
  - destruct (Hstep s x HP) as [s1 [E HP1]]. rewrite E. simpl. auto.
Qed.

End LoopFacts.

Lemma bind_Ok {A B : Type} (c : result A) (k : A -> result B) (b : B) :
  bind c k = Ok b -> exists a, c = Ok a /\ k a = Ok b.
Proof. destruct c; simpl; [ eauto | discriminate ]. Qed.

(** Decompose a hypothesis [x <- c ;; k = Ok r]. *)
Ltac bind_inv H :=
  let a := fresh "a" in
  let E := fresh "E" in
  apply bind_Ok in H; destruct H as [a [E H]].

Tactic Notation "bind_inv_as" hyp(H) ident(a) ident(E) :=
  apply bind_Ok in H; destruct H as [a [E H]].

(** *** [int(a / b)] *)

Section TrueDivision.

Local Open Scope Z_scope.

Lemma float_exponent_lower (a b : Z) :
  0 < a -> 0 < b -> 2 ^ 52 <= scaled_floor a b (float_exponent a b).
Proof.
  intros Ha Hb. unfold float_exponent.
  destruct (Z.ltb_spec (scaled_floor a b (Z.log2 a - Z.log2 b - 52)) (2 ^ 52))
    as [_ | Hge]; [ | exact Hge ].
  destruct (Z.log2_spec a Ha) as [HA _].
  destruct (Z.log2_spec b Hb) as [_ HB].
  pose proof (Z.log2_nonneg a) as Hla. pose proof (Z.log2_nonneg b) as Hlb.
  set (la := Z.log2 a) in *. set (lb := Z.log2 b) in *.
  unfold scaled_floor.
  destruct (Z.leb_spec 0 (la - lb - 52 - 1)) as [He | He].
  - apply Z.div_le_lower_bound.
    + apply Z.mul_pos_pos; [ exact Hb | apply Z.pow_pos_nonneg; lia ].
    + replace la with (Z.succ lb + (52 + (la - lb - 52 - 1))) in HA by lia.
      rewrite !Z.pow_add_r in HA by lia.
      assert (0 < 2 ^ (la - lb - 52 - 1)) by (apply Z.pow_pos_nonneg; lia).
      nia.
  - apply Z.div_le_lower_bound; [ exact Hb | ].
    assert (Hp : 2 ^ la * 2 ^ (- (la - lb - 52 - 1)) = 2 ^ Z.succ lb * 2 ^ 52).
    { rewrite <- !Z.pow_add_r by lia. f_equal. lia. }
    assert (0 < 2 ^ (- (la - lb - 52 - 1))) by (apply Z.pow_pos_nonneg; lia).
    nia.
Qed.

Lemma round_half_even_cases (num den : Z) :
  round_half_even num den = num / den \/
  (round_half_even num den = num / den + 1 /\ den <= 2 * (num mod den)).
Proof.
  unfold round_half_even.
  destruct (Z.gtb_spec (2 * (num mod den)) den) as [Hgt | Hle]; cbn [orb andb].
  - right. split; [ reflexivity | lia ].
  - destruct (Z.eqb_spec (2 * (num mod den)) den) as [Heq | Hne]; cbn [orb andb].
    + destruct (Z.odd (num / den));
        [ right; split; [ reflexivity | lia ] | left; reflexivity ].
    + left; reflexivity.
Qed.

(** Below [2^53] the rounding of the quotient never reaches the next
    integer: the truncated float is the floor of the quotient. *)
Lemma truediv_trunc_exact (a b : Z) :
  0 < a < 2 ^ 53 -> 0 < b -> truediv_trunc a b = Ok (a / b).
Proof.
  intros [Ha Ha53] Hb. unfold truediv_trunc.
  destruct (Z.eqb_spec a 0) as [-> | _]; [ lia | ].
  pose proof (float_exponent_lower a b Ha Hb) as Hlow.
  set (e := float_exponent a b) in *.
  unfold scaled_floor in Hlow.
  destruct (Z.leb_spec 0 e) as [He | He].
  - (* a quotient of 53 bits: [b = 1] and [e = 0] *)
    assert (Hpe : 0 < 2 ^ e) by (apply Z.pow_pos_nonneg; lia).
    assert (Hden : 0 < b * 2 ^ e) by (apply Z.mul_pos_pos; assumption).
    assert (Hmul : 2 ^ 52 * (b * 2 ^ e) <= a).
    { pose proof (Z.mul_div_le a (b * 2 ^ e) Hden). nia. }
    assert (He0 : e = 0).
    { destruct (Z.eq_dec e 0) as [E | E]; [ exact E | exfalso ].
      assert (2 ^ 1 <= 2 ^ e) by (apply Z.pow_le_mono_r; lia).
      change (2 ^ 1) with 2 in *. change (2 ^ 53) with (2 ^ 52 * 2) in Ha53.
      nia. }
    rewrite He0 in *. change (2 ^ 0) with 1 in *. rewrite Z.mul_1_r in *.
    assert (Hb1 : b = 1).
    { change (2 ^ 53) with (2 ^ 52 * 2) in Ha53. nia. }
    subst b. unfold round_half_even. rewrite Z.mod_1_r, Z.div_1_r.
    cbn [Z.mul Z.gtb Z.eqb Z.compare Pos.compare Pos.compare_cont orb andb].
    rewrite Z.div_1_r.
    destruct (Z.leb_spec (2 ^ 1024) a) as [Hbig | _]; [ | reflexivity ].
    exfalso. assert (2 ^ 53 <= 2 ^ 1024) by (apply Z.pow_le_mono_r; lia). lia.
  - set (k := - e) in *.
    assert (Hk : 0 < k) by (unfold k; lia).
    assert (HP : 0 < 2 ^ k) by (apply Z.pow_pos_nonneg; lia).
    set (P := 2 ^ k) in *.
    assert (Hfloor : a * P / b / P = a / b).
    { rewrite Z.div_div by lia. rewrite Z.div_mul_cancel_r by lia. reflexivity. }
    f_equal.
    destruct (round_half_even_cases (a * P) b) as [-> | [-> Hup]];
      [ exact Hfloor | ].
    rewrite <- Hfloor.
    pose proof (Z.div_mod (a * P) b ltac:(lia)) as HN.
    pose proof (Z.mod_pos_bound (a * P) b Hb) as Hr.
    set (m := a * P / b) in *. set (r := (a * P) mod b) in *.
    pose proof (Z.div_mod m P ltac:(lia)) as Hm.
    pose proof (Z.mod_pos_bound m P HP) as Hs.
    set (q := m / P) in *. set (s := m mod P) in *.
    destruct (Z.eq_dec (s + 1) P) as [Hfull | Hnot].
    + exfalso.
      assert (Hj : m + 1 = (q + 1) * P) by nia.
      assert (Haj : a + 1 <= b * (q + 1)).
      { assert (a * P < b * (q + 1) * P) by nia.
        assert (a < b * (q + 1)) by nia. lia. }
      assert (Hb2 : 2 * P <= b) by nia.
      change (2 ^ 53) with (2 ^ 52 * 2) in Ha53.
      assert (2 ^ 52 * (2 * P) <= a * P) by nia.
      nia.
    + symmetry. apply Z.div_unique with (r := s + 1); [ lia | lia ].
Qed.

Lemma int_truediv_exact (a b : Z) :
  0 <= a < 2 ^ 53 -> 0 < b -> int_truediv a b = Ok (a / b).
Proof.
  intros [Ha Ha53] Hb. unfold int_truediv.
  destruct (Z.eqb_spec b 0) as [-> | _]; [ lia | ].
  rewrite (Z.abs_eq a), (Z.abs_eq b) by lia.
  destruct (Z.eq_dec a 0) as [-> | Hne].
  - reflexivity.
  - rewrite truediv_trunc_exact by lia. simpl.
    rewrite (Z.sgn_pos a), (Z.sgn_pos b) by lia. f_equal. lia.
Qed.

End TrueDivision.

(** ** Gloss aggregation: words, morphs and glosses *)

Section Aggregation.

Lemma fold_left_collect {A B : Type} (p : A -> bool) (f : A -> B)
    (xs : list A) (acc : list B) :
  fold_left (fun acc x => if p x then acc ++ [f x] else acc) xs acc
  = acc ++ map f (filter p xs).
Proof.
  revert acc. induction xs as [| x xs IH]; intros acc; simpl.
  - now rewrite app_nil_r.
  - rewrite IH. destruct (p x); simpl; [ now rewrite <- app_assoc | reflexivity ].
Qed.

Lemma fold_left_ext {A B : Type} (f g : B -> A -> B) (xs : list A) (acc : B) :
  (forall b a, f b a = g b a) -> fold_left f xs acc = fold_left g xs acc.
Proof.
  intros H. revert acc. induction xs as [| x xs IH]; intros acc; simpl;
    [ reflexivity | now rewrite H, IH ].
Qed.

(** The innermost loop appends the values of the glosses of one morph. *)
Lemma gloss_loop (gloss_tier : dict ref_annotation) (morph_id : string)
    (glosses : list string) :
  fold_left
    (fun glosses gloss_item =>
       match gloss_item with
       | (_, (gloss_0, gloss_1, _, _)) =>
           if String.eqb gloss_0 morph_id then glosses ++ [gloss_1] else glosses
       end)
    gloss_tier glosses
  = glosses ++ map (fun g => ref_value (snd g)) (glosses_of gloss_tier morph_id).
Proof.
  unfold glosses_of. rewrite <- fold_left_collect. apply fold_left_ext.
  intros b [k [[[g0 g1] g2] g3]]. reflexivity.
Qed.

(** The loop over the morphs appends, for each morph of the word, the values
    of its glosses. *)
Lemma morph_loop (morph_tier gloss_tier : dict ref_annotation)
    (word_id : string) (acc : list string) :
  fold_left
    (fun glosses morph_item =>
       match morph_item with
       | (morph_id, (morph_0, _, _, _)) =>
           if String.eqb morph_0 word_id then
             fold_left
               (fun glosses gloss_item =>
                  match gloss_item with
                  | (_, (gloss_0, gloss_1, _, _)) =>
                      if String.eqb gloss_0 morph_id
                      then glosses ++ [gloss_1] else glosses
                  end)
               gloss_tier glosses
           else glosses
       end)
    morph_tier acc
  = acc ++ morph_gloss_values morph_tier gloss_tier word_id.
Proof.
  unfold morph_gloss_values, morphs_of. revert acc.
  induction morph_tier as [| [morph_id [[[m0 m1] m2] m3]] ms IH]; intros acc.
  - simpl. now rewrite app_nil_r.
  - cbn [fold_left filter snd ref_parent].
    destruct (String.eqb m0 word_id).
    + rewrite gloss_loop, IH. cbn [flat_map fst]. now rewrite app_assoc.
    + apply IH.
Qed.

Lemma collect_glosses_spec (morph_tier gloss_tier : dict ref_annotation)
    (word_id : string) :
  collect_glosses morph_tier gloss_tier word_id
  = morph_gloss_values morph_tier gloss_tier word_id.
Proof. unfold collect_glosses. now rewrite morph_loop. Qed.

Lemma collect_word_gloss_spec (word_tier morph_tier gloss_tier
    : dict ref_annotation) (utterance_id : string) :
  collect_word_gloss word_tier morph_tier gloss_tier utterance_id
  = map (fun w => (ref_value (snd w),
                   str_join "-"
                     (morph_gloss_values morph_tier gloss_tier (fst w))))
        (words_of word_tier utterance_id).
Proof.
  unfold collect_word_gloss, words_of.
  rewrite <- (app_nil_l (map _ _)). rewrite <- fold_left_collect.
  apply fold_left_ext. intros b [k [[[w0 w1] w2] w3]].
  cbn [snd fst ref_parent ref_value]. now rewrite collect_glosses_spec.
Qed.

End Aggregation.

(** C3.  The composite gloss of every word the aggregator processes is the
    gloss values of its morphs, in source morph order, joined with ["-"];
    a word without morphs gets the empty string. *)
Theorem gloss_concatenation (word_tier morph_tier gloss_tier
    : dict ref_annotation) (utterance_id : string) :
  collect_word_gloss word_tier morph_tier gloss_tier utterance_id
  = map (fun w => (ref_value (snd w),
                   str_join "-"
                     (morph_gloss_values morph_tier gloss_tier (fst w))))
        (words_of word_tier utterance_id)
  /\ (forall word_id,
        morphs_of morph_tier word_id = [] ->
        str_join "-" (collect_glosses morph_tier gloss_tier word_id) = "").
Proof.
  split.
  - apply collect_word_gloss_spec.
  - intros word_id Hnone. rewrite collect_glosses_spec.
    unfold morph_gloss_values. rewrite Hnone. reflexivity.
Qed.

(** ** The store: what a procedure leaves untouched *)

Section Frames.

Variable api : ref_api.

Lemma deref_update_same (h : store) (r : ref) (e : Eaf) :
  deref (update h r e) r = e.
Proof. destruct r; reflexivity. Qed.

Lemma deref_update_other (h : store) (r r' : ref) (e : Eaf) :
  r' <> r -> deref (update h r e) r' = deref h r'.
Proof. destruct r, r'; simpl; congruence. Qed.

Lemma same_but_refl (r : ref) (h : store) : same_but r h h.
Proof. intros r' _. reflexivity. Qed.

Lemma same_but_update (r : ref) (h h' : store) (e : Eaf) :
  same_but r h h' -> same_but r h (update h' r e).
Proof.
  intros H r' Hne. rewrite deref_update_other by exact Hne. now apply H.
Qed.

Lemma same_but_trans (r : ref) (h1 h2 h3 : store) :
  same_but r h1 h2 -> same_but r h2 h3 -> same_but r h1 h3.
Proof. intros H12 H23 r' Hne. rewrite H23, H12; auto. Qed.

(** A loop whose iterations only assign to the object [r] leaves the others
    as they were. *)
Lemma for_each_frame {A : Type} (r : ref) (body : store -> A -> result store) :
  (forall s x s', body s x = Ok s' -> same_but r s s') ->
  forall xs h h', for_each body xs h = Ok h' -> same_but r h h'.
Proof.
  intros Hbody xs h h' H.
  apply (for_each_invariant (same_but r h) body) with (xs := xs) (s := h);
    [ | apply same_but_refl | exact H ].
  intros s x s' Hs Hb. eapply same_but_trans; eauto.
Qed.

Lemma _tier_copy_frame (source_eaf target_eaf : ref)
    (source_tier_name target_tier_name : string) (override_params : attrs)
    (h h' : store) :
  _tier_copy api source_eaf target_eaf source_tier_name target_tier_name
    override_params h = Ok h' ->
  same_but target_eaf h h'.
Proof.
  unfold _tier_copy. intros H. do 4 bind_inv H.
  eapply same_but_trans; [ apply same_but_update, same_but_refl | ].
  eapply for_each_frame; [ | exact H ].
  intros s [[x0 x1] x2] s' Hb. bind_inv Hb. inversion Hb; subst.
  apply same_but_update, same_but_refl.
Qed.

Lemma _ref_tier_copy_frame (source_eaf target_eaf : ref)
    (source_tier_name target_tier_name target_parent_tier_name : string)
    (override_params : attrs) (h h' : store) :
  _ref_tier_copy api source_eaf target_eaf source_tier_name target_tier_name
    target_parent_tier_name override_params h = Ok h' ->
  same_but target_eaf h h'.
Proof.
  unfold _ref_tier_copy. intros H. do 4 bind_inv H.
  eapply same_but_trans; [ apply same_but_update, same_but_refl | ].
  eapply for_each_frame; [ | exact H ].
  intros s [[[x0 x1] x2] x3] s' Hb. bind_inv Hb. inversion Hb; subst.
  apply same_but_update, same_but_refl.
Qed.

Lemma _tier_copy_to_ref_frame (source_eaf target_eaf : ref)
    (source_tier_name target_tier_name target_parent_tier_name : string)
    (override_params : attrs) (h h' : store) :
  _tier_copy_to_ref api source_eaf target_eaf source_tier_name
    target_tier_name target_parent_tier_name override_params h = Ok h' ->
  same_but target_eaf h h'.
Proof.
  unfold _tier_copy_to_ref. intros H. do 4 bind_inv H.
  eapply same_but_trans; [ apply same_but_update, same_but_refl | ].
  eapply for_each_frame; [ | exact H ].
  intros s [[x0 x1] x2] s' Hb. bind_inv Hb. inversion Hb; subst.
  apply same_but_update, same_but_refl.
Qed.

Lemma _copy_symbolic_subdivision_tier_frame (source_eaf target_eaf : ref)
    (source_tier_name target_tier_name target_parent_tier_name : string)
    (override_params : attrs) (h h' : store) :
  _copy_symbolic_subdivision_tier api source_eaf target_eaf source_tier_name
    target_tier_name target_parent_tier_name override_params h = Ok h' ->
  same_but target_eaf h h'.
Proof.
  unfold _copy_symbolic_subdivision_tier. intros H. do 5 bind_inv H.
  inversion H; subst; clear H.
  eapply same_but_trans; [ apply same_but_update, same_but_refl | ].
  apply (for_each_invariant
           (fun s => same_but target_eaf (update h target_eaf a1)
                       (chain_store s))
           (chain_step api target_eaf target_tier_name
              target_parent_tier_name))
    with (xs := a2) (s := mk_chain_state (update h target_eaf a1) None None);
    [ | apply same_but_refl | exact E3 ].
  intros s [[[x0 x1] x2] x3] s' Hs Hb. unfold chain_step in Hb.
  bind_inv Hb. inversion Hb; subst. simpl.
  now apply same_but_update.
Qed.

Lemma copy_tiers_frame (h h' : store) :
  copy_tiers api h = Ok h' -> same_but eaf_3 h h'.
Proof.
  unfold copy_tiers. intros H. do 4 bind_inv H.
  eapply same_but_trans;
    [ | eapply _copy_symbolic_subdivision_tier_frame; exact H ].
  apply same_but_update.
  eapply same_but_trans; [ | eapply _ref_tier_copy_frame; eassumption ].
  eapply same_but_trans; [ | eapply _tier_copy_to_ref_frame; eassumption ].
  apply same_but_update.
  eapply same_but_trans; [ | eapply _tier_copy_frame; eassumption ].
  apply same_but_update, same_but_refl.
Qed.

Lemma main_from_frame (h h' : store) :
  main_from api h = Ok h' -> same_but eaf_3 h h'.
Proof.
  unfold main_from. intros H. do 3 bind_inv H. injection H as <-.
  change (same_but eaf_3 h (update a eaf_3 a1)).
  apply same_but_update. now apply copy_tiers_frame.
Qed.

End Frames.

(** C9.  No operation of the merge mutates a source document: each of the
    four copy procedures leaves every document object other than its target
    as it was (tiers, annotations, linguistic types and time slots
    included), and after [main] the two source documents are the ones that
    were loaded; only the target object changes. *)
Theorem sources_not_mutated (api : ref_api) :
  (forall src tgt s t p h h',
      _tier_copy api src tgt s t p h = Ok h' ->
      forall r, r <> tgt -> deref h' r = deref h r)
  /\ (forall src tgt s t q p h h',
        _tier_copy_to_ref api src tgt s t q p h = Ok h' ->
        forall r, r <> tgt -> deref h' r = deref h r)
  /\ (forall src tgt s t q p h h',
        _ref_tier_copy api src tgt s t q p h = Ok h' ->
        forall r, r <> tgt -> deref h' r = deref h r)
  /\ (forall src tgt s t q p h h',
        _copy_symbolic_subdivision_tier api src tgt s t q p h = Ok h' ->
        forall r, r <> tgt -> deref h' r = deref h r)
  /\ (forall author date file_1 file_2 h',
        main api author date file_1 file_2 = Ok h' ->
        obj_1 h' = file_1 /\ obj_2 h' = file_2).
Proof.
  repeat split.
  - intros. eapply _tier_copy_frame; eauto.
  - intros. eapply _tier_copy_to_ref_frame; eauto.
  - intros. eapply _ref_tier_copy_frame; eauto.
  - intros. eapply _copy_symbolic_subdivision_tier_frame; eauto.
  - apply main_from_frame in H. apply (H eaf_1). discriminate.
  - apply main_from_frame in H. apply (H eaf_2). discriminate.
Qed.

(** ** Gloss emission *)

Section Emission.

Lemma dict_set_set {V : Type} (k : string) (v v' : V) (d : dict V) :
  dict_set k v (dict_set k v' d) = dict_set k v d.
Proof.
  induction d as [| [k0 v0] d IH]; simpl.
  - now rewrite String.eqb_refl.
  - destruct (String.eqb k k0) eqn:E; simpl; rewrite ?E, ?String.eqb_refl;
      [ reflexivity | now rewrite IH ].
Qed.

Lemma dict_set_get_id {V : Type} (k : string) (v : V) (d : dict V) :
  dict_get k d = Some v -> dict_set k v d = d.
Proof.
  induction d as [| [k0 v0] d IH]; simpl; [ discriminate | ].
  destruct (String.eqb_spec k k0) as [-> | Hk]; intros H.
  - now injection H as ->.
  - now rewrite IH.
Qed.

Lemma put_ref_Ok (id_tier aid : string) (a : ref_annotation) (e : Eaf)
    (t : tier) :
  dict_get id_tier (tiers e) = Some t ->
  put_ref id_tier aid a e
  = Ok (set_tiers
          (dict_set id_tier
             (mk_tier (aligned_annotations t)
                      (dict_set aid a (reference_annotations t))
                      (attributes t) (ordinal t))
             (tiers e)) e).
Proof. intros H. unfold put_ref, subscript. now rewrite H. Qed.

(** The emission works on any target that holds the word tier and the
    gloss tier, and leaves both in place. *)
Lemma match_step_ready (ann : string * string) (e3 : Eaf)
    (item : string * ref_annotation) :
  emit_ready e3 -> exists e3', match_step ann e3 item = Ok e3' /\ emit_ready e3'.
Proof.
  intros [Hw Hg]. destruct item as [aid [[[r v] p] s]]. unfold match_step.
  destruct (String.eqb (fst ann) v);
    [ | exists e3; split; [ reflexivity | split; assumption ] ].
  unfold generate_annotation_id.
  destruct (dict_mem_subscript _ _ Hg) as [tg Htg].
  apply subscript_Ok in Htg.
  rewrite (put_ref_Ok _ _ _ _ tg) by exact Htg.
  eexists; split; [ reflexivity | ].
  split; simpl; apply dict_mem_set; assumption.
Qed.

Lemma emit_matches_ready (ann : string * string) (e3 : Eaf) :
  emit_ready e3 -> exists e3', emit_matches ann e3 = Ok e3' /\ emit_ready e3'.
Proof.
  intros Hr. unfold emit_matches.
  destruct (dict_mem_subscript _ _ (proj1 Hr)) as [t2 Ht2]. rewrite Ht2. simpl.
  apply (for_each_total emit_ready); [ | exact Hr ].
  intros s x Hs. now apply match_step_ready.
Qed.

(** The loop over the words of one utterance: every word is emitted, and
    [word_start] takes the values [utt_start + word_dur * count]. *)
Lemma emit_words_spec (utt_start word_dur : Z) (pairs : list (string * string)) :
  forall s, emit_ready (emit_eaf s) ->
  exists e3',
    emit_ready e3'
    /\ for_each (emit_word utt_start word_dur) pairs s
       = Ok (mk_emit_state e3'
               (count s + Z.of_nat (List.length pairs))%Z
               (word_starts s ++
                  map (fun i => (utt_start
                                 + word_dur * (count s + Z.of_nat i))%Z)
                      (seq 0 (List.length pairs)))).
Proof.
  induction pairs as [| ann pairs IH]; intros s Hs.
  - exists (emit_eaf s). split; [ exact Hs | ]. simpl.
    rewrite Z.add_0_r, app_nil_r. now destruct s.
  - destruct (emit_matches_ready ann _ Hs) as [e1 [E1 H1]].
    cbn [for_each]. unfold emit_word at 1. rewrite E1. cbn [bind].
    destruct (IH (mk_emit_state e1 (count s + 1)%Z
                    (word_starts s ++ [(utt_start + word_dur * count s)%Z]))
                 H1) as [e3' [H3 E3]].
    exists e3'. split; [ exact H3 | ]. rewrite E3. cbn [count word_starts].
    f_equal. f_equal.
    + cbn [List.length]. lia.
    + rewrite <- app_assoc. f_equal. cbn [List.length seq map app].
      f_equal; [ f_equal; lia | ].
      rewrite <- seq_shift, map_map. apply map_ext. intros i. f_equal. lia.
Qed.

Lemma emit_utterance_spec (e3 : Eaf) (annotation : word_gloss_list) :
  emit_ready e3 ->
  exists e3',
    emit_ready e3'
    /\ emit_utterance e3 annotation
       = Ok (e3',
             map (fun i => (item_0 annotation
                            + item_1 annotation * Z.of_nat i)%Z)
                 (seq 0 (List.length (items_from_2 annotation)))).
Proof.
  intros Hr. unfold emit_utterance.
  destruct (emit_words_spec (item_0 annotation) (item_1 annotation)
              (items_from_2 annotation) (mk_emit_state e3 0%Z []) Hr)
    as [e3' [H3 E3]].
  exists e3'. split; [ exact H3 | ]. rewrite E3. reflexivity.
Qed.

Lemma add_tier_gloss_ready (e3 e3' : Eaf) (ling parent : option string)
    (d : option attrs) :
  dict_mem word_target_tier (tiers e3) = true ->
  add_tier gloss_target_tier ling parent d e3 = Ok e3' ->
  emit_ready e3'.
Proof.
  unfold add_tier. cbn [String.eqb gloss_target_tier].
  intros Hw H. bind_inv H. injection H as <-. split; simpl.
  - now apply dict_mem_set.
  - unfold dict_mem. now rewrite dict_get_set_same.
Qed.

Lemma add_tier_total (tier_id : string) (ling parent : option string)
    (d : option attrs) (e : Eaf) :
  tier_id <> "" -> linguistic_types e <> [] ->
  exists e', add_tier tier_id ling parent d e = Ok e'.
Proof.
  intros Hid Hl. unfold add_tier.
  destruct (String.eqb_spec tier_id ""); [ contradiction | ].
  destruct (match ling with
            | Some l => dict_mem l (linguistic_types e)
            | None => false
            end); simpl; [ eauto | ].
  destruct (linguistic_types e) as [| [k v] l]; [ contradiction | ].
  simpl. eauto.
Qed.

Lemma emit_total (new_dict : dict word_gloss_list) (e3 : Eaf) :
  dict_mem word_target_tier (tiers e3) = true ->
  linguistic_types e3 <> [] ->
  exists e3', emit new_dict e3 = Ok e3' /\ emit_ready e3'.
Proof.
  intros Hw Hl. unfold emit.
  destruct (add_tier_total gloss_target_tier (Some "Blank")
              (Some word_target_tier) (Some gloss_tier_params) e3)
    as [e1 E1]; [ discriminate | exact Hl | ].
  rewrite E1. cbn [bind].
  apply (for_each_total emit_ready);
    [ | eapply add_tier_gloss_ready; eauto ].
  intros s x Hs.
  destruct (emit_utterance_spec s (snd x) Hs) as [e' [H' E']].
  exists e'. rewrite E'. auto.
Qed.

End Emission.

(** ** Duration synthesis *)

(** C1 (amended).  For an utterance with time span [S, E) shorter than
    [2^53] and [n > 0] words, the aggregator records the word duration
    [floor ((E - S) / n)], and the emission loop gives the [i]-th word
    (0-indexed) the start [S + floor ((E - S) / n) * i]; the first word
    starts at [S]. *)
Theorem duration_synthesis (eaf_2_timeslots : dict Z)
    (word_tier morph_tier gloss_tier : dict ref_annotation)
    (new_dict : dict word_gloss_list)
    (utterance_id slot_0 slot_1 value : string) (svg : option string)
    (S E : Z) (e3 : Eaf) :
  let word_gloss :=
    collect_word_gloss word_tier morph_tier gloss_tier utterance_id in
  let n := Z.of_nat (List.length word_gloss) in
  let word_dur := ((E - S) / n)%Z in
  dict_get slot_0 eaf_2_timeslots = Some S ->
  dict_get slot_1 eaf_2_timeslots = Some E ->
  (S <= E)%Z -> (E - S < 2 ^ 53)%Z -> (0 < n)%Z ->
  emit_ready e3 ->
  aggregate_step eaf_2_timeslots word_tier morph_tier gloss_tier new_dict
    (utterance_id, (slot_0, slot_1, value, svg))
  = Ok (dict_set utterance_id (mk_word_gloss_list S word_dur word_gloss)
          new_dict)
  /\ exists e3' starts,
       emit_utterance e3 (mk_word_gloss_list S word_dur word_gloss)
       = Ok (e3', starts)
       /\ List.length starts = List.length word_gloss
       /\ (forall i, i < List.length word_gloss ->
             nth_error starts i = Some (S + word_dur * Z.of_nat i)%Z)
       /\ nth_error starts 0 = Some S.
Proof.
  intros word_gloss n word_dur H0 H1 HSE Hbound Hn Hready. split.
  - unfold aggregate_step, subscript. rewrite H0, H1. cbn [bind].
    fold word_gloss. fold n.
    rewrite int_truediv_exact by lia. reflexivity.
  - destruct (emit_utterance_spec e3
                (mk_word_gloss_list S word_dur word_gloss) Hready)
      as [e3' [_ E3]].
    cbn [item_0 item_1 items_from_2] in E3.
    exists e3'. eexists. split; [ exact E3 | ].
    assert (Hnth : forall i, i < List.length word_gloss ->
              nth_error
                (map (fun i => (S + word_dur * Z.of_nat i)%Z)
                     (seq 0 (List.length word_gloss))) i
              = Some (S + word_dur * Z.of_nat i)%Z).
    { intros i Hi. rewrite nth_error_map, nth_error_seq.
      destruct (Nat.ltb_spec i (List.length word_gloss)); [ | lia ].
      reflexivity. }
    split; [ now rewrite length_map, length_seq | ].
    split; [ exact Hnth | ].
    rewrite Hnth by (unfold n in Hn; lia). f_equal. lia.
Qed.

(** One utterance with two words spanning [0, 2^54 - 1): the quotient
    [(2^54 - 1) / 2] is rounded to the float [2^53], one more than its
    floor. *)
Lemma duration_synthesis_counterexample :
  aggregate_step [("ts1", 0%Z); ("ts2", (2 ^ 54 - 1)%Z)]
    [("a2", ("a1", "ka", None, None)); ("a3", ("a1", "rua", Some "a2", None))]
    [] [] []
    ("a1", ("ts1", "ts2", "1", None))
  = Ok [("a1", mk_word_gloss_list 0 (2 ^ 53) [("ka", ""); ("rua", "")])]
  /\ (2 ^ 53)%Z <> ((2 ^ 54 - 1 - 0) / 2)%Z.
Proof. split; [ vm_compute; reflexivity | vm_compute; discriminate ]. Qed.

(** ** Empty groups *)

Lemma aggregate_step_empty (eaf_2_timeslots : dict Z)
    (word_tier morph_tier gloss_tier : dict ref_annotation)
    (new_dict : dict word_gloss_list)
    (utterance_id slot_0 slot_1 value : string) (svg : option string)
    (S E : Z) :
  dict_get slot_0 eaf_2_timeslots = Some S ->
  dict_get slot_1 eaf_2_timeslots = Some E ->
  words_of word_tier utterance_id = [] ->
  aggregate_step eaf_2_timeslots word_tier morph_tier gloss_tier new_dict
    (utterance_id, (slot_0, slot_1, value, svg))
  = Raise ZeroDivisionError.
Proof.
  intros H0 H1 Hw. unfold aggregate_step, subscript. rewrite H0, H1.
  cbn [bind]. rewrite collect_word_gloss_spec, Hw. reflexivity.
Qed.

(** C6.  When an utterance has no word, the duration synthesis of that
    utterance raises [ZeroDivisionError].  The merge is aborted: [main]
    returns no target document, and the exception it raises is this
    [ZeroDivisionError] as soon as the copies and the utterances before
    this one went through. *)
Theorem empty_group_error (api : ref_api) (h : store) (w m g u : tier)
    (before after : dict aligned_annotation)
    (utterance_id slot_0 slot_1 value : string) (svg : option string)
    (S E : Z) :
  let step := aggregate_step (timeslots (obj_2 h)) (reference_annotations w)
                (reference_annotations m) (reference_annotations g) in
  dict_get word_source_tier (tiers (obj_2 h)) = Some w ->
  dict_get morph_source_tier (tiers (obj_2 h)) = Some m ->
  dict_get gloss_source_tier (tiers (obj_2 h)) = Some g ->
  dict_get utterance_id_source_tier (tiers (obj_2 h)) = Some u ->
  aligned_annotations u
  = before ++ (utterance_id, (slot_0, slot_1, value, svg)) :: after ->
  dict_get slot_0 (timeslots (obj_2 h)) = Some S ->
  dict_get slot_1 (timeslots (obj_2 h)) = Some E ->
  words_of (reference_annotations w) utterance_id = [] ->
  (forall new_dict,
      step new_dict (utterance_id, (slot_0, slot_1, value, svg))
      = Raise ZeroDivisionError)
  /\ (exists e, main_from api h = Raise e)
  /\ (forall h1 new_dict,
        copy_tiers api h = Ok h1 ->
        for_each step before [] = Ok new_dict ->
        main_from api h = Raise ZeroDivisionError).
Proof.
  intros step Hw Hm Hg Hu Hsplit H0 H1 Hnone.
  assert (Hstep : forall new_dict,
             step new_dict (utterance_id, (slot_0, slot_1, value, svg))
             = Raise ZeroDivisionError)
    by (intros new_dict; now apply aggregate_step_empty with (S := S) (E := E)).
  assert (Hagg : aggregate (obj_2 h)
                 = (d <- for_each step before [] ;;
                    Raise ZeroDivisionError)).
  { unfold aggregate, subscript. rewrite Hw, Hm, Hg, Hu. cbn [bind].
    rewrite Hsplit, for_each_app. fold step.
    destruct (for_each step before []) as [d |]; cbn [bind]; [ | reflexivity ].
    cbn [for_each]. now rewrite Hstep. }
  assert (Hmain : forall h1, copy_tiers api h = Ok h1 ->
             main_from api h
             = (d <- for_each step before [] ;; Raise ZeroDivisionError)).
  { intros h1 Hcopy. unfold main_from. rewrite Hcopy. cbn [bind].
    rewrite (copy_tiers_frame api h h1 Hcopy eaf_2) by discriminate.
    change (deref h eaf_2) with (obj_2 h). rewrite Hagg.
    destruct (for_each step before []); reflexivity. }
  split; [ exact Hstep | ]. split.
  - destruct (copy_tiers api h) as [h1 | e] eqn:Hcopy.
    + rewrite (Hmain h1 eq_refl).
      destruct (for_each step before []) as [d | e]; cbn [bind]; eauto.
    + exists e. unfold main_from. now rewrite Hcopy.
  - intros h1 new_dict Hcopy Hbefore. rewrite (Hmain h1 Hcopy), Hbefore.
    reflexivity.
Qed.

(** ** Gloss emission: what is created *)

Section Candidates.

Lemma new_glosses_cons (first : nat) (gloss_value : string)
    (c : string * ref_annotation) (cs : dict ref_annotation) :
  new_glosses first gloss_value (c :: cs)
  = (aid_of first, (fst c, gloss_value, None, None))
      :: new_glosses (S first) gloss_value cs.
Proof. reflexivity. Qed.


Lemma with_glosses_nil (e3 : Eaf) (tg : tier) :
  dict_get gloss_target_tier (tiers e3) = Some tg ->
  with_glosses e3 tg [] = e3.
Proof.
  intros H. unfold with_glosses. rewrite app_nil_r.
  replace (mk_tier (aligned_annotations tg) (reference_annotations tg)
             (attributes tg) (ordinal tg)) with tg by now destruct tg.
  rewrite dict_set_get_id by exact H. cbn [List.length].
  rewrite Nat.add_0_r. now destruct e3.
Qed.

Lemma ids_below_snoc {V : Type} (n : nat) (d : dict V) (v : V) :
  ids_below n d -> ids_below (S n) (d ++ [(aid_of (S n), v)]).
Proof.
  intros H k Hk Hin. unfold dict_keys in Hin. rewrite map_app in Hin.
  apply in_app_or in Hin. destruct Hin as [Hin | [Heq | []]].
  - apply (H k); [ lia | exact Hin ].
  - simpl in Heq. apply aid_of_inj in Heq. lia.
Qed.

Lemma with_glosses_step (e3 : Eaf) (tg : tier) (x : string * ref_annotation)
    (new : dict ref_annotation) :
  with_glosses
    (set_tiers
       (dict_set gloss_target_tier
          (mk_tier (aligned_annotations tg) (reference_annotations tg ++ [x])
                   (attributes tg) (ordinal tg))
          (tiers (set_maxaid (S (maxaid e3)) e3)))
       (set_maxaid (S (maxaid e3)) e3))
    (mk_tier (aligned_annotations tg) (reference_annotations tg ++ [x])
             (attributes tg) (ordinal tg))
    new
  = with_glosses e3 tg (x :: new).
Proof.
  unfold with_glosses, set_tiers, set_maxaid.
  cbn [adocument annotations linguistic_types tiers timeslots maxaid maxts
       aligned_annotations reference_annotations attributes ordinal
       List.length].
  rewrite dict_set_set, <- app_assoc. cbn [app].
  f_equal. lia.
Qed.

(** The loop of [emit_matches] appends one annotation per candidate. *)
Lemma match_loop (ann : string * string) (items : dict ref_annotation) :
  forall (e3 : Eaf) (tg : tier),
    dict_get gloss_target_tier (tiers e3) = Some tg ->
    ids_below (maxaid e3) (reference_annotations tg) ->
    for_each (match_step ann) items e3
    = Ok (with_glosses e3 tg
            (new_glosses (S (maxaid e3)) (snd ann)
               (candidates (fst ann) items))).
Proof.
  induction items as [| [aid [[[r v] p] s]] items IH]; intros e3 tg Hg Hfresh.
  - simpl. now rewrite with_glosses_nil.
  - cbn [for_each match_step candidates filter snd ref_value].
    destruct (String.eqb (fst ann) v) eqn:Ev.
    + unfold generate_annotation_id.
      rewrite (put_ref_Ok _ _ _ _ tg) by exact Hg.
      cbn [bind].
      rewrite (dict_set_fresh (aid_of (S (maxaid e3))))
        by (apply Hfresh; lia).
      set (tg1 := mk_tier (aligned_annotations tg)
                    (reference_annotations tg
                       ++ [(aid_of (S (maxaid e3)), (aid, snd ann, None, None))])
                    (attributes tg) (ordinal tg)).
      set (e1 := set_tiers (dict_set gloss_target_tier tg1
                              (tiers (set_maxaid (S (maxaid e3)) e3)))
                   (set_maxaid (S (maxaid e3)) e3)).
      change (filter (fun w : string * ref_annotation =>
                        String.eqb (fst ann) (ref_value (snd w))) items)
        with (candidates (fst ann) items).
      transitivity (for_each (match_step ann) items e1); [ reflexivity | ].
      rewrite (IH e1 tg1).
      * f_equal. rewrite new_glosses_cons. apply with_glosses_step.
      * unfold e1. cbn [tiers set_tiers]. apply dict_get_set_same.
      * unfold e1, tg1. cbn [maxaid set_tiers set_maxaid reference_annotations].
        now apply ids_below_snoc.
    + now apply IH.
Qed.

End Candidates.


(** C5.  The emission does not detect an ambiguous match.  On a target
    whose word tier holds ["ka"] twice and ["te"] never, the word ["te"]
    (no candidate) creates nothing and the word ["ka"] (two candidates)
    creates two annotations, and neither raises an exception; and the merge
    of a second document with the text ["ka"] on two words of one
    utterance returns, each of the two words receiving both glosses
    [NEG] and [go-PST]: six gloss annotations for four words. *)
Theorem ambiguous_match_undetected :
  (candidates "te"
     (reference_annotations
        (mk_tier []
           [("a3", ("a2", "ka", None, None));
            ("a4", ("a2", "ka", Some "a3", None))]
           word_tier_params 1)) = []
   /\ emit_matches ("te", "DEM") Sample.repeated_word_target
      = Ok Sample.repeated_word_target)
  /\ (List.length
        (candidates "ka"
           (reference_annotations
              (mk_tier []
                 [("a3", ("a2", "ka", None, None));
                  ("a4", ("a2", "ka", Some "a3", None))]
                 word_tier_params 1))) = 2
      /\ exists e3',
           emit_matches ("ka", "NEG") Sample.repeated_word_target = Ok e3'
           /\ option_map reference_annotations
                (dict_get gloss_target_tier (tiers e3'))
              = Some [("a5", ("a3", "NEG", None, None));
                      ("a6", ("a4", "NEG", None, None))])
  /\ exists h,
       main Sample.api "pympi" "2019-01-03T00:00:00+10:00"
         Sample.file_1 Sample.file_2_repeated_word = Ok h
       /\ option_map reference_annotations
            (dict_get gloss_target_tier (tiers (obj_3 h)))
          = Some [("a12", ("a8", "1SG", None, None));
                  ("a13", ("a9", "NEG", None, None));
                  ("a14", ("a10", "NEG", None, None));
                  ("a15", ("a9", "go-PST", None, None));
                  ("a16", ("a10", "go-PST", None, None));
                  ("a17", ("a11", "", None, None))].
Proof.
  split; [ split; [ reflexivity | vm_compute; reflexivity ] | ].
  split; [ split; [ reflexivity | ] | ].
  - eexists. split; vm_compute; reflexivity.
  - eexists. split; vm_compute; reflexivity.
Qed.

(** ** Copy of an independent tier *)

Section IndependentCopy.

Lemma for_each_ext {A S : Type} (f g : S -> A -> result S) (xs : list A)
    (s : S) :
  (forall s x, f s x = g s x) -> for_each f xs s = for_each g xs s.
Proof.
  intros H. revert s. induction xs as [| x xs IH]; intros s; simpl;
    [ reflexivity | ].
  rewrite H. destruct (g s x); simpl; auto.
Qed.

Lemma update_deref (h : store) (r : ref) : update h r (deref h r) = h.
Proof. destruct h, r; reflexivity. Qed.

Lemma update_update (h : store) (r : ref) (e e' : Eaf) :
  update (update h r e) r e' = update h r e'.
Proof. destruct r; reflexivity. Qed.

(** A loop that passes one object of the store through [step] is the loop
    of [step] on that object. *)
Lemma for_each_on_object {A : Type} (r : ref) (step : Eaf -> A -> result Eaf)
    (xs : list A) (h : store) :
  for_each (fun h x => t <- step (deref h r) x ;; Ok (update h r t)) xs h
  = (e <- for_each step xs (deref h r) ;; Ok (update h r e)).
Proof.
  revert h. induction xs as [| x xs IH]; intros h; simpl.
  - now rewrite update_deref.
  - destruct (step (deref h r) x) as [t |]; simpl; [ | reflexivity ].
    rewrite IH, deref_update_same.
    destruct (for_each step xs t); simpl; [ | reflexivity ].
    now rewrite update_update.
Qed.

Lemma comprehension_app {A B : Type} (f : A -> result B) (xs ys : list A)
    (us vs : list B) :
  comprehension f xs = Ok us -> comprehension f ys = Ok vs ->
  comprehension f (xs ++ ys) = Ok (us ++ vs).
Proof.
  revert us. induction xs as [| x xs IH]; simpl; intros us Hx Hy.
  - now injection Hx as <-.
  - destruct (f x) as [y |]; simpl in *; [ | discriminate ].
    destruct (comprehension f xs) as [zs |]; simpl in *; [ | discriminate ].
    injection Hx as <-. now rewrite (IH zs eq_refl Hy).
Qed.

Lemma comprehension_ext_in {A B : Type} (f g : A -> result B) (xs : list A) :
  (forall x, In x xs -> f x = g x) ->
  comprehension f xs = comprehension g xs.
Proof.
  induction xs as [| x xs IH]; simpl; intros H; [ reflexivity | ].
  rewrite (H x) by now left. rewrite IH by (intros; apply H; now right).
  reflexivity.
Qed.


End IndependentCopy.

Lemma add_annotation_step (target_tier_name : string) (e : Eaf)
    (n : nat) (done : list (Z * Z * string)) (s f : Z) (v : string) :
  copying target_tier_name e n done ->
  (0 <= s < f)%Z ->
  exists e',
    add_annotation target_tier_name s f v e = Ok e'
    /\ copying target_tier_name e' (S n) (done ++ [(s, f, v)])
    /\ linguistic_types e' = linguistic_types e.
Proof.
  intros [t [Ht [Hrefs [Hlen [Hids [Hslots Hread]]]]]] Hsf.
  unfold add_annotation, subscript. rewrite Ht. cbn [bind]. rewrite Hrefs.
  cbn [truthy].
  destruct (Z.eqb_spec s f); [ lia | ].
  destruct (Z.gtb_spec s f); [ lia | ].
  unfold generate_ts_id.
  destruct (Z.ltb_spec s 0); [ lia | ].
  cbn [bind]. 
  destruct (Z.ltb_spec f 0); [ lia | ].
  cbn [bind generate_annotation_id].
  cbn [maxts set_maxts set_timeslots maxaid timeslots].
  unfold put_aligned, subscript.
  cbn [tiers set_annotations set_maxaid set_timeslots set_maxts].
  rewrite Ht. cbn [bind].
  eexists. split; [ reflexivity | ].
  split; [ | reflexivity ].
  eexists. split; [ cbn [tiers set_tiers]; apply dict_get_set_same | ].
  cbn [reference_annotations aligned_annotations maxaid maxts timeslots
       set_tiers set_annotations set_maxaid set_timeslots set_maxts].
  rewrite (dict_set_fresh (aid_of (S (maxaid e)))) by (apply Hids; lia).
  split; [ exact Hrefs | ].
  split; [ rewrite length_app; simpl; lia | ].
  split; [ now apply ids_below_snoc | ].
  split.
  - intros k b f' v' s' Hin j Hj. apply in_app_or in Hin.
    destruct Hin as [Hin | [Heq | []]].
    + apply (Hslots k b f' v' s' Hin). lia.
    + injection Heq as _ <- <- _ _.
      split; intros Heq; apply tsid_of_inj in Heq; lia.
  - apply comprehension_app.
    + rewrite <- Hread. apply comprehension_ext_in.
      intros [k [[[b f'] v'] s']] Hin. unfold annotation_data, subscript.
      destruct (Hslots k b f' v' s' Hin (S (maxts e)) ltac:(lia)) as [Hb1 Hf1].
      destruct (Hslots k b f' v' s' Hin (S (S (maxts e))) ltac:(lia))
        as [Hb2 Hf2].
      rewrite !dict_get_set_other by congruence. reflexivity.
    + cbn [comprehension annotation_data]. unfold subscript.
      rewrite dict_get_set_other
        by (intros Heq; apply tsid_of_inj in Heq; lia).
      rewrite !dict_get_set_same. reflexivity.
Qed.




Lemma add_tier_copying (tier_id : string) (ling parent : option string)
    (d : attrs) (e e' : Eaf) :
  add_tier tier_id ling parent (Some d) e = Ok e' -> copying tier_id e' 0 [].
Proof.
  unfold add_tier. destruct (String.eqb tier_id ""); [ discriminate | ].
  intros H. bind_inv_as H l Hl. injection H as <-.
  eexists. split; [ cbn [tiers set_tiers]; apply dict_get_set_same | ].
  cbn [reference_annotations aligned_annotations].
  repeat split; try reflexivity.
  - intros k _ [].
  - destruct H.
  - destruct H.
Qed.

(** [_tier_copy] once its parameters are read and the target tier is
    created: the loop of [add_annotation] on the target. *)
Lemma _tier_copy_as_loop (api : ref_api) (source_eaf target_eaf : ref)
    (source_tier_name target_tier_name : string)
    (override_params params : attrs) (ling : option string) (h : store)
    (e1 : Eaf) (data : list (Z * Z * string)) :
  source_eaf <> target_eaf ->
  params_of h source_eaf source_tier_name override_params = Ok params ->
  subscript params "LINGUISTIC_TYPE_REF" = Ok ling ->
  add_tier target_tier_name ling None (Some params) (deref h target_eaf)
  = Ok e1 ->
  get_annotation_data_for_tier api (deref h source_eaf) source_tier_name
  = Ok data ->
  _tier_copy api source_eaf target_eaf source_tier_name target_tier_name
    override_params h
  = (e <- for_each
            (fun e (x : Z * Z * string) =>
               match x with
               | (a0, a1, a2) => add_annotation target_tier_name a0 a1 a2 e
               end)
            data e1 ;;
     Ok (update h target_eaf e)).
Proof.
  intros Hne Hparams Hling E1 Hdata. unfold _tier_copy.
  rewrite Hparams. cbn [bind]. rewrite Hling. cbn [bind]. rewrite E1.
  cbn [bind]. rewrite deref_update_other by exact Hne. rewrite Hdata.
  cbn [bind].
  set (step := fun e (x : Z * Z * string) =>
                 match x with
                 | (a0, a1, a2) => add_annotation target_tier_name a0 a1 a2 e
                 end).
  transitivity
    (e <- for_each step data (deref (update h target_eaf e1) target_eaf) ;;
     Ok (update (update h target_eaf e1) target_eaf e)).
  - rewrite <- for_each_on_object. apply for_each_ext.
    intros s [[x0 x1] x2]. reflexivity.
  - rewrite deref_update_same. destruct (for_each step data e1);
      cbn [bind]; [ now rewrite update_update | reflexivity ].
Qed.


(** ** Copy of a symbolic subdivision *)

Section Subdivision.

Variable api : ref_api.

Lemma add_ref_annotation_step (id_tier tier2 : string) (time : Z)
    (value : string) (prev : option string) (e e' : Eaf) (t : tier) :
  dict_get id_tier (tiers e) = Some t ->
  ids_below (maxaid e) (reference_annotations t) ->
  add_ref_annotation api id_tier tier2 time value prev e = Ok e' ->
  exists ann,
    dict_get id_tier (tiers e')
    = Some (mk_tier (aligned_annotations t)
              (reference_annotations t
                 ++ [(aid_of (S (maxaid e)), (ann, value, prev, None))])
              (attributes t) (ordinal t))
    /\ maxaid e' = S (maxaid e).
Proof.
  intros Ht Hids H. unfold add_ref_annotation, subscript in H.
  rewrite Ht in H. cbn [bind] in H.
  destruct (truthy (aligned_annotations t)); [ discriminate | ].
  bind_inv H. unfold generate_annotation_id in H.
  rewrite (put_ref_Ok _ _ _ _ t) in H by exact Ht.
  injection H as <-. exists a.
  cbn [tiers maxaid set_tiers set_annotations set_maxaid].
  rewrite dict_get_set_same.
  rewrite dict_set_fresh by (apply Hids; lia). split; reflexivity.
Qed.

(** The loop of [_copy_symbolic_subdivision_tier]: one annotation per
    source annotation is appended to the target tier, with consecutive
    identifiers, the source value, and the link computed from the
    annotation before. *)
Lemma chain_loop (target_eaf : ref)
    (target_tier_name target_parent_tier_name : string)
    (annotations : list (Z * Z * string * string)) :
  forall (s s' : chain_state) (t : tier),
    let e := deref (chain_store s) target_eaf in
    for_each (chain_step api target_eaf target_tier_name
                target_parent_tier_name) annotations s = Ok s' ->
    dict_get target_tier_name (tiers e) = Some t ->
    ids_below (maxaid e) (reference_annotations t) ->
    exists t' out,
      dict_get target_tier_name (tiers (deref (chain_store s') target_eaf))
      = Some t'
      /\ reference_annotations t' = reference_annotations t ++ out
      /\ dict_keys out
         = map aid_of (seq (S (maxaid e)) (List.length annotations))
      /\ map (fun y => ref_value (snd y)) out = map data_value annotations
      /\ linked (previous_parent_id s) (previous_id s)
           (combine (map data_parent annotations) out).
Proof.
  induction annotations as [| [[[a0 a1] a2] a3] annotations IH];
    intros s s' t e H Ht Hids.
  - injection H as <-. exists t, []. rewrite app_nil_r. now repeat split.
  - cbn [for_each] in H. bind_inv_as H s1 Hstep. unfold chain_step in Hstep.
    bind_inv_as Hstep a Hadd. injection Hstep as <-.
    destruct (add_ref_annotation_step _ _ _ _ _ _ _ t Ht Hids Hadd)
      as [ann [Ht1 Hmax]].
    fold (link_of (previous_parent_id s) (previous_id s) a3) in *.
    set (prev := link_of (previous_parent_id s) (previous_id s) a3) in *.
    set (t1 := mk_tier (aligned_annotations t)
                 (reference_annotations t
                    ++ [(aid_of (S (maxaid e)), (ann, a2, prev, None))])
                 (attributes t) (ordinal t)) in *.
    destruct (IH (mk_chain_state (update (chain_store s) target_eaf a)
                    (Some a3) (Some (aid_of (maxaid a)))) s' t1 H)
      as [t' [out [Ht' [Hrefs [Hkeys [Hvals Hlinked]]]]]].
    + cbn [chain_store]. now rewrite deref_update_same.
    + cbn [chain_store]. rewrite deref_update_same, Hmax. unfold t1.
      cbn [reference_annotations]. now apply ids_below_snoc.
    + cbn [chain_store previous_parent_id previous_id] in *.
      rewrite deref_update_same, Hmax in *.
      exists t', ((aid_of (S (maxaid e)), (ann, a2, prev, None)) :: out).
      split; [ exact Ht' | ].
      split; [ rewrite Hrefs; unfold t1; cbn [reference_annotations];
               now rewrite <- app_assoc | ].
      split; [ unfold dict_keys in *; cbn [map fst List.length seq];
               now rewrite Hkeys | ].
      split; [ cbn [map snd ref_value data_value]; now rewrite Hvals | ].
      cbn [map combine linked data_parent]. split; [ reflexivity | ].
      exact Hlinked.
Qed.

End Subdivision.

Section Groups.

Lemma linked_head (rows : list row) (x : row) :
  linked None None (x :: rows) -> row_previous x = None.
Proof. intros [H _]. exact H. Qed.

(** Two consecutive rows: the second refers to the first exactly when they
    have the same parent key. *)
Lemma linked_consecutive (rows : list row) :
  forall (pp pid : option string) (i : nat) (x y : row),
    linked pp pid rows ->
    nth_error rows i = Some x -> nth_error rows (S i) = Some y ->
    row_previous y
    = if String.eqb (fst y) (fst x) then Some (row_id x) else None.
Proof.
  induction rows as [| r rows IH]; intros pp pid i x y Hl Hx Hy.
  - destruct i; discriminate.
  - destruct Hl as [_ Hl]. destruct i as [| i].
    + injection Hx as ->. destruct rows as [| r' rows]; [ discriminate | ].
      injection Hy as ->. destruct Hl as [Hl _]. exact Hl.
    + eapply IH; eauto.
Qed.

(** The groups of linked rows: up to the link of the very first row, every
    group is a head followed by a chain. *)
Lemma linked_runs (rows : list row) :
  forall pp pid : option string,
    linked pp pid rows ->
    match runs rows with
    | [] => rows = []
    | g :: gs =>
        Forall well_chained gs
        /\ match g with
           | [] => False
           | x :: g' =>
               row_previous x = link_of pp pid (fst x)
               /\ chain_from (row_id x) g'
           end
    end.
Proof.
  induction rows as [| x rows IH]; intros pp pid Hl; [ reflexivity | ].
  destruct Hl as [Hx Hl]. specialize (IH _ _ Hl). cbn [runs].
  destruct (runs rows) as [| [| y g] gs].
  - subst rows. split; [ constructor | ]. split; [ exact Hx | exact I ].
  - destruct IH as [_ []].
  - destruct IH as [Hgs [Hy Hg]]. unfold link_of in Hy.
    rewrite String.eqb_sym in Hy.
    destruct (String.eqb (fst x) (fst y)).
    + split; [ exact Hgs | ]. split; [ exact Hx | ]. split; assumption.
    + split; [ constructor; [ split; assumption | exact Hgs ] | ].
      split; [ exact Hx | exact I ].
Qed.

Lemma linked_groups (rows : list row) :
  linked None None rows -> Forall well_chained (runs rows).
Proof.
  intros Hl. pose proof (linked_runs rows None None Hl) as H.
  destruct (runs rows) as [| [| x g] gs]; [ constructor | | ].
  - destruct H as [_ []].
  - destruct H as [Hgs [Hx Hg]]. constructor; [ split; assumption | exact Hgs ].
Qed.

Lemma NoDup_aid_of (first n : nat) : NoDup (map aid_of (seq first n)).
Proof.
  revert first. induction n as [| n IH]; intros first; simpl; constructor.
  - intros Hin. apply in_map_iff in Hin. destruct Hin as [k [Hk Hin]].
    apply aid_of_inj in Hk. apply in_seq in Hin. lia.
  - apply IH.
Qed.

End Groups.

Lemma add_tier_get (tier_id : string) (ling parent : option string)
    (d : attrs) (e e' : Eaf) :
  add_tier tier_id ling parent (Some d) e = Ok e' ->
  dict_get tier_id (tiers e')
  = Some (mk_tier [] [] d (List.length (tiers e))).
Proof.
  unfold add_tier. destruct (String.eqb tier_id ""); [ discriminate | ].
  intros H. bind_inv H. injection H as <-. apply dict_get_set_same.
Qed.

(** X20.  In the tier produced by the symbolic-subdivision copy there is
    one annotation per item of the data the accessor returns, in order and
    under distinct identifiers.  The first annotation has no previous-link;
    every other one refers to the annotation generated just before it when
    item [3] of its data equals item [3] of the preceding item, and has no
    previous-link otherwise.  Hence every maximal run of equal items [3] is
    a head without previous-link followed by a chain.  Item [3] is what the
    library gives for the parent, not the identifier of the parent
    annotation: the runs need not be the groups of children of one
    parent. *)
Theorem subdivision_chain (api : ref_api) (source_eaf target_eaf : ref)
    (source_tier_name target_tier_name target_parent_tier_name : string)
    (override_params : attrs) (h h' : store)
    (annotations : list (Z * Z * string * string)) :
  source_eaf <> target_eaf ->
  get_ref_annotation_data_for_tier api (deref h source_eaf) source_tier_name
  = Ok annotations ->
  _copy_symbolic_subdivision_tier api source_eaf target_eaf source_tier_name
    target_tier_name target_parent_tier_name override_params h = Ok h' ->
  exists t rows,
    dict_get target_tier_name (tiers (deref h' target_eaf)) = Some t
    /\ rows = combine (map data_parent annotations) (reference_annotations t)
    /\ List.length (reference_annotations t) = List.length annotations
    /\ NoDup (dict_keys (reference_annotations t))
    /\ map (fun y => ref_value (snd y)) (reference_annotations t)
       = map data_value annotations
    /\ (forall x, nth_error rows 0 = Some x -> row_previous x = None)
    /\ (forall i x y,
          nth_error rows i = Some x -> nth_error rows (S i) = Some y ->
          row_previous y
          = if String.eqb (fst y) (fst x) then Some (row_id x) else None)
    /\ Forall well_chained (runs rows).
Proof.
  intros Hne Hdata H. unfold _copy_symbolic_subdivision_tier in H.
  bind_inv_as H params Hparams. bind_inv_as H ling Hling.
  bind_inv_as H e1 Hadd. bind_inv_as H anns Hanns. bind_inv_as H s' Hloop.
  injection H as <-.
  rewrite deref_update_other in Hanns by exact Hne.
  rewrite Hdata in Hanns. injection Hanns as <-.
  apply add_tier_get in Hadd.
  destruct (chain_loop api target_eaf target_tier_name target_parent_tier_name
              annotations
              (mk_chain_state (update h target_eaf e1) None None) s'
              (mk_tier [] [] params
                 (List.length (tiers (deref h target_eaf)))) Hloop)
    as [t [out [Ht [Hrefs [Hkeys [Hvals Hlinked]]]]]].
  - cbn [chain_store]. now rewrite deref_update_same.
  - intros k _ [].
  - cbn [reference_annotations app previous_parent_id previous_id] in *.
    exists t, (combine (map data_parent annotations) out).
    rewrite Hrefs. split; [ exact Ht | ]. split; [ reflexivity | ].
    split; [ rewrite <- (length_map fst out); fold (dict_keys out);
             now rewrite Hkeys, length_map, length_seq | ].
    split; [ rewrite Hkeys; apply NoDup_aid_of | ].
    split; [ exact Hvals | ].
    split; [ | split ].
    + intros x Hx.
      destruct (combine (map data_parent annotations) out) as [| r rows];
        [ discriminate | ].
      injection Hx as <-. now apply linked_head with (rows := rows).
    + intros i x y. now apply linked_consecutive with (pp := None) (pid := None).
    + now apply linked_groups.
Qed.

(** ** Two runs on the same documents *)

Section Header.

Variable api : ref_api.
Hypothesis Hapi : api_ignores_header api.
Variable a : dict string.

Lemma for_each_commute {A S : Type} (phi : S -> S)
    (body : S -> A -> result S) :
  (forall s x, body (phi s) x = result_map phi (body s x)) ->
  forall xs s, for_each body xs (phi s) = result_map phi (for_each body xs s).
Proof.
  intros H. induction xs as [| x xs IH]; intros s; simpl; [ reflexivity | ].
  rewrite H. destruct (body s x); simpl; auto.
Qed.

Lemma add_tier_header (tier_id : string) (ling parent : option string)
    (d : option attrs) (e : Eaf) :
  add_tier tier_id ling parent d (set_adocument a e)
  = result_map (set_adocument a) (add_tier tier_id ling parent d e).
Proof.
  unfold add_tier. destruct (String.eqb tier_id ""); [ reflexivity | ].
  cbn [linguistic_types set_adocument].
  destruct (if match ling with
               | Some l => dict_mem l (linguistic_types e)
               | None => false
               end
            then Ok ling
            else match dict_keys (linguistic_types e) with
                 | [] => Raise IndexError
                 | k :: ks => Ok (Some (least k ks))
                 end); reflexivity.
Qed.

Lemma remove_tier_header (id_tier : string) (e : Eaf) :
  remove_tier id_tier (set_adocument a e)
  = result_map (set_adocument a) (remove_tier id_tier e).
Proof.
  unfold remove_tier. cbn [tiers set_adocument].
  destruct (dict_mem id_tier (tiers e)); reflexivity.
Qed.

Lemma add_linguistic_type_header (lingtype : string) (p : attrs) (e : Eaf) :
  add_linguistic_type lingtype p (set_adocument a e)
  = set_adocument a (add_linguistic_type lingtype p e).
Proof. reflexivity. Qed.

Lemma add_annotation_header (id_tier : string) (s f : Z) (v : string)
    (e : Eaf) :
  add_annotation id_tier s f v (set_adocument a e)
  = result_map (set_adocument a) (add_annotation id_tier s f v e).
Proof.
  unfold add_annotation. cbn [tiers set_adocument].
  destruct (subscript (tiers e) id_tier) as [t |]; [ | reflexivity ].
  cbn [bind]. destruct (truthy (reference_annotations t)); [ reflexivity | ].
  destruct (s =? f)%Z; [ reflexivity | ].
  destruct (s >? f)%Z; [ reflexivity | ].
  destruct (s <? 0)%Z eqn:Es; [ reflexivity | ].
  unfold generate_ts_id. rewrite Es. cbn [bind].
  destruct (f <? 0)%Z; [ reflexivity | ].
  cbn [bind generate_annotation_id]. unfold put_aligned.
  cbn [tiers maxaid maxts timeslots annotations set_adocument set_annotations
       set_maxaid set_timeslots set_maxts].
  destruct (subscript (tiers e) id_tier); reflexivity.
Qed.

Lemma add_ref_annotation_header (id_tier tier2 : string) (time : Z)
    (v : string) (prev : option string) (e : Eaf) :
  add_ref_annotation api id_tier tier2 time v prev (set_adocument a e)
  = result_map (set_adocument a)
      (add_ref_annotation api id_tier tier2 time v prev e).
Proof.
  unfold add_ref_annotation. cbn [tiers set_adocument].
  destruct (subscript (tiers e) id_tier) as [t |]; [ | reflexivity ].
  cbn [bind]. destruct (truthy (aligned_annotations t)); [ reflexivity | ].
  rewrite Hapi. destruct (find_annotation api e tier2 time); [ | reflexivity ].
  cbn [bind generate_annotation_id]. unfold put_ref.
  cbn [tiers maxaid annotations set_adocument set_annotations set_maxaid].
  destruct (subscript (tiers e) id_tier); reflexivity.
Qed.

Lemma match_step_header (ann : string * string) (e : Eaf)
    (item : string * ref_annotation) :
  match_step ann (set_adocument a e) item
  = result_map (set_adocument a) (match_step ann e item).
Proof.
  destruct item as [aid [[[r v] p] s]]. unfold match_step.
  destruct (String.eqb (fst ann) v); [ | reflexivity ].
  cbn [generate_annotation_id]. unfold put_ref.
  cbn [tiers maxaid set_adocument set_maxaid].
  destruct (subscript (tiers e) gloss_target_tier); reflexivity.
Qed.

Lemma emit_matches_header (ann : string * string) (e : Eaf) :
  emit_matches ann (set_adocument a e)
  = result_map (set_adocument a) (emit_matches ann e).
Proof.
  unfold emit_matches. cbn [tiers set_adocument].
  destruct (subscript (tiers e) word_target_tier) as [t2 |]; [ | reflexivity ].
  cbn [bind]. apply for_each_commute. intros s x. apply match_step_header.
Qed.

Lemma emit_utterance_header (e : Eaf) (annotation : word_gloss_list) :
  emit_utterance (set_adocument a e) annotation
  = result_map (fun r => (set_adocument a (fst r), snd r))
      (emit_utterance e annotation).
Proof.
  unfold emit_utterance.
  change (mk_emit_state (set_adocument a e) 0%Z [])
    with ((fun s => mk_emit_state (set_adocument a (emit_eaf s)) (count s)
                      (word_starts s)) (mk_emit_state e 0%Z [])).
  rewrite for_each_commute.
  - destruct (for_each _ _ _); reflexivity.
  - intros s x. unfold emit_word. cbn [emit_eaf count word_starts].
    rewrite emit_matches_header.
    destruct (emit_matches x (emit_eaf s)); reflexivity.
Qed.

Lemma emit_header (new_dict : dict word_gloss_list) (e : Eaf) :
  emit new_dict (set_adocument a e)
  = result_map (set_adocument a) (emit new_dict e).
Proof.
  unfold emit. rewrite add_tier_header.
  destruct (add_tier _ _ _ _ e) as [e1 |]; [ | reflexivity ].
  cbn [bind result_map]. apply for_each_commute. intros s x.
  rewrite emit_utterance_header.
  destruct (emit_utterance s (snd x)) as [[e' l] |]; reflexivity.
Qed.

Lemma deref_restamp_target (h : store) :
  deref (restamp a h) eaf_3 = set_adocument a (deref h eaf_3).
Proof. reflexivity. Qed.

Lemma deref_restamp_source (h : store) (r : ref) :
  r <> eaf_3 -> deref (restamp a h) r = deref h r.
Proof. intros Hr. unfold restamp. now rewrite deref_update_other. Qed.

Lemma update_restamp (h : store) (t : Eaf) :
  update (restamp a h) eaf_3 (set_adocument a t)
  = restamp a (update h eaf_3 t).
Proof. reflexivity. Qed.

Lemma params_of_restamp (h : store) (r : ref) (name : string) (p : attrs) :
  r <> eaf_3 -> params_of (restamp a h) r name p = params_of h r name p.
Proof. intros Hr. unfold params_of. now rewrite deref_restamp_source. Qed.

(** One statement of a procedure on the target: the new header passes
    through. *)
Lemma on_target_header (step : Eaf -> result Eaf) (h : store) :
  (forall e, step (set_adocument a e) = result_map (set_adocument a) (step e)) ->
  (t <- step (deref (restamp a h) eaf_3) ;; Ok (update (restamp a h) eaf_3 t))
  = result_map (restamp a)
      (t <- step (deref h eaf_3) ;; Ok (update h eaf_3 t)).
Proof.
  intros H. rewrite deref_restamp_target, H.
  destruct (step (deref h eaf_3)); reflexivity.
Qed.

Lemma _tier_copy_header (source_eaf : ref)
    (source_tier_name target_tier_name : string) (override_params : attrs)
    (h : store) :
  source_eaf <> eaf_3 ->
  _tier_copy api source_eaf eaf_3 source_tier_name target_tier_name
    override_params (restamp a h)
  = result_map (restamp a)
      (_tier_copy api source_eaf eaf_3 source_tier_name target_tier_name
         override_params h).
Proof.
  intros Hs. unfold _tier_copy. rewrite params_of_restamp by exact Hs.
  destruct (params_of h source_eaf source_tier_name override_params)
    as [params |]; [ | reflexivity ].
  cbn [bind]. destruct (subscript params "LINGUISTIC_TYPE_REF") as [ling |];
    [ | reflexivity ].
  cbn [bind]. rewrite deref_restamp_target, add_tier_header.
  destruct (add_tier target_tier_name ling None (Some params) (deref h eaf_3))
    as [t |]; [ | reflexivity ].
  cbn [bind result_map]. rewrite update_restamp.
  rewrite deref_restamp_source by exact Hs.
  destruct (get_annotation_data_for_tier api
              (deref (update h eaf_3 t) source_eaf) source_tier_name)
    as [annotations |]; [ | reflexivity ].
  cbn [bind]. apply for_each_commute. intros s [[x0 x1] x2].
  apply (on_target_header (add_annotation target_tier_name x0 x1 x2)).
  intros e. apply add_annotation_header.
Qed.

Lemma _tier_copy_to_ref_header (source_eaf : ref)
    (source_tier_name target_tier_name target_parent_tier_name : string)
    (override_params : attrs) (h : store) :
  source_eaf <> eaf_3 ->
  _tier_copy_to_ref api source_eaf eaf_3 source_tier_name target_tier_name
    target_parent_tier_name override_params (restamp a h)
  = result_map (restamp a)
      (_tier_copy_to_ref api source_eaf eaf_3 source_tier_name
         target_tier_name target_parent_tier_name override_params h).
Proof.
  intros Hs. unfold _tier_copy_to_ref. rewrite params_of_restamp by exact Hs.
  destruct (params_of h source_eaf source_tier_name override_params)
    as [params |]; [ | reflexivity ].
  cbn [bind]. destruct (subscript params "LINGUISTIC_TYPE_REF") as [ling |];
    [ | reflexivity ].
  cbn [bind]. rewrite deref_restamp_target, add_tier_header.
  destruct (add_tier target_tier_name ling (Some target_parent_tier_name)
              (Some params) (deref h eaf_3)) as [t |]; [ | reflexivity ].
  cbn [bind result_map]. rewrite update_restamp.
  rewrite deref_restamp_source by exact Hs.
  destruct (get_annotation_data_for_tier api
              (deref (update h eaf_3 t) source_eaf) source_tier_name)
    as [annotations |]; [ | reflexivity ].
  cbn [bind]. apply for_each_commute. intros s [[x0 x1] x2].
  apply (on_target_header
           (add_ref_annotation api target_tier_name target_parent_tier_name
              x0 x2 None)).
  intros e. apply add_ref_annotation_header.
Qed.

Lemma _ref_tier_copy_header (source_eaf : ref)
    (source_tier_name target_tier_name target_parent_tier_name : string)
    (override_params : attrs) (h : store) :
  source_eaf <> eaf_3 ->
  _ref_tier_copy api source_eaf eaf_3 source_tier_name target_tier_name
    target_parent_tier_name override_params (restamp a h)
  = result_map (restamp a)
      (_ref_tier_copy api source_eaf eaf_3 source_tier_name
         target_tier_name target_parent_tier_name override_params h).
Proof.
  intros Hs. unfold _ref_tier_copy. rewrite params_of_restamp by exact Hs.
  destruct (params_of h source_eaf source_tier_name override_params)
    as [params |]; [ | reflexivity ].
  cbn [bind]. destruct (subscript params "LINGUISTIC_TYPE_REF") as [ling |];
    [ | reflexivity ].
  cbn [bind]. rewrite deref_restamp_target, add_tier_header.
  destruct (add_tier target_tier_name ling (Some target_parent_tier_name)
              (Some params) (deref h eaf_3)) as [t |]; [ | reflexivity ].
  cbn [bind result_map]. rewrite update_restamp.
  rewrite deref_restamp_source by exact Hs.
  destruct (get_ref_annotation_data_for_tier api
              (deref (update h eaf_3 t) source_eaf) source_tier_name)
    as [annotations |]; [ | reflexivity ].
  cbn [bind]. apply for_each_commute. intros s [[[x0 x1] x2] x3].
  apply (on_target_header
           (add_ref_annotation api target_tier_name target_parent_tier_name
              (x0 + 1)%Z x2 None)).
  intros e. apply add_ref_annotation_header.
Qed.

Lemma _copy_symbolic_subdivision_tier_header (source_eaf : ref)
    (source_tier_name target_tier_name target_parent_tier_name : string)
    (override_params : attrs) (h : store) :
  source_eaf <> eaf_3 ->
  _copy_symbolic_subdivision_tier api source_eaf eaf_3 source_tier_name
    target_tier_name target_parent_tier_name override_params (restamp a h)
  = result_map (restamp a)
      (_copy_symbolic_subdivision_tier api source_eaf eaf_3 source_tier_name
         target_tier_name target_parent_tier_name override_params h).
Proof.
  intros Hs. unfold _copy_symbolic_subdivision_tier.
  rewrite params_of_restamp by exact Hs.
  destruct (params_of h source_eaf source_tier_name override_params)
    as [params |]; [ | reflexivity ].
  cbn [bind]. destruct (subscript params "LINGUISTIC_TYPE_REF") as [ling |];
    [ | reflexivity ].
  cbn [bind]. rewrite deref_restamp_target, add_tier_header.
  destruct (add_tier target_tier_name ling (Some target_parent_tier_name)
              (Some params) (deref h eaf_3)) as [t |]; [ | reflexivity ].
  cbn [bind result_map]. rewrite update_restamp.
  rewrite deref_restamp_source by exact Hs.
  destruct (get_ref_annotation_data_for_tier api
              (deref (update h eaf_3 t) source_eaf) source_tier_name)
    as [annotations |]; [ | reflexivity ].
  cbn [bind].
  change (mk_chain_state (restamp a (update h eaf_3 t)) None None)
    with ((fun s => mk_chain_state (restamp a (chain_store s))
                      (previous_parent_id s) (previous_id s))
            (mk_chain_state (update h eaf_3 t) None None)).
  rewrite for_each_commute.
  - destruct (for_each _ annotations _); reflexivity.
  - intros s [[[x0 x1] x2] x3]. unfold chain_step.
    cbn [chain_store previous_parent_id previous_id].
    rewrite deref_restamp_target, add_ref_annotation_header.
    destruct (add_ref_annotation api target_tier_name target_parent_tier_name
                (x0 + 1)%Z x2 _ (deref (chain_store s) eaf_3));
      reflexivity.
Qed.

Lemma copy_tiers_header (h : store) :
  copy_tiers api (restamp a h) = result_map (restamp a) (copy_tiers api h).
Proof.
  unfold copy_tiers. rewrite deref_restamp_target, remove_tier_header.
  destruct (remove_tier "default" (deref h eaf_3)) as [t |]; [ | reflexivity ].
  cbn [bind result_map]. rewrite update_restamp.
  rewrite _tier_copy_header by discriminate.
  destruct (_tier_copy api eaf_2 eaf_3 _ _ _ _) as [h1 |]; [ | reflexivity ].
  cbn [bind result_map].
  rewrite deref_restamp_target, add_linguistic_type_header, update_restamp.
  rewrite _tier_copy_to_ref_header by discriminate.
  destruct (_tier_copy_to_ref api eaf_1 eaf_3 _ _ _ _ _) as [h2 |];
    [ | reflexivity ].
  cbn [bind result_map]. rewrite _ref_tier_copy_header by discriminate.
  destruct (_ref_tier_copy api eaf_1 eaf_3 _ _ _ _ _) as [h3 |];
    [ | reflexivity ].
  cbn [bind result_map].
  rewrite deref_restamp_target, add_linguistic_type_header, update_restamp.
  apply _copy_symbolic_subdivision_tier_header. discriminate.
Qed.

Lemma main_from_header (h : store) :
  main_from api (restamp a h) = result_map (restamp a) (main_from api h).
Proof.
  unfold main_from. rewrite copy_tiers_header.
  destruct (copy_tiers api h) as [h1 |]; [ | reflexivity ].
  cbn [bind result_map]. rewrite deref_restamp_source by discriminate.
  destruct (aggregate (deref h1 eaf_2)) as [new_dict |]; [ | reflexivity ].
  cbn [bind]. rewrite deref_restamp_target, emit_header.
  destruct (emit new_dict (deref h1 eaf_3)); reflexivity.
Qed.

End Header.

(** C10 (amended).  Two runs of [main] on the same two documents, whatever
    the author and date stamped on the new document by each run, end the
    same way: both raise the same exception, or both return, with the same
    source documents and targets that have the same tiers (annotation
    identifiers, values, parents and previous-links), the same time slots
    and offsets, the same linguistic types, the same registry of
    identifiers and the same identifier counters.  The header of the
    target is left out: it is what the two runs can differ in. *)
Theorem merge_deterministic (api : ref_api)
    (author date author' date' : string) (file_1 file_2 : Eaf) :
  api_ignores_header api ->
  match main api author date file_1 file_2,
        main api author' date' file_1 file_2 with
  | Ok h, Ok h' =>
      obj_1 h = obj_1 h' /\ obj_2 h = obj_2 h'
      /\ tiers (obj_3 h) = tiers (obj_3 h')
      /\ timeslots (obj_3 h) = timeslots (obj_3 h')
      /\ linguistic_types (obj_3 h) = linguistic_types (obj_3 h')
      /\ annotations (obj_3 h) = annotations (obj_3 h')
      /\ maxaid (obj_3 h) = maxaid (obj_3 h')
      /\ maxts (obj_3 h) = maxts (obj_3 h')
  | Raise e, Raise e' => e = e'
  | _, _ => False
  end.
Proof.
  intros Hapi. unfold main.
  change (mk_store file_1 file_2 (Eaf_new author' date'))
    with (restamp (adocument (Eaf_new author' date'))
            (mk_store file_1 file_2 (Eaf_new author date))).
  rewrite (main_from_header api Hapi).
  destruct (main_from api (mk_store file_1 file_2 (Eaf_new author date)))
    as [h | e]; cbn [result_map]; [ | reflexivity ].
  repeat split.
Qed.

(** ** The declarations of the merged document *)

Section Declarations.

Variable api : ref_api.

Lemma map_dict_set {V W : Type} (f : V -> W) (k : string) (v : V)
    (d : dict V) :
  map (fun kv => (fst kv, f (snd kv))) (dict_set k v d)
  = dict_set k (f v) (map (fun kv => (fst kv, f (snd kv))) d).
Proof.
  induction d as [| [k' v'] d IH]; simpl; [ reflexivity | ].
  destruct (String.eqb k k'); simpl; [ reflexivity | now rewrite IH ].
Qed.

Lemma map_dict_del {V W : Type} (f : V -> W) (k : string) (d : dict V) :
  map (fun kv => (fst kv, f (snd kv))) (dict_del k d)
  = dict_del k (map (fun kv => (fst kv, f (snd kv))) d).
Proof.
  induction d as [| [k' v'] d IH]; simpl; [ reflexivity | ].
  destruct (String.eqb k k'); simpl; [ reflexivity | now rewrite IH ].
Qed.

Lemma dict_get_map {V W : Type} (f : V -> W) (k : string) (d : dict V) :
  dict_get k (map (fun kv => (fst kv, f (snd kv))) d)
  = option_map f (dict_get k d).
Proof.
  induction d as [| [k' v'] d IH]; simpl; [ reflexivity | ].
  destruct (String.eqb k k'); simpl; [ reflexivity | exact IH ].
Qed.

(** Replacing a tier by one with the same attributes declares nothing
    new. *)
Lemma tier_attributes_replace (e : Eaf) (k : string) (t t' : tier) :
  dict_get k (tiers e) = Some t -> attributes t' = attributes t ->
  map (fun kv => (fst kv, attributes (snd kv))) (dict_set k t' (tiers e))
  = tier_attributes e.
Proof.
  intros Ht Ha. rewrite map_dict_set, Ha. apply dict_set_get_id.
  unfold tier_attributes. rewrite dict_get_map, Ht. reflexivity.
Qed.

Lemma put_ref_declarations (id_tier aid : string) (r : ref_annotation)
    (e e' : Eaf) :
  put_ref id_tier aid r e = Ok e' -> declarations e' = declarations e.
Proof.
  unfold put_ref. intros H. bind_inv_as H t Ht. injection H as <-.
  apply subscript_Ok in Ht. unfold declarations, tier_attributes.
  cbn [tiers linguistic_types set_tiers].
  now rewrite (tier_attributes_replace e id_tier t).
Qed.

Lemma put_aligned_declarations (id_tier aid : string) (r : aligned_annotation)
    (e e' : Eaf) :
  put_aligned id_tier aid r e = Ok e' -> declarations e' = declarations e.
Proof.
  unfold put_aligned. intros H. bind_inv_as H t Ht. injection H as <-.
  apply subscript_Ok in Ht. unfold declarations, tier_attributes.
  cbn [tiers linguistic_types set_tiers].
  now rewrite (tier_attributes_replace e id_tier t).
Qed.

Lemma add_annotation_declarations (id_tier : string) (s f : Z) (v : string)
    (e e' : Eaf) :
  add_annotation id_tier s f v e = Ok e' -> declarations e' = declarations e.
Proof.
  unfold add_annotation. intros H. bind_inv_as H t Ht.
  destruct (truthy (reference_annotations t)); [ discriminate | ].
  destruct (s =? f)%Z; [ discriminate | ].
  destruct (s >? f)%Z; [ discriminate | ].
  destruct (s <? 0)%Z eqn:Es; [ discriminate | ].
  unfold generate_ts_id in H. rewrite Es in H. cbn [bind] in H.
  destruct (f <? 0)%Z; [ discriminate | ].
  cbn [bind generate_annotation_id] in H.
  apply put_aligned_declarations in H. exact H.
Qed.

Lemma add_ref_annotation_declarations (id_tier tier2 : string) (time : Z)
    (v : string) (prev : option string) (e e' : Eaf) :
  add_ref_annotation api id_tier tier2 time v prev e = Ok e' ->
  declarations e' = declarations e.
Proof.
  unfold add_ref_annotation. intros H. bind_inv_as H t Ht.
  destruct (truthy (aligned_annotations t)); [ discriminate | ].
  bind_inv_as H ann Hann. cbn [generate_annotation_id] in H.
  apply put_ref_declarations in H. exact H.
Qed.

Lemma add_tier_declarations (tier_id : string) (ling parent : option string)
    (d : attrs) (e e' : Eaf) :
  add_tier tier_id ling parent (Some d) e = Ok e' ->
  declarations e'
  = (dict_set tier_id d (tier_attributes e), linguistic_types e).
Proof.
  unfold add_tier. destruct (String.eqb tier_id ""); [ discriminate | ].
  intros H. bind_inv_as H l Hl. injection H as <-.
  unfold declarations, tier_attributes. cbn [tiers linguistic_types set_tiers].
  now rewrite map_dict_set.
Qed.

Lemma remove_tier_declarations (id_tier : string) (e e' : Eaf) :
  remove_tier id_tier e = Ok e' ->
  declarations e'
  = (dict_del id_tier (tier_attributes e), linguistic_types e).
Proof.
  unfold remove_tier. destruct (dict_mem id_tier (tiers e)); [ | discriminate ].
  intros H. injection H as <-. unfold declarations, tier_attributes.
  cbn [tiers linguistic_types clean_time_slots set_tiers set_timeslots].
  now rewrite map_dict_del.
Qed.

(** A loop on the target whose iterations declare nothing declares
    nothing. *)
Lemma for_each_declarations {A : Type} (r : ref)
    (body : store -> A -> result store) :
  (forall s x s', body s x = Ok s' ->
     declarations (deref s' r) = declarations (deref s r)) ->
  forall xs h h', for_each body xs h = Ok h' ->
    declarations (deref h' r) = declarations (deref h r).
Proof.
  intros Hbody xs h h' H.
  apply (for_each_invariant
           (fun s => declarations (deref s r) = declarations (deref h r)) body)
    with (xs := xs) (s := h); [ | reflexivity | exact H ].
  intros s x s' Hs Hb. rewrite <- Hs. now apply Hbody with (x := x).
Qed.

Lemma tier_attributes_add_linguistic_type (lingtype : string) (p : attrs)
    (e : Eaf) :
  tier_attributes (add_linguistic_type lingtype p e) = tier_attributes e.
Proof. reflexivity. Qed.

Lemma linguistic_types_add_linguistic_type (lingtype : string) (p : attrs)
    (e : Eaf) :
  truthy p = true ->
  linguistic_types (add_linguistic_type lingtype p e)
  = dict_set lingtype p (linguistic_types e).
Proof. intros Hp. unfold add_linguistic_type. now rewrite Hp. Qed.

Lemma declarations_inv (e : Eaf) (ts ls : dict attrs) :
  declarations e = (ts, ls) -> tier_attributes e = ts /\ linguistic_types e = ls.
Proof. unfold declarations. intros H. now injection H. Qed.

Lemma params_of_override (h : store) (r : ref) (name : string) (p : attrs) :
  truthy p = true -> params_of h r name p = Ok p.
Proof. intros Hp. unfold params_of. now rewrite Hp. Qed.

Lemma _tier_copy_declarations (source_eaf target_eaf : ref)
    (source_tier_name target_tier_name : string) (override_params : attrs)
    (h h' : store) :
  truthy override_params = true ->
  _tier_copy api source_eaf target_eaf source_tier_name target_tier_name
    override_params h = Ok h' ->
  declarations (deref h' target_eaf)
  = (dict_set target_tier_name override_params
       (tier_attributes (deref h target_eaf)),
     linguistic_types (deref h target_eaf)).
Proof.
  intros Hp H. unfold _tier_copy in H.
  rewrite params_of_override in H by exact Hp. cbn [bind] in H.
  bind_inv_as H ling Hling. bind_inv_as H t Ht. bind_inv_as H anns Hanns.
  apply add_tier_declarations in Ht. rewrite <- Ht.
  rewrite <- (deref_update_same h target_eaf t).
  eapply for_each_declarations; [ | exact H ].
  intros s [[x0 x1] x2] s' Hb. bind_inv_as Hb t' Ht'. injection Hb as <-.
  rewrite deref_update_same. now apply add_annotation_declarations in Ht'.
Qed.

Lemma _tier_copy_to_ref_declarations (source_eaf target_eaf : ref)
    (source_tier_name target_tier_name target_parent_tier_name : string)
    (override_params : attrs) (h h' : store) :
  truthy override_params = true ->
  _tier_copy_to_ref api source_eaf target_eaf source_tier_name
    target_tier_name target_parent_tier_name override_params h = Ok h' ->
  declarations (deref h' target_eaf)
  = (dict_set target_tier_name override_params
       (tier_attributes (deref h target_eaf)),
     linguistic_types (deref h target_eaf)).
Proof.
  intros Hp H. unfold _tier_copy_to_ref in H.
  rewrite params_of_override in H by exact Hp. cbn [bind] in H.
  bind_inv_as H ling Hling. bind_inv_as H t Ht. bind_inv_as H anns Hanns.
  apply add_tier_declarations in Ht. rewrite <- Ht.
  rewrite <- (deref_update_same h target_eaf t).
  eapply for_each_declarations; [ | exact H ].
  intros s [[x0 x1] x2] s' Hb. bind_inv_as Hb t' Ht'. injection Hb as <-.
  rewrite deref_update_same. now apply add_ref_annotation_declarations in Ht'.
Qed.

Lemma _ref_tier_copy_declarations (source_eaf target_eaf : ref)
    (source_tier_name target_tier_name target_parent_tier_name : string)
    (override_params : attrs) (h h' : store) :
  truthy override_params = true ->
  _ref_tier_copy api source_eaf target_eaf source_tier_name
    target_tier_name target_parent_tier_name override_params h = Ok h' ->
  declarations (deref h' target_eaf)
  = (dict_set target_tier_name override_params
       (tier_attributes (deref h target_eaf)),
     linguistic_types (deref h target_eaf)).
Proof.
  intros Hp H. unfold _ref_tier_copy in H.
  rewrite params_of_override in H by exact Hp. cbn [bind] in H.
  bind_inv_as H ling Hling. bind_inv_as H t Ht. bind_inv_as H anns Hanns.
  apply add_tier_declarations in Ht. rewrite <- Ht.
  rewrite <- (deref_update_same h target_eaf t).
  eapply for_each_declarations; [ | exact H ].
  intros s [[[x0 x1] x2] x3] s' Hb. bind_inv_as Hb t' Ht'. injection Hb as <-.
  rewrite deref_update_same. now apply add_ref_annotation_declarations in Ht'.
Qed.

Lemma _copy_symbolic_subdivision_tier_declarations
    (source_eaf target_eaf : ref)
    (source_tier_name target_tier_name target_parent_tier_name : string)
    (override_params : attrs) (h h' : store) :
  truthy override_params = true ->
  _copy_symbolic_subdivision_tier api source_eaf target_eaf source_tier_name
    target_tier_name target_parent_tier_name override_params h = Ok h' ->
  declarations (deref h' target_eaf)
  = (dict_set target_tier_name override_params
       (tier_attributes (deref h target_eaf)),
     linguistic_types (deref h target_eaf)).
Proof.
  intros Hp H. unfold _copy_symbolic_subdivision_tier in H.
  rewrite params_of_override in H by exact Hp. cbn [bind] in H.
  bind_inv_as H ling Hling. bind_inv_as H t Ht. bind_inv_as H anns Hanns.
  bind_inv_as H s' Hloop. injection H as <-.
  apply add_tier_declarations in Ht. rewrite <- Ht.
  apply (for_each_invariant
           (fun s => declarations (deref (chain_store s) target_eaf)
                     = declarations t)
           (chain_step api target_eaf target_tier_name
              target_parent_tier_name))
    with (xs := anns) (s := mk_chain_state (update h target_eaf t) None None);
    [ | cbn [chain_store]; now rewrite deref_update_same | exact Hloop ].
  intros s [[[x0 x1] x2] x3] s1 Hs Hb. unfold chain_step in Hb.
  bind_inv_as Hb t' Ht'. injection Hb as <-. cbn [chain_store].
  rewrite deref_update_same, <- Hs.
  now apply add_ref_annotation_declarations in Ht'.
Qed.

Lemma match_step_declarations (ann : string * string) (e e' : Eaf)
    (item : string * ref_annotation) :
  match_step ann e item = Ok e' -> declarations e' = declarations e.
Proof.
  destruct item as [aid [[[r v] p] s]]. unfold match_step.
  destruct (String.eqb (fst ann) v).
  - cbn [generate_annotation_id]. intros H.
    apply put_ref_declarations in H. exact H.
  - intros H. now injection H as <-.
Qed.

Lemma emit_matches_declarations (ann : string * string) (e e' : Eaf) :
  emit_matches ann e = Ok e' -> declarations e' = declarations e.
Proof.
  unfold emit_matches. intros H. bind_inv_as H t2 Ht2.
  apply (for_each_invariant
           (fun s => declarations s = declarations e) (match_step ann))
    with (xs := reference_annotations t2) (s := e);
    [ | reflexivity | exact H ].
  intros s x s' Hs Hb. rewrite <- Hs. now apply match_step_declarations in Hb.
Qed.

Lemma emit_utterance_declarations (e e' : Eaf) (annotation : word_gloss_list)
    (starts : list Z) :
  emit_utterance e annotation = Ok (e', starts) ->
  declarations e' = declarations e.
Proof.
  unfold emit_utterance. intros H. bind_inv_as H s Hs. injection H as <- _.
  apply (for_each_invariant
           (fun s => declarations (emit_eaf s) = declarations e)
           (emit_word (item_0 annotation) (item_1 annotation)))
    with (xs := items_from_2 annotation) (s := mk_emit_state e 0%Z []);
    [ | reflexivity | exact Hs ].
  intros s0 x s1 Hs0 Hb. unfold emit_word in Hb. bind_inv_as Hb e1 He1.
  injection Hb as <-. cbn [emit_eaf]. rewrite <- Hs0.
  now apply emit_matches_declarations in He1.
Qed.

Lemma emit_declarations (new_dict : dict word_gloss_list) (e e' : Eaf) :
  emit new_dict e = Ok e' ->
  declarations e'
  = (dict_set gloss_target_tier gloss_tier_params (tier_attributes e),
     linguistic_types e).
Proof.
  unfold emit. intros H. bind_inv_as H e1 He1.
  apply add_tier_declarations in He1. rewrite <- He1.
  apply (for_each_invariant
           (fun s => declarations s = declarations e1)
           (fun e3 (item : string * word_gloss_list) =>
              ' (e3', _) <- emit_utterance e3 (snd item) ;; Ok e3'))
    with (xs := new_dict) (s := e1); [ | reflexivity | exact H ].
  intros s x s' Hs Hb. bind_inv_as Hb r Hr. destruct r as [e2 starts].
  injection Hb as <-. rewrite <- Hs.
  now apply emit_utterance_declarations in Hr.
Qed.

(** Whatever the two documents, a completed merge declares the same five
    tiers and three linguistic types; [grammatical_words] is declared with
    the attributes [word_tier_params]. *)
Lemma main_declarations (author date : string) (file_1 file_2 : Eaf)
    (h : store) :
  main api author date file_1 file_2 = Ok h ->
  declarations (obj_3 h)
  = ([(utterance_id_target_tier, utterance_id_tier_params);
      (utterance_target_tier, utterance_tier_params);
      (utterance_translation_target_tier, utterance_translation_tier_params);
      (word_target_tier, word_tier_params);
      (gloss_target_tier, gloss_tier_params)],
     [("default-lt", [("LINGUISTIC_TYPE_ID", Some "default-lt");
                      ("TIME_ALIGNABLE", Some "true");
                      ("GRAPHIC_REFERENCES", Some "false");
                      ("CONSTRAINTS", None)]);
      ("Blank", blank_type_params);
      ("word", word_type_params)]).
Proof.
  unfold main, main_from. intros H. bind_inv_as H h4 Hcopy.
  bind_inv_as H new_dict Hagg. bind_inv_as H e5 Hemit. injection H as <-.
  cbn [obj_3 update].
  apply emit_declarations in Hemit. rewrite Hemit. clear Hemit Hagg.
  unfold copy_tiers in Hcopy.
  bind_inv_as Hcopy e0 Hremove. bind_inv_as Hcopy h1 H1.
  bind_inv_as Hcopy h2 H2. bind_inv_as Hcopy h3 H3.
  apply _copy_symbolic_subdivision_tier_declarations in Hcopy;
    [ | reflexivity ].
  apply _ref_tier_copy_declarations in H3; [ | reflexivity ].
  apply _tier_copy_to_ref_declarations in H2; [ | reflexivity ].
  apply _tier_copy_declarations in H1; [ | reflexivity ].
  apply remove_tier_declarations in Hremove.
  rewrite deref_update_same in Hcopy, H2, H1.
  apply declarations_inv in Hcopy, H3, H2, H1, Hremove.
  destruct Hcopy as [T4 L4], H3 as [T3 L3], H2 as [T2 L2], H1 as [T1 L1],
    Hremove as [T0 L0].
  rewrite T4, L4.
  rewrite tier_attributes_add_linguistic_type,
    linguistic_types_add_linguistic_type by reflexivity.
  rewrite T3, L3, T2, L2.
  rewrite tier_attributes_add_linguistic_type,
    linguistic_types_add_linguistic_type by reflexivity.
  rewrite T1, L1, T0, L0. reflexivity.
Qed.

End Declarations.

(** C7 (as the code has it).  A completed merge declares exactly the tiers
    [utterance_id] (no parent), [utterance] (parent [utterance_id]),
    [utterance_translation] (parent [utterance]), [grammatical_words] (type
    [word]) and [gloss] (parent [grammatical_words]), and the linguistic
    types [default-lt], [Blank] (Symbolic_Association) and [word]
    (Symbolic_Subdivision); but [grammatical_words] is declared with the
    parent [utterance], not [utterance_id]. *)
Theorem merged_document_declarations (api : ref_api) (author date : string)
    (file_1 file_2 : Eaf) (h : store) :
  main api author date file_1 file_2 = Ok h ->
  tier_attributes (obj_3 h)
  = [("utterance_id",
      [("LINGUISTIC_TYPE_REF", Some "default-lt");
       ("TIER_ID", Some "utterance_id")]);
     ("utterance",
      [("LINGUISTIC_TYPE_REF", Some "Blank");
       ("PARENT_REF", Some "utterance_id");
       ("TIER_ID", Some "utterance")]);
     ("utterance_translation",
      [("LINGUISTIC_TYPE_REF", Some "Blank");
       ("PARENT_REF", Some "utterance");
       ("TIER_ID", Some "utterance_translation")]);
     ("grammatical_words",
      [("LINGUISTIC_TYPE_REF", Some "word");
       ("PARENT_REF", Some "utterance");
       ("TIER_ID", Some "grammatical_words")]);
     ("gloss",
      [("LINGUISTIC_TYPE_REF", Some "Blank");
       ("PARENT_REF", Some "grammatical_words");
       ("TIER_ID", Some "gloss")])]
  /\ linguistic_types (obj_3 h)
     = [("default-lt",
         [("LINGUISTIC_TYPE_ID", Some "default-lt");
          ("TIME_ALIGNABLE", Some "true");
          ("GRAPHIC_REFERENCES", Some "false");
          ("CONSTRAINTS", None)]);
        ("Blank",
         [("LINGUISTIC_TYPE_ID", Some "Blank");
          ("CONSTRAINTS", Some "Symbolic_Association");
          ("TIME_ALIGNABLE", Some "false")]);
        ("word",
         [("LINGUISTIC_TYPE_ID", Some "word");
          ("CONSTRAINTS", Some "Symbolic_Subdivision");
          ("TIME_ALIGNABLE", Some "false")])]
  /\ option_map (dict_get "PARENT_REF")
       (dict_get "grammatical_words" (tier_attributes (obj_3 h)))
     = Some (Some (Some "utterance"))
  /\ option_map (dict_get "PARENT_REF")
       (dict_get "grammatical_words" (tier_attributes (obj_3 h)))
     <> Some (Some (Some "utterance_id")).
Proof.
  intros H. apply main_declarations, declarations_inv in H.
  destruct H as [Ht Hl]. rewrite Ht, Hl.
  repeat split; try reflexivity. discriminate.
Qed.

(** ** The sample documents *)

Lemma duration_synthesis_witness :
  aggregate_step (timeslots Sample.file_2)
    Sample.words Sample.morphs Sample.glosses []
    ("a2", ("ts3", "ts4", "2", None))
  = Ok [("a2", mk_word_gloss_list 1000 1000
                 [("ka", "NEG"); ("rua", "go-PST"); ("te", "")])]
  /\ exists e3' starts,
       emit_utterance Sample.repeated_word_target
         (mk_word_gloss_list 1000 1000
            [("ka", "NEG"); ("rua", "go-PST"); ("te", "")])
       = Ok (e3', starts)
       /\ List.length starts = 3
       /\ (forall i, i < 3 ->
             nth_error starts i = Some (1000 + 1000 * Z.of_nat i)%Z)
       /\ nth_error starts 0 = Some 1000%Z.
Proof.
  apply (duration_synthesis (timeslots Sample.file_2)
           Sample.words Sample.morphs Sample.glosses
           [] "a2" "ts3" "ts4" "2" None 1000%Z 4000%Z
           Sample.repeated_word_target).
  - reflexivity.
  - reflexivity.
  - lia.
  - vm_compute. reflexivity.
  - vm_compute. reflexivity.
  - split; reflexivity.
Defined.

Lemma gloss_concatenation_witness :
  collect_word_gloss Sample.words Sample.morphs Sample.glosses "a2"
  = [("ka", "NEG"); ("rua", "go-PST"); ("te", "")]
  /\ str_join "-" (collect_glosses Sample.morphs Sample.glosses "a6") = "".
Proof.
  destruct (gloss_concatenation Sample.words Sample.morphs Sample.glosses "a2")
    as [H1 H2].
  split; [ rewrite H1; reflexivity | apply H2; reflexivity ].
Defined.

Lemma subdivision_chain_witness :
  exists h' t rows,
    _copy_symbolic_subdivision_tier Sample.api eaf_2 eaf_3 word_source_tier
      word_target_tier utterance_id_target_tier word_tier_params
      Sample.before_word_copy = Ok h'
    /\ dict_get word_target_tier (tiers (deref h' eaf_3)) = Some t
    /\ reference_annotations t
       = [("a4", ("a2", "mina", None, None));
          ("a5", ("a3", "ka", None, None));
          ("a6", ("a3", "rua", Some "a5", None));
          ("a7", ("a3", "te", Some "a6", None))]
    /\ rows = combine ["1"; "2"; "2"; "2"] (reference_annotations t)
    /\ Forall well_chained (runs rows).
Proof.
  eexists.
  assert (Hrun : _copy_symbolic_subdivision_tier Sample.api eaf_2 eaf_3
                   word_source_tier word_target_tier utterance_id_target_tier
                   word_tier_params Sample.before_word_copy = Ok _)
    by (vm_compute; reflexivity).
  destruct (subdivision_chain Sample.api eaf_2 eaf_3 word_source_tier
              word_target_tier utterance_id_target_tier word_tier_params
              Sample.before_word_copy _
              [(0%Z, 900%Z, "mina", "1"); (1000%Z, 4000%Z, "ka", "2");
               (1000%Z, 4000%Z, "rua", "2"); (1000%Z, 4000%Z, "te", "2")]
              ltac:(discriminate) ltac:(vm_compute; reflexivity) Hrun)
    as [t [rows [Ht [Hrows [_ [_ [_ [_ [_ Hgroups]]]]]]]]].
  exists t, rows. split; [ exact Hrun | ]. split; [ exact Ht | ].
  vm_compute in Ht. injection Ht as <-.
  split; [ reflexivity | ]. split; [ exact Hrows | exact Hgroups ].
Defined.


Lemma empty_group_error_witness :
  main_from Sample.api
    (mk_store Sample.file_1 Sample.file_2_empty_group
       (Eaf_new "pympi" "2019-01-03T00:00:00+10:00"))
  = Raise ZeroDivisionError.
Proof.
  destruct (empty_group_error Sample.api
              (mk_store Sample.file_1 Sample.file_2_empty_group
                 (Eaf_new "pympi" "2019-01-03T00:00:00+10:00"))
              (mk_tier [] Sample.words
                 [("LINGUISTIC_TYPE_REF", Some "word");
                  ("PARENT_REF", Some utterance_id_source_tier);
                  ("TIER_ID", Some word_source_tier)] 1)
              (mk_tier [] Sample.morphs
                 [("LINGUISTIC_TYPE_REF", Some "word");
                  ("PARENT_REF", Some word_source_tier);
                  ("TIER_ID", Some morph_source_tier)] 2)
              (mk_tier [] Sample.glosses
                 [("LINGUISTIC_TYPE_REF", Some "Blank");
                  ("PARENT_REF", Some morph_source_tier);
                  ("TIER_ID", Some gloss_source_tier)] 3)
              (mk_tier [("a1", ("ts1", "ts2", "1", None));
                        ("a2", ("ts3", "ts4", "2", None));
                        ("a15", ("ts5", "ts6", "3", None))]
                 []
                 [("LINGUISTIC_TYPE_REF", Some "default-lt");
                  ("TIER_ID", Some utterance_id_source_tier)] 0)
              [("a1", ("ts1", "ts2", "1", None));
               ("a2", ("ts3", "ts4", "2", None))]
              []
              "a15" "ts5" "ts6" "3" None 5000%Z 6000%Z
              eq_refl eq_refl eq_refl eq_refl eq_refl eq_refl eq_refl eq_refl)
    as [_ [_ Hmain]].
  eapply Hmain; vm_compute; reflexivity.
Defined.


Lemma sources_not_mutated_witness :
  exists h',
    main Sample.api "pympi" "2019-01-03T00:00:00+10:00"
      Sample.file_1 Sample.file_2 = Ok h'
    /\ obj_1 h' = Sample.file_1 /\ obj_2 h' = Sample.file_2.
Proof.
  eexists.
  assert (Hrun : main Sample.api "pympi" "2019-01-03T00:00:00+10:00"
                   Sample.file_1 Sample.file_2 = Ok _)
    by (vm_compute; reflexivity).
  split; [ exact Hrun | ].
  destruct (sources_not_mutated Sample.api) as (_ & _ & _ & _ & Hmain).
  exact (Hmain _ _ _ _ _ Hrun).
Defined.

Lemma sample_parent_header (a : dict string) (fuel : nat) :
  forall (e : Eaf) (ref_id : string),
    Sample.get_parent_aligned_annotation fuel (set_adocument a e) ref_id
    = Sample.get_parent_aligned_annotation fuel e ref_id.
Proof.
  induction fuel as [| fuel IH]; intros e ref_id; simpl;
    destruct (subscript (annotations e) ref_id) as [name |]; simpl;
    try reflexivity;
    destruct (subscript (tiers e) name) as [t |]; simpl; try reflexivity;
    destruct (Sample.has_parent t); try reflexivity.
  destruct (subscript (reference_annotations t) ref_id) as [[[[r v] p] g] |];
    simpl; [ apply IH | reflexivity ].
Qed.

Lemma sample_first_ref_header (a : dict string) (e : Eaf) (time : Z)
    (items : dict ref_annotation) :
  Sample.first_ref_at (set_adocument a e) time items
  = Sample.first_ref_at e time items.
Proof.
  induction items as [| [aid [[[r v] p] g]] items IH]; [ reflexivity | ].
  cbn [Sample.first_ref_at tiers timeslots set_adocument].
  rewrite sample_parent_header, IH. reflexivity.
Qed.

Lemma sample_api_ignores_header : api_ignores_header Sample.api.
Proof.
  intros a e tier2 time. unfold Sample.api. cbn [find_annotation].
  unfold Sample.find_by_time. cbn [tiers timeslots set_adocument].
  destruct (subscript (tiers e) tier2) as [t |]; cbn [bind];
    [ | reflexivity ].
  destruct (Sample.has_parent t); [ apply sample_first_ref_header | ].
  reflexivity.
Qed.

Lemma merge_deterministic_witness :
  match main Sample.api "pympi" "2019-01-03T00:00:00+10:00"
          Sample.file_1 Sample.file_2,
        main Sample.api "pympi" "2019-01-04T09:30:00+10:00"
          Sample.file_1 Sample.file_2 with
  | Ok h, Ok h' =>
      obj_1 h = obj_1 h' /\ obj_2 h = obj_2 h'
      /\ tiers (obj_3 h) = tiers (obj_3 h')
      /\ timeslots (obj_3 h) = timeslots (obj_3 h')
      /\ linguistic_types (obj_3 h) = linguistic_types (obj_3 h')
      /\ annotations (obj_3 h) = annotations (obj_3 h')
      /\ maxaid (obj_3 h) = maxaid (obj_3 h')
      /\ maxts (obj_3 h) = maxts (obj_3 h')
  | Raise e, Raise e' => e = e'
  | _, _ => False
  end.
Proof.
  apply (merge_deterministic Sample.api "pympi" "2019-01-03T00:00:00+10:00"
           "pympi" "2019-01-04T09:30:00+10:00" Sample.file_1 Sample.file_2).
  exact sample_api_ignores_header.
Defined.

(** The claim of C10 as it is written fails: two runs on the same two
    documents, a day apart, return targets that are not identical; their
    headers carry the dates of the runs. *)
Lemma merge_deterministic_counterexample :
  exists h h',
    main Sample.api "pympi" "2019-01-03T00:00:00+10:00"
      Sample.file_1 Sample.file_2 = Ok h
    /\ main Sample.api "pympi" "2019-01-04T09:30:00+10:00"
         Sample.file_1 Sample.file_2 = Ok h'
    /\ dict_get "DATE" (adocument (obj_3 h))
       = Some "2019-01-03T00:00:00+10:00"
    /\ dict_get "DATE" (adocument (obj_3 h'))
       = Some "2019-01-04T09:30:00+10:00"
    /\ obj_3 h <> obj_3 h'.
Proof.
  do 2 eexists.
  split; [ vm_compute; reflexivity | ].
  split; [ vm_compute; reflexivity | ].
  split; [ reflexivity | ]. split; [ reflexivity | ].
  intros Heq. apply (f_equal (fun e => dict_get "DATE" (adocument e))) in Heq.
  vm_compute in Heq. discriminate Heq.
Qed.

(** C2.  The copy links annotations across parents.  In the second
    document [file_2_equal_ids] the word ["mina"] is a child of the
    utterance [a1] and the word ["ka"] of the utterance [a2], the two
    utterances having the same value; the data of the library give both
    words the same item [3], and the merge returns a word tier in which
    ["ka"], anchored to the second utterance, has a previous-link to
    ["mina"], anchored to the first: the second group has no head. *)
Theorem subdivision_chain_crosses_parents :
  option_map
    (fun t => map (fun w => (ref_value (snd w), ref_parent (snd w)))
                  (reference_annotations t))
    (dict_get word_source_tier (tiers Sample.file_2_equal_ids))
  = Some [("mina", "a1"); ("ka", "a2"); ("rua", "a2"); ("te", "a2")]
  /\ get_ref_annotation_data_for_tier Sample.api Sample.file_2_equal_ids
       word_source_tier
     = Ok [(0%Z, 900%Z, "mina", "1"); (1000%Z, 4000%Z, "ka", "1");
           (1000%Z, 4000%Z, "rua", "1"); (1000%Z, 4000%Z, "te", "1")]
  /\ exists h,
       main Sample.api "pympi" "2019-01-03T00:00:00+10:00"
         Sample.file_1 Sample.file_2_equal_ids = Ok h
       /\ option_map reference_annotations
            (dict_get word_target_tier (tiers (obj_3 h)))
          = Some [("a8", ("a2", "mina", None, None));
                  ("a9", ("a3", "ka", Some "a8", None));
                  ("a10", ("a3", "rua", Some "a9", None));
                  ("a11", ("a3", "te", Some "a10", None))].
Proof.
  split; [ reflexivity | ]. split; [ vm_compute; reflexivity | ].
  eexists. split; vm_compute; reflexivity.
Qed.

Lemma merged_document_declarations_witness :
  exists h t,
    main Sample.api "pympi" "2019-01-03T00:00:00+10:00"
      Sample.file_1 Sample.file_2 = Ok h
    /\ dict_keys (tier_attributes (obj_3 h))
       = ["utterance_id"; "utterance"; "utterance_translation";
          "grammatical_words"; "gloss"]
    /\ option_map (dict_get "PARENT_REF")
         (dict_get "grammatical_words" (tier_attributes (obj_3 h)))
       = Some (Some (Some "utterance"))
    /\ dict_get "grammatical_words" (tiers (obj_3 h)) = Some t
    /\ map (fun x => dict_get (ref_parent (snd x)) (annotations (obj_3 h)))
           (reference_annotations t)
       = [Some "utterance_id"; Some "utterance_id";
          Some "utterance_id"; Some "utterance_id"].
Proof.
  eexists. eexists.
  assert (Hrun : main Sample.api "pympi" "2019-01-03T00:00:00+10:00"
                   Sample.file_1 Sample.file_2 = Ok _)
    by (vm_compute; reflexivity).
  destruct (merged_document_declarations Sample.api _ _ _ _ _ Hrun)
    as [Ht [_ [Hp _]]].
  split; [ exact Hrun | ].
  split; [ rewrite Ht; reflexivity | ].
  split; [ exact Hp | ].
  split; vm_compute; reflexivity.
Defined.

(** ** The reference copies *)

Section ReferenceCopies.

Variable api : ref_api.

Lemma only_tier_changed_refl (name : string) (e : Eaf) :
  only_tier_changed name e e.
Proof. repeat split. Qed.

Lemma only_tier_changed_trans (name : string) (e1 e2 e3 : Eaf) :
  only_tier_changed name e1 e2 -> only_tier_changed name e2 e3 ->
  only_tier_changed name e1 e3.
Proof.
  intros (A1 & L1 & T1 & M1 & K1) (A2 & L2 & T2 & M2 & K2).
  repeat split; try congruence.
  intros k Hk. rewrite K2, K1; auto.
Qed.

Lemma add_tier_only_tier_changed (tier_id : string)
    (ling parent : option string) (d : option attrs) (e e' : Eaf) :
  add_tier tier_id ling parent d e = Ok e' -> only_tier_changed tier_id e e'.
Proof.
  unfold add_tier. destruct (String.eqb tier_id ""); [ discriminate | ].
  intros H. bind_inv_as H l Hl. injection H as <-.
  repeat split. intros k Hk. cbn [tiers set_tiers].
  apply dict_get_set_other. congruence.
Qed.

Lemma add_ref_annotation_only_tier_changed (id_tier tier2 : string) (time : Z)
    (value : string) (prev : option string) (e e' : Eaf) :
  add_ref_annotation api id_tier tier2 time value prev e = Ok e' ->
  only_tier_changed id_tier e e'.
Proof.
  unfold add_ref_annotation. intros H. bind_inv_as H t Ht.
  destruct (truthy (aligned_annotations t)); [ discriminate | ].
  bind_inv_as H ann Hann. cbn [generate_annotation_id] in H.
  unfold put_ref in H. bind_inv_as H t' Ht'. injection H as <-.
  repeat split. intros k Hk. cbn [tiers set_tiers set_annotations set_maxaid].
  apply dict_get_set_other. congruence.
Qed.

(** One reference annotation is added: the anchor is what the library finds
    on the target as it is before the call. *)
Lemma add_ref_annotation_anchor (id_tier tier2 : string) (time : Z)
    (value : string) (prev : option string) (e e' : Eaf) (t : tier) :
  dict_get id_tier (tiers e) = Some t ->
  ids_below (maxaid e) (reference_annotations t) ->
  add_ref_annotation api id_tier tier2 time value prev e = Ok e' ->
  exists ann,
    find_annotation api e tier2 time = Ok ann
    /\ aligned_annotations t = []
    /\ dict_get id_tier (tiers e')
       = Some (mk_tier (aligned_annotations t)
                 (reference_annotations t
                    ++ [(aid_of (S (maxaid e)), (ann, value, prev, None))])
                 (attributes t) (ordinal t))
    /\ maxaid e' = S (maxaid e).
Proof.
  intros Ht Hids H. unfold add_ref_annotation, subscript in H.
  rewrite Ht in H. cbn [bind] in H.
  destruct (aligned_annotations t) eqn:Ea; cbn [truthy] in H;
    [ | discriminate ].
  bind_inv_as H ann Hann. unfold generate_annotation_id in H.
  rewrite (put_ref_Ok _ _ _ _ t) in H by exact Ht.
  injection H as <-. exists ann.
  cbn [tiers maxaid set_tiers set_annotations set_maxaid].
  rewrite dict_get_set_same, Ea.
  rewrite dict_set_fresh by (apply Hids; lia). repeat split; auto.
Qed.

(** A loop of [add_ref_annotation] without previous-link, over items read
    as a time and a value. *)
Lemma reference_loop (id_tier tier2 : string) (e0 : Eaf)
    (items : list (Z * string)) :
  forall (e e' : Eaf) (t : tier),
    only_tier_changed id_tier e0 e ->
    for_each
      (fun e (x : Z * string) =>
         add_ref_annotation api id_tier tier2 (fst x) (snd x) None e)
      items e = Ok e' ->
    dict_get id_tier (tiers e) = Some t ->
    ids_below (maxaid e) (reference_annotations t) ->
    exists t' out,
      dict_get id_tier (tiers e') = Some t'
      /\ reference_annotations t' = reference_annotations t ++ out
      /\ (items <> [] -> aligned_annotations t = [])
      /\ aligned_annotations t' = aligned_annotations t
      /\ attributes t' = attributes t
      /\ dict_keys out = map aid_of (seq (S (maxaid e)) (List.length items))
      /\ Forall2
           (fun x y => copied_reference api e0 id_tier tier2 (fst x) (snd x) y)
           items out
      /\ only_tier_changed id_tier e0 e'.
Proof.
  induction items as [| [time value] items IH]; intros e e' t H0 H Ht Hids.
  - injection H as <-. exists t, []. rewrite app_nil_r.
    repeat split; auto; try apply H0. congruence.
  - cbn [for_each fst snd] in H. bind_inv_as H e1 Hadd.
    pose proof (add_ref_annotation_only_tier_changed _ _ _ _ _ _ _ Hadd) as H1.
    destruct (add_ref_annotation_anchor _ _ _ _ _ _ _ t Ht Hids Hadd)
      as [ann [Hfind [Ha [Ht1 Hmax]]]].
    destruct (IH e1 e' _ (only_tier_changed_trans _ _ _ _ H0 H1) H Ht1)
      as [t' [out [Ht' [Hrefs [_ [Hal [Hat [Hkeys [Hall Hch]]]]]]]]].
    + rewrite Hmax. cbn [reference_annotations]. now apply ids_below_snoc.
    + cbn [reference_annotations aligned_annotations attributes] in *.
      exists t', ((aid_of (S (maxaid e)), (ann, value, None, None)) :: out).
      split; [ exact Ht' | ].
      split; [ rewrite Hrefs, <- app_assoc; reflexivity | ].
      split; [ intros _; exact Ha | ].
      split; [ exact Hal | ]. split; [ exact Hat | ].
      split; [ unfold dict_keys in *; cbn [map fst List.length seq];
               now rewrite Hkeys, Hmax | ].
      split; [ | exact Hch ].
      constructor; [ | exact Hall ].
      repeat split. exists e. split; [ exact H0 | exact Hfind ].
Qed.

End ReferenceCopies.

Section ReferenceCopyTheorems.

Variable api : ref_api.

Lemma for_each_map {A B S : Type} (body : S -> B -> result S) (g : A -> B)
    (xs : list A) (s : S) :
  for_each body (map g xs) s = for_each (fun s x => body s (g x)) xs s.
Proof.
  revert s. induction xs as [| x xs IH]; intros s; simpl; [ reflexivity | ].
  destruct (body s (g x)); simpl; auto.
Qed.

Lemma Forall2_map_l {A B C : Type} (P : B -> C -> Prop) (g : A -> B)
    (xs : list A) (ys : list C) :
  Forall2 P (map g xs) ys -> Forall2 (fun x y => P (g x) y) xs ys.
Proof.
  revert ys. induction xs as [| x xs IH]; intros ys H; inversion H; subst;
    constructor; auto.
Qed.

(** The store-level loop of a reference copy, as a loop on the target. *)
Lemma reference_copy_loop {A : Type} (target_eaf : ref)
    (id_tier tier2 : string) (read : A -> Z * string)
    (body : store -> A -> result store) (xs : list A) (h h' : store) :
  (forall s x,
      body s x
      = (t <- add_ref_annotation api id_tier tier2 (fst (read x))
                (snd (read x)) None (deref s target_eaf) ;;
         Ok (update s target_eaf t))) ->
  for_each body xs h = Ok h' ->
  exists e',
    for_each
      (fun e (x : Z * string) =>
         add_ref_annotation api id_tier tier2 (fst x) (snd x) None e)
      (map read xs) (deref h target_eaf) = Ok e'
    /\ h' = update h target_eaf e'.
Proof.
  intros Hbody H.
  set (step := fun e (x : A) =>
                 add_ref_annotation api id_tier tier2 (fst (read x))
                   (snd (read x)) None e).
  assert (Heq : for_each body xs h
                = (e <- for_each step xs (deref h target_eaf) ;;
                   Ok (update h target_eaf e))).
  { rewrite <- for_each_on_object. apply for_each_ext. exact Hbody. }
  rewrite Heq in H. bind_inv_as H e' Hloop. injection H as <-.
  exists e'. split; [ | reflexivity ].
  now rewrite for_each_map.
Qed.

End ReferenceCopyTheorems.

(** X1.  In the tier [_tier_copy_to_ref] produces there is one reference
    annotation per annotation of the source tier, in source order and under
    consecutive fresh identifiers; each carries the source value and no
    previous-link, and is anchored to what the library finds in the parent
    tier at the source start offset.  Nothing else of the target changes
    but the identifier counter and the registry of ids. *)
Theorem promoted_copy_content (api : ref_api) (source_eaf target_eaf : ref)
    (source_tier_name target_tier_name target_parent_tier_name : string)
    (override_params : attrs) (h h' : store)
    (data : list (Z * Z * string)) :
  source_eaf <> target_eaf ->
  get_annotation_data_for_tier api (deref h source_eaf) source_tier_name
  = Ok data ->
  _tier_copy_to_ref api source_eaf target_eaf source_tier_name
    target_tier_name target_parent_tier_name override_params h = Ok h' ->
  exists t,
    dict_get target_tier_name (tiers (deref h' target_eaf)) = Some t
    /\ aligned_annotations t = []
    /\ List.length (reference_annotations t) = List.length data
    /\ dict_keys (reference_annotations t)
       = map aid_of (seq (S (maxaid (deref h target_eaf))) (List.length data))
    /\ NoDup (dict_keys (reference_annotations t))
    /\ Forall2
         (fun x y =>
            copied_reference api (deref h target_eaf) target_tier_name
              target_parent_tier_name (span_start x) (span_value x) y)
         data (reference_annotations t)
    /\ only_tier_changed target_tier_name (deref h target_eaf)
         (deref h' target_eaf).
Proof.
  intros Hne Hdata H. unfold _tier_copy_to_ref in H.
  bind_inv_as H params Hparams. bind_inv_as H ling Hling.
  bind_inv_as H e1 Hadd. bind_inv_as H anns Hanns.
  rewrite deref_update_other in Hanns by exact Hne.
  rewrite Hdata in Hanns. injection Hanns as <-.
  eapply (reference_copy_loop api target_eaf target_tier_name
            target_parent_tier_name
            (fun x => (span_start x, span_value x))) in H;
    [ | intros s [[x0 x1] x2]; reflexivity ].
  destruct H as [e' [Hloop ->]].
  rewrite deref_update_same in Hloop. rewrite update_update, deref_update_same.
  pose proof (add_tier_only_tier_changed _ _ _ _ _ _ Hadd) as Hch.
  assert (Hmax : maxaid e1 = maxaid (deref h target_eaf)).
  { unfold add_tier in Hadd.
    destruct (String.eqb target_tier_name ""); [ discriminate | ].
    bind_inv_as Hadd l Hl. now injection Hadd as <-. }
  apply add_tier_get in Hadd.
  destruct (reference_loop api target_tier_name target_parent_tier_name
              (deref h target_eaf) _ e1 e' _ Hch Hloop Hadd)
    as [t [out [Ht [Hrefs [_ [Hal [_ [Hkeys [Hall Hch']]]]]]]]].
  - intros k _ [].
  - cbn [reference_annotations aligned_annotations app] in *.
    rewrite length_map, Hmax in Hkeys.
    exists t. rewrite Hrefs.
    split; [ exact Ht | ]. split; [ exact Hal | ].
    split; [ rewrite <- (length_map fst out); fold (dict_keys out);
             now rewrite Hkeys, length_map, length_seq | ].
    split; [ exact Hkeys | ].
    split; [ rewrite Hkeys; apply NoDup_aid_of | ].
    split; [ | exact Hch' ].
    now apply Forall2_map_l in Hall.
Qed.

(** X2.  In the tier [_ref_tier_copy] produces there is one reference
    annotation per reference annotation of the source tier, in source order
    and under consecutive fresh identifiers; each carries the source value
    and no previous-link, and is anchored to what the library finds in the
    parent tier one unit after the start offset of the source item.
    Nothing else of the target changes but the identifier counter and the
    registry of ids. *)
Theorem reference_copy_content (api : ref_api) (source_eaf target_eaf : ref)
    (source_tier_name target_tier_name target_parent_tier_name : string)
    (override_params : attrs) (h h' : store)
    (data : list (Z * Z * string * string)) :
  source_eaf <> target_eaf ->
  get_ref_annotation_data_for_tier api (deref h source_eaf) source_tier_name
  = Ok data ->
  _ref_tier_copy api source_eaf target_eaf source_tier_name
    target_tier_name target_parent_tier_name override_params h = Ok h' ->
  exists t,
    dict_get target_tier_name (tiers (deref h' target_eaf)) = Some t
    /\ aligned_annotations t = []
    /\ List.length (reference_annotations t) = List.length data
    /\ dict_keys (reference_annotations t)
       = map aid_of (seq (S (maxaid (deref h target_eaf))) (List.length data))
    /\ NoDup (dict_keys (reference_annotations t))
    /\ Forall2
         (fun x y =>
            copied_reference api (deref h target_eaf) target_tier_name
              target_parent_tier_name (data_start x + 1)%Z (data_value x) y)
         data (reference_annotations t)
    /\ only_tier_changed target_tier_name (deref h target_eaf)
         (deref h' target_eaf).
Proof.
  intros Hne Hdata H. unfold _ref_tier_copy in H.
  bind_inv_as H params Hparams. bind_inv_as H ling Hling.
  bind_inv_as H e1 Hadd. bind_inv_as H anns Hanns.
  rewrite deref_update_other in Hanns by exact Hne.
  rewrite Hdata in Hanns. injection Hanns as <-.
  eapply (reference_copy_loop api target_eaf target_tier_name
            target_parent_tier_name
            (fun x => ((data_start x + 1)%Z, data_value x))) in H;
    [ | intros s [[[x0 x1] x2] x3]; reflexivity ].
  destruct H as [e' [Hloop ->]].
  rewrite deref_update_same in Hloop. rewrite update_update, deref_update_same.
  pose proof (add_tier_only_tier_changed _ _ _ _ _ _ Hadd) as Hch.
  assert (Hmax : maxaid e1 = maxaid (deref h target_eaf)).
  { unfold add_tier in Hadd.
    destruct (String.eqb target_tier_name ""); [ discriminate | ].
    bind_inv_as Hadd l Hl. now injection Hadd as <-. }
  apply add_tier_get in Hadd.
  destruct (reference_loop api target_tier_name target_parent_tier_name
              (deref h target_eaf) _ e1 e' _ Hch Hloop Hadd)
    as [t [out [Ht [Hrefs [_ [Hal [_ [Hkeys [Hall Hch']]]]]]]]].
  - intros k _ [].
  - cbn [reference_annotations aligned_annotations app] in *.
    rewrite length_map, Hmax in Hkeys.
    exists t. rewrite Hrefs.
    split; [ exact Ht | ]. split; [ exact Hal | ].
    split; [ rewrite <- (length_map fst out); fold (dict_keys out);
             now rewrite Hkeys, length_map, length_seq | ].
    split; [ exact Hkeys | ].
    split; [ rewrite Hkeys; apply NoDup_aid_of | ].
    split; [ | exact Hch' ].
    now apply Forall2_map_l in Hall.
Qed.

(** ** Parameters, names and aliasing of the copies *)

Section CopyEdges.

Variable api : ref_api.

(** A loop of the copies on the target declares nothing. *)
Lemma ref_loop_declarations {A : Type} (target_eaf : ref)
    (body : store -> A -> result store) (xs : list A) (h h' : store) :
  (forall s x s', body s x = Ok s' ->
     exists id_tier tier2 time v prev t,
       add_ref_annotation api id_tier tier2 time v prev (deref s target_eaf)
       = Ok t /\ s' = update s target_eaf t) ->
  for_each body xs h = Ok h' ->
  declarations (deref h' target_eaf) = declarations (deref h target_eaf).
Proof.
  intros Hbody H. eapply for_each_declarations; [ | exact H ].
  intros s x s' Hb.
  destruct (Hbody s x s' Hb) as (i & t2 & tm & v & p & t & Ht & ->).
  rewrite deref_update_same.
  now apply add_ref_annotation_declarations in Ht.
Qed.

(** Each copy declares the target tier with [params], the dictionary
    [params_of] returns. *)
Lemma _tier_copy_declares (source_eaf target_eaf : ref)
    (source_tier_name target_tier_name : string)
    (override_params params : attrs) (h h' : store) :
  params_of h source_eaf source_tier_name override_params = Ok params ->
  _tier_copy api source_eaf target_eaf source_tier_name target_tier_name
    override_params h = Ok h' ->
  declarations (deref h' target_eaf)
  = (dict_set target_tier_name params (tier_attributes (deref h target_eaf)),
     linguistic_types (deref h target_eaf)).
Proof.
  intros Hp H. unfold _tier_copy in H. rewrite Hp in H. cbn [bind] in H.
  bind_inv_as H ling Hling. bind_inv_as H t Ht. bind_inv_as H anns Hanns.
  apply add_tier_declarations in Ht. rewrite <- Ht.
  rewrite <- (deref_update_same h target_eaf t).
  eapply for_each_declarations; [ | exact H ].
  intros s [[x0 x1] x2] s' Hb. bind_inv_as Hb t' Ht'. injection Hb as <-.
  rewrite deref_update_same. now apply add_annotation_declarations in Ht'.
Qed.

Lemma _tier_copy_to_ref_declares (source_eaf target_eaf : ref)
    (source_tier_name target_tier_name target_parent_tier_name : string)
    (override_params params : attrs) (h h' : store) :
  params_of h source_eaf source_tier_name override_params = Ok params ->
  _tier_copy_to_ref api source_eaf target_eaf source_tier_name
    target_tier_name target_parent_tier_name override_params h = Ok h' ->
  declarations (deref h' target_eaf)
  = (dict_set target_tier_name params (tier_attributes (deref h target_eaf)),
     linguistic_types (deref h target_eaf)).
Proof.
  intros Hp H. unfold _tier_copy_to_ref in H. rewrite Hp in H.
  cbn [bind] in H.
  bind_inv_as H ling Hling. bind_inv_as H t Ht. bind_inv_as H anns Hanns.
  apply add_tier_declarations in Ht. rewrite <- Ht.
  rewrite <- (deref_update_same h target_eaf t).
  eapply ref_loop_declarations; [ | exact H ].
  intros s [[x0 x1] x2] s' Hb. bind_inv_as Hb t' Ht'. injection Hb as <-.
  now repeat eexists; eauto.
Qed.

Lemma _ref_tier_copy_declares (source_eaf target_eaf : ref)
    (source_tier_name target_tier_name target_parent_tier_name : string)
    (override_params params : attrs) (h h' : store) :
  params_of h source_eaf source_tier_name override_params = Ok params ->
  _ref_tier_copy api source_eaf target_eaf source_tier_name
    target_tier_name target_parent_tier_name override_params h = Ok h' ->
  declarations (deref h' target_eaf)
  = (dict_set target_tier_name params (tier_attributes (deref h target_eaf)),
     linguistic_types (deref h target_eaf)).
Proof.
  intros Hp H. unfold _ref_tier_copy in H. rewrite Hp in H.
  cbn [bind] in H.
  bind_inv_as H ling Hling. bind_inv_as H t Ht. bind_inv_as H anns Hanns.
  apply add_tier_declarations in Ht. rewrite <- Ht.
  rewrite <- (deref_update_same h target_eaf t).
  eapply ref_loop_declarations; [ | exact H ].
  intros s [[[x0 x1] x2] x3] s' Hb. bind_inv_as Hb t' Ht'. injection Hb as <-.
  now repeat eexists; eauto.
Qed.

Lemma _copy_symbolic_subdivision_tier_declares (source_eaf target_eaf : ref)
    (source_tier_name target_tier_name target_parent_tier_name : string)
    (override_params params : attrs) (h h' : store) :
  params_of h source_eaf source_tier_name override_params = Ok params ->
  _copy_symbolic_subdivision_tier api source_eaf target_eaf source_tier_name
    target_tier_name target_parent_tier_name override_params h = Ok h' ->
  declarations (deref h' target_eaf)
  = (dict_set target_tier_name params (tier_attributes (deref h target_eaf)),
     linguistic_types (deref h target_eaf)).
Proof.
  intros Hp H. unfold _copy_symbolic_subdivision_tier in H. rewrite Hp in H.
  cbn [bind] in H.
  bind_inv_as H ling Hling. bind_inv_as H t Ht. bind_inv_as H anns Hanns.
  bind_inv_as H s' Hloop. injection H as <-.
  apply add_tier_declarations in Ht. rewrite <- Ht.
  apply (for_each_invariant
           (fun s => declarations (deref (chain_store s) target_eaf)
                     = declarations t)
           (chain_step api target_eaf target_tier_name
              target_parent_tier_name))
    with (xs := anns) (s := mk_chain_state (update h target_eaf t) None None);
    [ | cbn [chain_store]; now rewrite deref_update_same | exact Hloop ].
  intros s [[[x0 x1] x2] x3] s1 Hs Hb. unfold chain_step in Hb.
  bind_inv_as Hb t' Ht'. injection Hb as <-. cbn [chain_store].
  rewrite deref_update_same, <- Hs.
  now apply add_ref_annotation_declarations in Ht'.
Qed.

Lemma params_of_empty (h : store) (r : ref) (name : string) (t : tier) :
  dict_get name (tiers (deref h r)) = Some t ->
  params_of h r name [] = Ok (attributes t).
Proof.
  intros Ht. unfold params_of, get_parameters_for_tier, subscript.
  cbn [truthy]. now rewrite Ht.
Qed.

Lemma declared_attributes (e : Eaf) (name : string) (p : attrs)
    (ts ls : dict attrs) :
  declarations e = (dict_set name p ts, ls) ->
  dict_get name (tier_attributes e) = Some p.
Proof.
  intros H. apply declarations_inv in H. destruct H as [-> _].
  apply dict_get_set_same.
Qed.

End CopyEdges.

(** X3.  Called without [override_params], each of the four copies
    declares the target tier with the attributes of the source tier as they
    are: its [TIER_ID] and [PARENT_REF] are those of the source, whatever
    target name and target parent are passed. *)
Theorem copies_reuse_source_attributes (api : ref_api)
    (source_eaf target_eaf : ref)
    (source_tier_name target_tier_name target_parent_tier_name : string)
    (h : store) (source_tier : tier) :
  dict_get source_tier_name (tiers (deref h source_eaf)) = Some source_tier ->
  (forall h',
      _tier_copy api source_eaf target_eaf source_tier_name target_tier_name
        [] h = Ok h' ->
      dict_get target_tier_name (tier_attributes (deref h' target_eaf))
      = Some (attributes source_tier))
  /\ (forall h',
        _tier_copy_to_ref api source_eaf target_eaf source_tier_name
          target_tier_name target_parent_tier_name [] h = Ok h' ->
        dict_get target_tier_name (tier_attributes (deref h' target_eaf))
        = Some (attributes source_tier))
  /\ (forall h',
        _ref_tier_copy api source_eaf target_eaf source_tier_name
          target_tier_name target_parent_tier_name [] h = Ok h' ->
        dict_get target_tier_name (tier_attributes (deref h' target_eaf))
        = Some (attributes source_tier))
  /\ (forall h',
        _copy_symbolic_subdivision_tier api source_eaf target_eaf
          source_tier_name target_tier_name target_parent_tier_name [] h
        = Ok h' ->
        dict_get target_tier_name (tier_attributes (deref h' target_eaf))
        = Some (attributes source_tier)).
Proof.
  intros Hsrc. pose proof (params_of_empty h source_eaf _ _ Hsrc) as Hp.
  repeat split; intros h' H.
  - eapply declared_attributes, _tier_copy_declares; eauto.
  - eapply declared_attributes, _tier_copy_to_ref_declares; eauto.
  - eapply declared_attributes, _ref_tier_copy_declares; eauto.
  - eapply declared_attributes, _copy_symbolic_subdivision_tier_declares;
      eauto.
Qed.

(** X4.  [_tier_copy] and [_tier_copy_to_ref] create the target tier before
    they read the source: when source and target are the same tier of the
    same document, the call returns and the tier is left without any
    annotation. *)
Theorem copy_onto_itself_empties (api : ref_api) (r : ref)
    (name parent : string) (override_params params : attrs)
    (ling : option string) (h : store) :
  params_of h r name override_params = Ok params ->
  dict_get "LINGUISTIC_TYPE_REF" params = Some ling ->
  name <> "" ->
  linguistic_types (deref h r) <> [] ->
  (exists h' t,
      _tier_copy api r r name name override_params h = Ok h'
      /\ dict_get name (tiers (deref h' r)) = Some t
      /\ aligned_annotations t = [] /\ reference_annotations t = [])
  /\ (exists h' t,
        _tier_copy_to_ref api r r name name parent override_params h = Ok h'
        /\ dict_get name (tiers (deref h' r)) = Some t
        /\ aligned_annotations t = [] /\ reference_annotations t = []).
Proof.
  intros Hp Hling Hname Htypes.
  apply subscript_Ok in Hling.
  split.
  - destruct (add_tier_total name ling None (Some params) (deref h r)
                Hname Htypes) as [e1 E1].
    exists (update h r e1), (mk_tier [] [] params (List.length (tiers (deref h r)))).
    unfold _tier_copy. rewrite Hp. cbn [bind]. rewrite Hling. cbn [bind].
    rewrite E1. cbn [bind]. rewrite deref_update_same.
    unfold get_annotation_data_for_tier, subscript.
    rewrite (add_tier_get _ _ _ _ _ _ E1). cbn [bind].
    cbn [reference_annotations aligned_annotations truthy comprehension
         for_each].
    repeat split.
  - destruct (add_tier_total name ling (Some parent) (Some params) (deref h r)
                Hname Htypes) as [e1 E1].
    exists (update h r e1), (mk_tier [] [] params (List.length (tiers (deref h r)))).
    unfold _tier_copy_to_ref. rewrite Hp. cbn [bind]. rewrite Hling.
    cbn [bind]. rewrite E1. cbn [bind]. rewrite deref_update_same.
    unfold get_annotation_data_for_tier, subscript.
    rewrite (add_tier_get _ _ _ _ _ _ E1). cbn [bind].
    cbn [reference_annotations aligned_annotations truthy comprehension
         for_each].
    repeat split.
Qed.

(** X5.  A source tier that does not exist makes a copy raise [KeyError]:
    each of the four copies when it is called without [override_params],
    and [_tier_copy] and [_tier_copy_to_ref] also with them, when the target
    is another document in which the tier can be created. *)
Theorem missing_source_tier (api : ref_api) (source_eaf target_eaf : ref)
    (source_tier_name target_tier_name target_parent_tier_name : string)
    (h : store) :
  dict_get source_tier_name (tiers (deref h source_eaf)) = None ->
  (_tier_copy api source_eaf target_eaf source_tier_name target_tier_name
     [] h = Raise KeyError
   /\ _tier_copy_to_ref api source_eaf target_eaf source_tier_name
        target_tier_name target_parent_tier_name [] h = Raise KeyError
   /\ _ref_tier_copy api source_eaf target_eaf source_tier_name
        target_tier_name target_parent_tier_name [] h = Raise KeyError
   /\ _copy_symbolic_subdivision_tier api source_eaf target_eaf
        source_tier_name target_tier_name target_parent_tier_name [] h
      = Raise KeyError)
  /\ (forall override_params : attrs,
         truthy override_params = true ->
         dict_mem "LINGUISTIC_TYPE_REF" override_params = true ->
         target_tier_name <> "" ->
         linguistic_types (deref h target_eaf) <> [] ->
         source_eaf <> target_eaf ->
         _tier_copy api source_eaf target_eaf source_tier_name
           target_tier_name override_params h = Raise KeyError
         /\ _tier_copy_to_ref api source_eaf target_eaf source_tier_name
              target_tier_name target_parent_tier_name override_params h
            = Raise KeyError).
Proof.
  intros Hnone. split.
  - unfold _tier_copy, _tier_copy_to_ref, _ref_tier_copy,
      _copy_symbolic_subdivision_tier, params_of, get_parameters_for_tier,
      subscript.
    cbn [truthy]. rewrite Hnone. repeat split.
  - intros override_params Htruthy Hmem Hname Htypes Hneq.
    apply dict_mem_subscript in Hmem. destruct Hmem as [ling Hling].
    split.
    + destruct (add_tier_total target_tier_name ling None
                  (Some override_params) (deref h target_eaf) Hname Htypes)
        as [e1 E1].
      unfold _tier_copy, params_of. rewrite Htruthy. cbn [bind].
      rewrite Hling. cbn [bind]. rewrite E1. cbn [bind].
      rewrite deref_update_other by congruence.
      unfold get_annotation_data_for_tier, subscript. now rewrite Hnone.
    + destruct (add_tier_total target_tier_name ling
                  (Some target_parent_tier_name)
                  (Some override_params) (deref h target_eaf) Hname Htypes)
        as [e1 E1].
      unfold _tier_copy_to_ref, params_of. rewrite Htruthy. cbn [bind].
      rewrite Hling. cbn [bind]. rewrite E1. cbn [bind].
      rewrite deref_update_other by congruence.
      unfold get_annotation_data_for_tier, subscript. now rewrite Hnone.
Qed.

(** ** The aggregation as a whole *)

Section AggregationWhole.

Variables (ts : dict Z) (word_tier morph_tier gloss_tier : dict ref_annotation).

Lemma subscript_inv {V : Type} (d : dict V) (k : string) (v : V) :
  subscript d k = Ok v -> dict_get k d = Some v.
Proof.
  unfold subscript. destruct (dict_get k d); [ | discriminate ].
  now intros [= ->].
Qed.

Lemma aggregate_step_entry (new_dict nd : dict word_gloss_list)
    (item : string * aligned_annotation) :
  ~ In (fst item) (dict_keys new_dict) ->
  aggregate_step ts word_tier morph_tier gloss_tier new_dict item = Ok nd ->
  exists entry,
    nd = new_dict ++ [entry]
    /\ entry_of ts word_tier morph_tier gloss_tier item entry.
Proof.
  destruct item as [uid [[[b f] v] svg]]. cbn [fst]. intros Hfresh H.
  unfold aggregate_step in H.
  bind_inv_as H S HS. bind_inv_as H E HE. bind_inv_as H d Hd.
  injection H as <-. rewrite dict_set_fresh by exact Hfresh.
  eexists. split; [ reflexivity | ].
  rewrite collect_word_gloss_spec in *. rewrite length_map in Hd.
  unfold entry_of. cbn [fst snd item_0 item_1 items_from_2 aligned_begin
                        aligned_end].
  split; [ reflexivity | ]. split; [ reflexivity | ].
  split.
  - intros Hnil. rewrite Hnil in Hd. discriminate.
  - exists S, E. repeat split; auto using subscript_inv.
Qed.

Lemma aggregate_loop (items : dict aligned_annotation) :
  forall (acc nd : dict word_gloss_list),
    NoDup (dict_keys items) ->
    (forall k, In k (dict_keys items) -> ~ In k (dict_keys acc)) ->
    for_each (aggregate_step ts word_tier morph_tier gloss_tier) items acc
    = Ok nd ->
    exists out,
      nd = acc ++ out
      /\ Forall2 (entry_of ts word_tier morph_tier gloss_tier) items out.
Proof.
  induction items as [| item items IH]; intros acc nd Hnd Hfresh H.
  - injection H as <-. exists []. now rewrite app_nil_r.
  - cbn [for_each] in H. bind_inv_as H acc1 Hstep.
    unfold dict_keys in Hnd, Hfresh. cbn [map] in Hnd, Hfresh.
    inversion Hnd as [| k ks Hk Hks]; subst.
    destruct (aggregate_step_entry acc acc1 item) as [entry [-> Hentry]];
      [ apply Hfresh; now left | exact Hstep | ].
    destruct (IH (acc ++ [entry]) nd Hks) as [out [-> Hout]]; [ | exact H | ].
    + intros k Hin Hin'. unfold dict_keys in Hin'. rewrite map_app in Hin'.
      apply in_app_or in Hin'. destruct Hin' as [Hin' | [Heq | []]].
      * apply (Hfresh k); [ now right | exact Hin' ].
      * cbn [map] in Heq. destruct Hentry as [Hfst _].
        rewrite Hfst in Heq. rewrite Heq in Hk. contradiction.
    + exists (entry :: out). rewrite <- app_assoc. split; [ reflexivity | ].
      now constructor.
Qed.

End AggregationWhole.

(** X6.  When the aggregation returns, [new_dict] has one entry per
    utterance of the id tier of the second document, in tier order and
    under the utterance's id: the start offset of the utterance, the word
    duration [int((E - S) / n)] and the [[word, gloss]] pairs of its [n]
    words in word-tier order; and every utterance has at least one word. *)
Theorem aggregate_entries (e2 : Eaf) (w m g u : tier)
    (new_dict : dict word_gloss_list) :
  dict_get word_source_tier (tiers e2) = Some w ->
  dict_get morph_source_tier (tiers e2) = Some m ->
  dict_get gloss_source_tier (tiers e2) = Some g ->
  dict_get utterance_id_source_tier (tiers e2) = Some u ->
  NoDup (dict_keys (aligned_annotations u)) ->
  aggregate e2 = Ok new_dict ->
  Forall2
    (entry_of (timeslots e2) (reference_annotations w)
       (reference_annotations m) (reference_annotations g))
    (aligned_annotations u) new_dict.
Proof.
  intros Hw Hm Hg Hu Hnd H. unfold aggregate, subscript in H.
  rewrite Hw, Hm, Hg, Hu in H. cbn [bind] in H.
  apply aggregate_loop in H; [ | exact Hnd | intros k _ [] ].
  destruct H as [out [-> Hout]]. exact Hout.
Qed.

(** ** The emission as a whole *)

Section EmissionWhole.

Lemma numbered_app (first : nat) (l1 l2 : list (string * string)) :
  numbered first (l1 ++ l2)
  = numbered first l1 ++ numbered (first + List.length l1) l2.
Proof.
  unfold numbered. revert first.
  induction l1 as [| x l1 IH]; intros first.
  - cbn [app List.length seq combine map]. now rewrite Nat.add_0_r.
  - cbn [app List.length seq combine map]. rewrite IH.
    now rewrite <- Nat.add_succ_comm.
Qed.

Lemma numbered_length (first : nat) (l : list (string * string)) :
  List.length (numbered first l) = List.length l.
Proof.
  unfold numbered. rewrite length_map, length_combine, length_seq.
  apply Nat.min_id.
Qed.

Lemma new_glosses_numbered (first : nat) (gloss_value : string)
    (cs : dict ref_annotation) :
  new_glosses first gloss_value cs
  = numbered first (map (fun c => (fst c, gloss_value)) cs).
Proof.
  unfold new_glosses, numbered. rewrite length_map. revert first.
  induction cs as [| c cs IH]; intros first; [ reflexivity | ].
  cbn [List.length seq combine map fst snd]. now rewrite IH.
Qed.

Lemma numbered_keys (first : nat) (l : list (string * string)) :
  dict_keys (numbered first l) = map aid_of (seq first (List.length l)).
Proof.
  unfold numbered, dict_keys. revert first.
  induction l as [| x l IH]; intros first; [ reflexivity | ].
  cbn [List.length seq combine map fst]. now rewrite IH.
Qed.

Lemma ids_below_numbered (m : nat) (l : list (string * string)) :
  ids_below (m + List.length l) (numbered (S m) l).
Proof.
  intros k Hk Hin. rewrite numbered_keys in Hin.
  apply in_map_iff in Hin. destruct Hin as [j [Hj Hin]].
  apply aid_of_inj in Hj. apply in_seq in Hin. lia.
Qed.

Lemma add_tier_given (tier_id : string) (ling parent : option string)
    (d : attrs) (e : Eaf) :
  tier_id <> "" -> linguistic_types e <> [] ->
  add_tier tier_id ling parent (Some d) e
  = Ok (set_tiers
          (dict_set tier_id (mk_tier [] [] d (List.length (tiers e)))
             (tiers e)) e).
Proof.
  intros Hid Hl. unfold add_tier.
  destruct (String.eqb_spec tier_id ""); [ contradiction | ].
  destruct (match ling with
            | Some l => dict_mem l (linguistic_types e)
            | None => false
            end); [ reflexivity | ].
  destruct (linguistic_types e) as [| [k v] ks]; [ contradiction | ].
  reflexivity.
Qed.

Lemma glossed_nil (e3 : Eaf) :
  glossed e3 []
  = set_tiers
      (dict_set gloss_target_tier
         (mk_tier [] [] gloss_tier_params (List.length (tiers e3)))
         (tiers e3)) e3.
Proof.
  unfold glossed. cbn [List.length numbered seq combine map].
  rewrite Nat.add_0_r. now destruct e3.
Qed.

Variables (e3 : Eaf) (tw : tier).

Hypothesis word_tier_there :
  dict_get word_target_tier (tiers e3) = Some tw.

Lemma emit_matches_glossed (ann : string * string)
    (links : list (string * string)) :
  emit_matches ann (glossed e3 links)
  = Ok (glossed e3
          (links ++ map (fun c => (fst c, snd ann))
                        (candidates (fst ann) (reference_annotations tw)))).
Proof.
  unfold emit_matches, subscript.
  assert (Hw : dict_get word_target_tier (tiers (glossed e3 links)) = Some tw).
  { unfold glossed. cbn [tiers set_tiers].
    rewrite dict_get_set_other by discriminate. exact word_tier_there. }
  rewrite Hw. cbn [bind].
  rewrite (match_loop ann (reference_annotations tw) (glossed e3 links)
             (mk_tier [] (numbered (S (maxaid e3)) links) gloss_tier_params
                (List.length (tiers e3)))).
  - f_equal. unfold with_glosses, glossed.
    cbn [tiers set_tiers maxaid set_maxaid aligned_annotations
         reference_annotations attributes ordinal adocument annotations
         linguistic_types timeslots maxts].
    rewrite dict_set_set, new_glosses_numbered, numbered_app.
    rewrite !length_app, numbered_length, !length_map.
    cbn [Nat.add]. now rewrite Nat.add_assoc.
  - unfold glossed. cbn [tiers set_tiers]. apply dict_get_set_same.
  - unfold glossed. cbn [maxaid set_tiers set_maxaid reference_annotations].
    apply ids_below_numbered.
Qed.

Lemma emit_word_glossed (utt_start word_dur : Z) (ann : string * string)
    (links : list (string * string)) (c : Z) (ws : list Z) :
  emit_word utt_start word_dur (mk_emit_state (glossed e3 links) c ws) ann
  = Ok (mk_emit_state
          (glossed e3
             (links ++ map (fun c => (fst c, snd ann))
                           (candidates (fst ann) (reference_annotations tw))))
          (c + 1)%Z (ws ++ [(utt_start + word_dur * c)%Z])).
Proof.
  unfold emit_word. cbn [emit_eaf count word_starts].
  now rewrite emit_matches_glossed.
Qed.

Lemma emit_words_glossed (utt_start word_dur : Z)
    (pairs : list (string * string)) :
  forall (links : list (string * string)) (c : Z) (ws : list Z),
  exists c' ws',
    for_each (emit_word utt_start word_dur) pairs
      (mk_emit_state (glossed e3 links) c ws)
    = Ok (mk_emit_state
            (glossed e3
               (links ++ flat_map
                           (fun ann =>
                              map (fun c => (fst c, snd ann))
                                  (candidates (fst ann)
                                     (reference_annotations tw)))
                           pairs))
            c' ws').
Proof.
  induction pairs as [| ann pairs IH]; intros links c ws.
  - exists c, ws. cbn [for_each flat_map]. now rewrite app_nil_r.
  - cbn [for_each flat_map]. rewrite emit_word_glossed.
    cbn [bind]. rewrite app_assoc. apply IH.
Qed.

Lemma emit_utterance_glossed (annotation : word_gloss_list)
    (links : list (string * string)) :
  exists starts,
    emit_utterance (glossed e3 links) annotation
    = Ok (glossed e3
            (links ++ flat_map
                        (fun ann =>
                           map (fun c => (fst c, snd ann))
                               (candidates (fst ann)
                                  (reference_annotations tw)))
                        (items_from_2 annotation)),
          starts).
Proof.
  unfold emit_utterance.
  destruct (emit_words_glossed (item_0 annotation) (item_1 annotation)
              (items_from_2 annotation) links 0%Z [])
    as [c' [ws' ->]].
  cbn [bind emit_eaf word_starts]. eauto.
Qed.

Lemma emit_glossed (new_dict : dict word_gloss_list) :
  forall links : list (string * string),
    for_each
      (fun e3 item => '(e3', _) <- emit_utterance e3 (snd item) ;; Ok e3')
      new_dict (glossed e3 links)
    = Ok (glossed e3
            (links ++ gloss_links (reference_annotations tw) new_dict)).
Proof.
  induction new_dict as [| item new_dict IH]; intros links.
  - cbn [for_each gloss_links flat_map]. now rewrite app_nil_r.
  - cbn [for_each gloss_links flat_map].
    destruct (emit_utterance_glossed (snd item) links) as [starts ->].
    cbn [bind]. rewrite app_assoc. apply IH.
Qed.

End EmissionWhole.

(** X7.  On a target that has the word tier and at least one linguistic
    type, the emission returns, and its result is the target with the tier
    [gloss] holding [gloss_links]: for each utterance of [new_dict] in
    order and each of its [[word, gloss]] pairs in order, one annotation
    per annotation of the word tier whose text is the word, referring to it
    and carrying the gloss, under consecutive fresh identifiers.  Nothing
    else of the document changes: no time slot is created, the word tier is
    left as it is, and the new identifiers are not entered in the registry
    [annotations]. *)
Theorem emission_closed_form (new_dict : dict word_gloss_list) (e3 : Eaf)
    (tw : tier) :
  dict_get word_target_tier (tiers e3) = Some tw ->
  linguistic_types e3 <> [] ->
  emit new_dict e3
  = Ok (glossed e3 (gloss_links (reference_annotations tw) new_dict)).
Proof.
  intros Hw Hl. unfold emit.
  rewrite add_tier_given by (discriminate || exact Hl). cbn [bind].
  rewrite <- glossed_nil.
  now rewrite (emit_glossed e3 tw Hw new_dict []).
Qed.

Lemma emit_words_timing (a b a' b' : Z) (pairs : list (string * string)) :
  forall s s' : emit_state,
    emit_eaf s = emit_eaf s' ->
    result_map emit_eaf (for_each (emit_word a b) pairs s)
    = result_map emit_eaf (for_each (emit_word a' b') pairs s').
Proof.
  induction pairs as [| ann pairs IH]; intros s s' Hs.
  - cbn [for_each result_map]. now rewrite Hs.
  - cbn [for_each]. unfold emit_word. rewrite Hs.
    destruct (emit_matches ann (emit_eaf s')) as [e1 |]; [ | reflexivity ].
    cbn [bind]. now apply IH.
Qed.

(** The document an utterance's loop returns depends on its pairs only. *)
Lemma emit_utterance_timing (e3 : Eaf) (x x' : word_gloss_list) :
  items_from_2 x = items_from_2 x' ->
  ('(e3', _) <- emit_utterance e3 x ;; Ok e3')
  = result_map fst (emit_utterance e3 x').
Proof.
  intros Hitems. unfold emit_utterance. rewrite Hitems.
  pose proof (emit_words_timing (item_0 x) (item_1 x) (item_0 x') (item_1 x')
                (items_from_2 x') (mk_emit_state e3 0%Z [])
                (mk_emit_state e3 0%Z []) eq_refl) as H.
  destruct (for_each (emit_word (item_0 x) (item_1 x)) (items_from_2 x')
              (mk_emit_state e3 0%Z [])) as [r |];
    destruct (for_each (emit_word (item_0 x') (item_1 x')) (items_from_2 x')
                (mk_emit_state e3 0%Z [])) as [r' |];
    cbn [result_map bind fst] in *; congruence.
Qed.

(** X8.  The start offset and the word duration recorded in [new_dict]
    never reach the document: the emission of two dictionaries that hold
    the same [[word, gloss]] pairs, entry by entry, gives the same result,
    be it a document or an error. *)
Theorem emission_ignores_timing (new_dict new_dict' : dict word_gloss_list)
    (e3 : Eaf) :
  map (fun item => items_from_2 (snd item)) new_dict
  = map (fun item => items_from_2 (snd item)) new_dict' ->
  emit new_dict e3 = emit new_dict' e3.
Proof.
  intros Hsame. unfold emit.
  destruct (add_tier gloss_target_tier (Some "Blank") (Some word_target_tier)
              (Some gloss_tier_params) e3) as [e |]; [ | reflexivity ].
  cbn [bind]. revert new_dict' Hsame e.
  induction new_dict as [| item new_dict IH];
    intros [| item' new_dict'] Hsame e; try discriminate; [ reflexivity | ].
  cbn [map] in Hsame. injection Hsame as Hitems Hrest.
  cbn [for_each].
  rewrite (emit_utterance_timing e (snd item) (snd item') Hitems).
  destruct (emit_utterance e (snd item')) as [[e1 starts] |];
    cbn [result_map bind fst]; [ | reflexivity ].
  now apply IH.
Qed.

(** ** Word durations at the edges *)

Lemma int_truediv_quot (a b : Z) :
  (Z.abs a < 2 ^ 53)%Z -> b <> 0%Z -> int_truediv a b = Ok (a ÷ b)%Z.
Proof.
  intros Ha Hb. unfold int_truediv.
  destruct (Z.eqb_spec b 0); [ contradiction | ].
  rewrite (Z.quot_div a b) by exact Hb.
  destruct (Z.eq_dec a 0) as [-> | Hne].
  - reflexivity.
  - rewrite truediv_trunc_exact by lia. reflexivity.
Qed.

(** X9.  For an utterance with span [S, E) shorter than [2^53] and [n > 0]
    words, the synthesized words fit in the utterance: the duration [d] is
    not negative, every word starts at or after [S] and ends, [d] later, at
    or before [E]; and less than [n] milliseconds of the utterance are left
    after the last word. *)
Theorem synthesized_words_fit (eaf_2_timeslots : dict Z)
    (word_tier morph_tier gloss_tier : dict ref_annotation)
    (new_dict : dict word_gloss_list)
    (utterance_id slot_0 slot_1 value : string) (svg : option string)
    (S E : Z) (e3 : Eaf) :
  let word_gloss :=
    collect_word_gloss word_tier morph_tier gloss_tier utterance_id in
  let n := Z.of_nat (List.length word_gloss) in
  dict_get slot_0 eaf_2_timeslots = Some S ->
  dict_get slot_1 eaf_2_timeslots = Some E ->
  (S <= E)%Z -> (E - S < 2 ^ 53)%Z -> (0 < n)%Z ->
  emit_ready e3 ->
  exists d e3' starts,
    aggregate_step eaf_2_timeslots word_tier morph_tier gloss_tier new_dict
      (utterance_id, (slot_0, slot_1, value, svg))
    = Ok (dict_set utterance_id (mk_word_gloss_list S d word_gloss) new_dict)
    /\ emit_utterance e3 (mk_word_gloss_list S d word_gloss)
       = Ok (e3', starts)
    /\ List.length starts = List.length word_gloss
    /\ (0 <= d)%Z
    /\ (forall s, In s starts -> (S <= s /\ s + d <= E)%Z)
    /\ (0 <= E - (S + d * n) < n)%Z.
Proof.
  intros word_gloss n H0 H1 HSE Hbound Hn Hready.
  exists ((E - S) / n)%Z.
  destruct (emit_utterance_spec e3
              (mk_word_gloss_list S ((E - S) / n)%Z word_gloss) Hready)
    as [e3' [_ Hemit]].
  cbn [item_0 item_1 items_from_2] in Hemit.
  eexists e3', _. split; [ | split; [ exact Hemit | ] ].
  - unfold aggregate_step, subscript. rewrite H0, H1. cbn [bind].
    fold word_gloss. fold n. rewrite int_truediv_exact by lia. reflexivity.
  - pose proof (Z.mul_div_le (E - S) n Hn) as Hle.
    pose proof (Z.mod_pos_bound (E - S) n Hn) as Hmod.
    pose proof (Z.div_mod (E - S) n ltac:(lia)) as Hdm.
    assert (Hd : (0 <= (E - S) / n)%Z) by (apply Z.div_pos; lia).
    split; [ now rewrite length_map, length_seq | ].
    split; [ exact Hd | ]. split.
    + intros s Hin. apply in_map_iff in Hin. destruct Hin as [i [<- Hi]].
      apply in_seq in Hi. fold n in Hi.
      assert (Hi' : (Z.of_nat i + 1 <= n)%Z) by (unfold n; lia).
      nia.
    + lia.
Qed.

(** X10.  The aggregation does not reject an utterance whose end slot
    precedes its start slot: for a span below [2^53] in absolute value and
    [n > 0] words it records the quotient of [E - S] by [n] truncated
    toward zero, which for [E < S] is the negated floor of [(S - E) / n]
    and so never positive. *)
Theorem reversed_span_duration (eaf_2_timeslots : dict Z)
    (word_tier morph_tier gloss_tier : dict ref_annotation)
    (new_dict : dict word_gloss_list)
    (utterance_id slot_0 slot_1 value : string) (svg : option string)
    (S E : Z) :
  let word_gloss :=
    collect_word_gloss word_tier morph_tier gloss_tier utterance_id in
  let n := Z.of_nat (List.length word_gloss) in
  dict_get slot_0 eaf_2_timeslots = Some S ->
  dict_get slot_1 eaf_2_timeslots = Some E ->
  (Z.abs (E - S) < 2 ^ 53)%Z -> (0 < n)%Z ->
  aggregate_step eaf_2_timeslots word_tier morph_tier gloss_tier new_dict
    (utterance_id, (slot_0, slot_1, value, svg))
  = Ok (dict_set utterance_id
          (mk_word_gloss_list S ((E - S) ÷ n)%Z word_gloss) new_dict)
  /\ ((E < S)%Z ->
      ((E - S) ÷ n = - ((S - E) / n) /\ (E - S) ÷ n <= 0)%Z).
Proof.
  intros word_gloss n H0 H1 Hbound Hn. split.
  - unfold aggregate_step, subscript. rewrite H0, H1. cbn [bind].
    fold word_gloss. fold n. rewrite int_truediv_quot by lia. reflexivity.
  - intros Hrev.
    assert (Heq : ((E - S) ÷ n = - ((S - E) / n))%Z).
    { replace (E - S)%Z with (- (S - E))%Z by lia.
      rewrite Z.quot_opp_l by lia.
      rewrite Z.quot_div_nonneg by lia. reflexivity. }
    split; [ exact Heq | ]. rewrite Heq.
    assert (0 <= (S - E) / n)%Z by (apply Z.div_pos; lia). lia.
Qed.

(** ** Anchors of the symbolic-subdivision copy *)

Section SubdivisionAnchors.

Variable api : ref_api.

Lemma chain_anchor_loop (target_eaf : ref)
    (target_tier_name target_parent_tier_name : string) (e0 : Eaf)
    (annotations : list (Z * Z * string * string)) :
  forall (s s' : chain_state) (t : tier),
    let e := deref (chain_store s) target_eaf in
    only_tier_changed target_tier_name e0 e ->
    for_each (chain_step api target_eaf target_tier_name
                target_parent_tier_name) annotations s = Ok s' ->
    dict_get target_tier_name (tiers e) = Some t ->
    ids_below (maxaid e) (reference_annotations t) ->
    exists t' out,
      dict_get target_tier_name (tiers (deref (chain_store s') target_eaf))
      = Some t'
      /\ reference_annotations t' = reference_annotations t ++ out
      /\ (annotations <> [] -> aligned_annotations t = [])
      /\ aligned_annotations t' = aligned_annotations t
      /\ Forall2
           (fun x y =>
              anchored_reference api e0 target_tier_name
                target_parent_tier_name (data_start x + 1)%Z (data_value x) y)
           annotations out
      /\ only_tier_changed target_tier_name e0
           (deref (chain_store s') target_eaf).
Proof.
  induction annotations as [| [[[a0 a1] a2] a3] annotations IH];
    intros s s' t e H0 H Ht Hids.
  - injection H as <-. exists t, []. rewrite app_nil_r.
    repeat split; auto; try apply H0. congruence.
  - cbn [for_each] in H. bind_inv_as H s1 Hstep.
    unfold chain_step in Hstep. bind_inv_as Hstep e1 Hadd.
    injection Hstep as <-.
    pose proof (add_ref_annotation_only_tier_changed api _ _ _ _ _ _ _ Hadd)
      as H1.
    destruct (add_ref_annotation_anchor api _ _ _ _ _ _ _ t Ht Hids Hadd)
      as [ann [Hfind [Ha [Ht1 Hmax]]]].
    match type of Ht1 with
    | _ = Some ?t1 =>
        match type of H with
        | for_each _ _ ?s1 = _ => specialize (IH s1 s' t1)
        end
    end.
    cbn zeta in IH. cbn [chain_store] in IH.
    rewrite deref_update_same in IH.
    destruct (IH (only_tier_changed_trans _ _ _ _ H0 H1) H Ht1)
      as [t' [out [Ht' [Hrefs [_ [Hal [Hall Hch]]]]]]].
    + rewrite Hmax.
      cbn [reference_annotations]. now apply ids_below_snoc.
    + cbn [reference_annotations aligned_annotations] in *.
      eexists t', (_ :: out).
      split; [ exact Ht' | ].
      split; [ rewrite Hrefs, <- app_assoc; reflexivity | ].
      split; [ intros _; exact Ha | ].
      split; [ exact Hal | ]. split; [ | exact Hch ].
      constructor; [ | exact Hall ].
      split; [ reflexivity | ]. exists e. split; [ exact H0 | exact Hfind ].
Qed.

End SubdivisionAnchors.

(** X11.  Every annotation the symbolic-subdivision copy creates carries
    the value of its source annotation and is anchored to what the library
    finds in [target_parent_tier_name] one millisecond after the source
    start offset, whatever parent the tier parameters declare.  Nothing
    else of the target changes but the identifier counter and the registry
    of ids. *)
Theorem subdivision_copy_anchors (api : ref_api) (source_eaf target_eaf : ref)
    (source_tier_name target_tier_name target_parent_tier_name : string)
    (override_params : attrs) (h h' : store)
    (annotations : list (Z * Z * string * string)) :
  source_eaf <> target_eaf ->
  get_ref_annotation_data_for_tier api (deref h source_eaf) source_tier_name
  = Ok annotations ->
  _copy_symbolic_subdivision_tier api source_eaf target_eaf source_tier_name
    target_tier_name target_parent_tier_name override_params h = Ok h' ->
  exists t,
    dict_get target_tier_name (tiers (deref h' target_eaf)) = Some t
    /\ aligned_annotations t = []
    /\ Forall2
         (fun x y =>
            anchored_reference api (deref h target_eaf) target_tier_name
              target_parent_tier_name (data_start x + 1)%Z (data_value x) y)
         annotations (reference_annotations t)
    /\ only_tier_changed target_tier_name (deref h target_eaf)
         (deref h' target_eaf).
Proof.
  intros Hne Hdata H. unfold _copy_symbolic_subdivision_tier in H.
  bind_inv_as H params Hparams. bind_inv_as H ling Hling.
  bind_inv_as H e1 Hadd. bind_inv_as H anns Hanns. bind_inv_as H s' Hloop.
  injection H as <-.
  rewrite deref_update_other in Hanns by exact Hne.
  rewrite Hdata in Hanns. injection Hanns as <-.
  pose proof (add_tier_only_tier_changed _ _ _ _ _ _ Hadd) as H1.
  apply add_tier_get in Hadd.
  destruct (chain_anchor_loop api target_eaf target_tier_name
              target_parent_tier_name (deref h target_eaf) annotations
              (mk_chain_state (update h target_eaf e1) None None) s'
              (mk_tier [] [] params
                 (List.length (tiers (deref h target_eaf)))))
    as [t [out [Ht [Hrefs [_ [Hal [Hall Hch]]]]]]].
  - cbn [chain_store]. now rewrite deref_update_same.
  - exact Hloop.
  - cbn [chain_store]. now rewrite deref_update_same.
  - intros k _ [].
  - cbn [reference_annotations aligned_annotations app] in *.
    exists t. rewrite Hrefs.
    repeat split; try assumption; apply Hch.
Qed.

(** ** Spans the library refuses *)

Section InvalidSpans.

Lemma add_annotation_invalid (target_tier_name : string) (e : Eaf)
    (n : nat) (done : list (Z * Z * string)) (s f : Z) (v : string) :
  copying target_tier_name e n done ->
  ~ valid_span (s, f, v) ->
  add_annotation target_tier_name s f v e = Raise ValueError.
Proof.
  intros [t [Ht [Hrefs _]]] Hbad. unfold add_annotation, subscript.
  rewrite Ht. cbn [bind]. rewrite Hrefs. cbn [truthy].
  destruct (Z.eqb_spec s f); [ reflexivity | ].
  destruct (Z.gtb_spec s f); [ reflexivity | ].
  destruct (Z.ltb_spec s 0); [ reflexivity | ].
  exfalso. apply Hbad. unfold valid_span. lia.
Qed.

Lemma copy_loop_invalid (target_tier_name : string)
    (data : list (Z * Z * string)) :
  forall (e : Eaf) (n : nat) (done : list (Z * Z * string)),
    copying target_tier_name e n done ->
    Exists (fun x => ~ valid_span x) data ->
    for_each
      (fun e (x : Z * Z * string) =>
         match x with
         | (a0, a1, a2) => add_annotation target_tier_name a0 a1 a2 e
         end)
      data e = Raise ValueError.
Proof.
  induction data as [| [[s f] v] data IH]; intros e n done Hc Hex.
  - inversion Hex.
  - cbn [for_each].
    assert (Hdec : valid_span (s, f, v) \/ ~ valid_span (s, f, v))
      by (unfold valid_span; lia).
    destruct Hdec as [Hok | Hbad].
    + destruct (add_annotation_step _ _ _ _ s f v Hc Hok)
        as [e1 [-> [Hc1 _]]].
      cbn [bind]. apply (IH _ _ _ Hc1).
      inversion Hex; subst; [ contradiction | assumption ].
    + now rewrite (add_annotation_invalid _ _ _ _ _ _ _ Hc Hbad).
Qed.

End InvalidSpans.

(** X12.  [_tier_copy] stops with [ValueError] when one annotation of the
    source tier is not a span with [0 <= start < end]: a source with an
    annotation of no length, or with its offsets reversed, cannot be
    copied. *)
Theorem invalid_span_aborts_copy (api : ref_api) (source_eaf target_eaf : ref)
    (source_tier_name target_tier_name : string)
    (override_params params : attrs) (ling : option string)
    (h : store) (data : list (Z * Z * string)) :
  source_eaf <> target_eaf ->
  params_of h source_eaf source_tier_name override_params = Ok params ->
  dict_get "LINGUISTIC_TYPE_REF" params = Some ling ->
  target_tier_name <> "" ->
  linguistic_types (deref h target_eaf) <> [] ->
  get_annotation_data_for_tier api (deref h source_eaf) source_tier_name
  = Ok data ->
  Exists (fun x => ~ valid_span x) data ->
  _tier_copy api source_eaf target_eaf source_tier_name target_tier_name
    override_params h = Raise ValueError.
Proof.
  intros Hne Hp Hling Hname Htypes Hdata Hex.
  apply subscript_Ok in Hling.
  destruct (add_tier_total target_tier_name ling None (Some params)
              (deref h target_eaf) Hname Htypes) as [e1 E1].
  rewrite (_tier_copy_as_loop api _ _ _ _ _ params ling h e1 data
             Hne Hp Hling E1 Hdata).
  rewrite (copy_loop_invalid target_tier_name data e1 0 []);
    [ reflexivity | | exact Hex ].
  eapply add_tier_copying. exact E1.
Qed.

(** ** Annotation identifiers are never reused *)

Section FreshIds.

Variable api : ref_api.

Lemma tiers_ids_set_present (ts : dict tier) (name : string) (t t' : tier) :
  dict_get name ts = Some t ->
  exists rest,
    Permutation (tiers_ids ts) (tier_ids t ++ rest)
    /\ Permutation (tiers_ids (dict_set name t' ts)) (tier_ids t' ++ rest).
Proof.
  induction ts as [| [k v] ts IH]; cbn [dict_get dict_set]; [ discriminate | ].
  destruct (String.eqb name k).
  - intros [= ->]. exists (tiers_ids ts). split; apply Permutation_refl.
  - intros H. destruct (IH H) as [rest [P1 P2]].
    exists (tier_ids v ++ rest). unfold tiers_ids in *.
    cbn [flat_map snd]. split.
    + rewrite P1. apply Permutation_app_swap_app.
    + rewrite P2. apply Permutation_app_swap_app.
Qed.

Lemma tiers_ids_set_absent (ts : dict tier) (name : string) (t' : tier) :
  dict_get name ts = None ->
  tiers_ids (dict_set name t' ts) = tiers_ids ts ++ tier_ids t'.
Proof.
  induction ts as [| [k v] ts IH]; cbn [dict_get dict_set].
  - intros _. unfold tiers_ids. cbn [flat_map snd]. now rewrite app_nil_r.
  - destruct (String.eqb name k); [ discriminate | ].
    intros H. unfold tiers_ids in *. cbn [flat_map snd].
    now rewrite IH, app_assoc.
Qed.

(** One annotation under the next identifier is added to a tier. *)
Lemma ids_fresh_put (e e' : Eaf) (name : string) (t t' : tier) :
  ids_fresh e ->
  dict_get name (tiers e) = Some t ->
  tiers e' = dict_set name t' (tiers e) ->
  maxaid e' = S (maxaid e) ->
  Permutation (tier_ids t') (aid_of (S (maxaid e)) :: tier_ids t) ->
  ids_fresh e'.
Proof.
  intros [Hnd Hfresh] Ht Htiers Hmax Hperm.
  destruct (tiers_ids_set_present (tiers e) name t t' Ht) as [rest [P1 P2]].
  assert (P : Permutation (annotation_ids e')
                (aid_of (S (maxaid e)) :: annotation_ids e)).
  { unfold annotation_ids. rewrite Htiers, P2, Hperm, P1. reflexivity. }
  split.
  - apply (Permutation_NoDup (Permutation_sym P)).
    constructor; [ apply Hfresh; lia | exact Hnd ].
  - intros k Hk Hin. rewrite Hmax in Hk.
    apply (Permutation_in _ P) in Hin. destruct Hin as [Heq | Hin].
    + apply aid_of_inj in Heq. lia.
    + apply (Hfresh k); [ lia | exact Hin ].
Qed.

Lemma ids_fresh_add_tier (tier_id : string) (ling parent : option string)
    (d : option attrs) (e e' : Eaf) :
  ids_fresh e -> add_tier tier_id ling parent d e = Ok e' -> ids_fresh e'.
Proof.
  intros [Hnd Hfresh]. unfold add_tier.
  destruct (String.eqb tier_id ""); [ discriminate | ].
  intros H. bind_inv_as H l Hl. injection H as <-.
  unfold ids_fresh, annotation_ids in *. cbn [tiers maxaid set_tiers].
  match goal with
  | |- context [dict_set tier_id ?t0 _] => set (t' := t0)
  end.
  destruct (dict_get tier_id (tiers e)) as [t |] eqn:Ht.
  - destruct (tiers_ids_set_present (tiers e) tier_id t t' Ht)
      as [rest [P1 P2]].
    cbn [tier_ids t' aligned_annotations reference_annotations dict_keys map
         app] in P2.
    split.
    + apply (Permutation_NoDup (Permutation_sym P2)).
      apply (Permutation_NoDup P1) in Hnd.
      now apply NoDup_app_remove_l in Hnd.
    + intros k Hk Hin. apply (Hfresh k Hk).
      apply (Permutation_in _ (Permutation_sym P1)).
      apply in_or_app. right. exact (Permutation_in _ P2 Hin).
  - rewrite tiers_ids_set_absent by exact Ht.
    cbn [tier_ids t' aligned_annotations reference_annotations dict_keys map
         app]. rewrite app_nil_r. now split.
Qed.

Lemma ids_fresh_add_linguistic_type (lingtype : string) (param_dict : attrs)
    (e : Eaf) :
  ids_fresh e -> ids_fresh (add_linguistic_type lingtype param_dict e).
Proof. intros H. exact H. Qed.

Lemma tier_key_in (e : Eaf) (name : string) (t : tier) (k : string) :
  dict_get name (tiers e) = Some t -> In k (tier_ids t) ->
  In k (annotation_ids e).
Proof.
  intros Ht Hin.
  destruct (tiers_ids_set_present (tiers e) name t t Ht) as [rest [P1 _]].
  apply (Permutation_in _ (Permutation_sym P1)), in_or_app. now left.
Qed.

Lemma ids_fresh_add_ref_annotation (id_tier tier2 : string) (time : Z)
    (value : string) (prev : option string) (e e' : Eaf) :
  ids_fresh e ->
  add_ref_annotation api id_tier tier2 time value prev e = Ok e' ->
  ids_fresh e'.
Proof.
  intros Hf H. unfold add_ref_annotation in H. bind_inv_as H t Ht.
  apply subscript_inv in Ht.
  destruct (truthy (aligned_annotations t)); [ discriminate | ].
  bind_inv_as H ann Hann. unfold generate_annotation_id in H.
  rewrite (put_ref_Ok _ _ _ _ t) in H by exact Ht. injection H as <-.
  eapply (ids_fresh_put e _ id_tier t); [ exact Hf | exact Ht | | | ];
    [ cbn [tiers set_tiers set_maxaid set_annotations]; reflexivity
    | reflexivity | ].
  unfold tier_ids. cbn [aligned_annotations reference_annotations].
  rewrite dict_set_fresh.
  - unfold dict_keys. rewrite map_app. cbn [map fst].
    rewrite app_assoc. apply Permutation_sym, Permutation_cons_append.
  - intros Hin. apply (proj2 Hf (S (maxaid e))); [ lia | ].
    apply (tier_key_in e id_tier t _ Ht). unfold tier_ids.
    apply in_or_app. now right.
Qed.

Lemma ids_fresh_add_annotation (id_tier : string) (s f : Z) (v : string)
    (e e' : Eaf) :
  ids_fresh e -> add_annotation id_tier s f v e = Ok e' -> ids_fresh e'.
Proof.
  intros Hf H. unfold add_annotation in H. bind_inv_as H t Ht.
  apply subscript_inv in Ht.
  destruct (truthy (reference_annotations t)); [ discriminate | ].
  destruct (s =? f)%Z; [ discriminate | ].
  destruct (s >? f)%Z; [ discriminate | ].
  destruct (s <? 0)%Z; [ discriminate | ].
  unfold generate_ts_id in H.
  destruct (s <? 0)%Z; [ discriminate | ]. cbn [bind] in H.
  destruct (f <? 0)%Z; [ discriminate | ]. cbn [bind] in H.
  unfold generate_annotation_id, put_aligned, subscript in H.
  cbn [tiers maxaid set_tiers set_maxaid set_annotations set_timeslots
       set_maxts] in H.
  rewrite Ht in H. cbn [bind] in H. injection H as <-.
  eapply (ids_fresh_put e _ id_tier t); [ exact Hf | exact Ht | | | ];
    [ cbn [tiers set_tiers set_maxaid set_annotations]; reflexivity
    | reflexivity | ].
  unfold tier_ids. cbn [aligned_annotations reference_annotations].
  rewrite dict_set_fresh.
  - unfold dict_keys. rewrite map_app. cbn [map fst].
    rewrite <- app_assoc. apply Permutation_sym, Permutation_cons_app.
    cbn [app]. apply Permutation_refl.
  - intros Hin. apply (proj2 Hf (S (maxaid e))); [ lia | ].
    apply (tier_key_in e id_tier t _ Ht). unfold tier_ids.
    apply in_or_app. now left.
Qed.

Lemma ids_fresh_match_step (ann : string * string) (e3 e3' : Eaf)
    (item : string * ref_annotation) :
  ids_fresh e3 -> match_step ann e3 item = Ok e3' -> ids_fresh e3'.
Proof.
  destruct item as [aid [[[r v] p] svg]]. intros Hf H. unfold match_step in H.
  destruct (String.eqb (fst ann) v); [ | now injection H as <- ].
  unfold generate_annotation_id, put_ref in H. bind_inv_as H t Ht.
  apply subscript_inv in Ht. cbn [tiers set_maxaid] in Ht.
  injection H as <-.
  eapply (ids_fresh_put e3 _ gloss_target_tier t);
    [ exact Hf | exact Ht | | | ];
    [ cbn [tiers set_tiers set_maxaid set_annotations]; reflexivity
    | reflexivity | ].
  unfold tier_ids. cbn [aligned_annotations reference_annotations].
  rewrite dict_set_fresh.
  - unfold dict_keys. rewrite map_app. cbn [map fst].
    rewrite app_assoc. apply Permutation_sym, Permutation_cons_append.
  - intros Hin. apply (proj2 Hf (S (maxaid e3))); [ lia | ].
    apply (tier_key_in e3 gloss_target_tier t _ Ht). unfold tier_ids.
    apply in_or_app. now right.
Qed.

Lemma ids_fresh_emit (new_dict : dict word_gloss_list) (e3 e3' : Eaf) :
  ids_fresh e3 -> emit new_dict e3 = Ok e3' -> ids_fresh e3'.
Proof.
  intros Hf H. unfold emit in H. bind_inv_as H e Hadd.
  apply (ids_fresh_add_tier _ _ _ _ _ _ Hf) in Hadd.
  apply (for_each_invariant ids_fresh
           (fun e3 item =>
              '(e3', _) <- emit_utterance e3 (snd item) ;; Ok e3'))
    with (xs := new_dict) (s := e); [ | exact Hadd | exact H ].
  intros s item s' Hs Hb. bind_inv_as Hb r Hr. destruct r as [e1 starts].
  injection Hb as <-. unfold emit_utterance in Hr. bind_inv_as Hr st Hst.
  injection Hr as <- _.
  apply (for_each_invariant (fun s => ids_fresh (emit_eaf s))
           (emit_word (item_0 (snd item)) (item_1 (snd item))))
    with (xs := items_from_2 (snd item)) (s := mk_emit_state s 0%Z []);
    [ | exact Hs | exact Hst ].
  intros s0 ann s1 Hs0 Hw. unfold emit_word in Hw. bind_inv_as Hw e2 He2.
  injection Hw as <-. cbn [emit_eaf].
  unfold emit_matches in He2. bind_inv_as He2 t2 Ht2.
  apply (for_each_invariant ids_fresh (match_step ann))
    with (xs := reference_annotations t2) (s := emit_eaf s0);
    [ | exact Hs0 | exact He2 ].
  intros a x b Ha Hx. exact (ids_fresh_match_step ann a b x Ha Hx).
Qed.

(** A loop on the store whose iterations keep the identifiers of the
    target fresh. *)
Lemma ids_fresh_loop {A : Type} (target_eaf : ref)
    (body : store -> A -> result store) (xs : list A) (h h' : store) :
  (forall s x s', ids_fresh (deref s target_eaf) -> body s x = Ok s' ->
                  ids_fresh (deref s' target_eaf)) ->
  ids_fresh (deref h target_eaf) ->
  for_each body xs h = Ok h' ->
  ids_fresh (deref h' target_eaf).
Proof.
  intros Hbody Hh H.
  exact (for_each_invariant (fun s => ids_fresh (deref s target_eaf)) body
           Hbody xs h h' Hh H).
Qed.

Lemma ids_fresh__tier_copy (source_eaf target_eaf : ref)
    (source_tier_name target_tier_name : string) (override_params : attrs)
    (h h' : store) :
  ids_fresh (deref h target_eaf) ->
  _tier_copy api source_eaf target_eaf source_tier_name target_tier_name
    override_params h = Ok h' ->
  ids_fresh (deref h' target_eaf).
Proof.
  intros Hf H. unfold _tier_copy in H.
  bind_inv_as H params Hp. bind_inv_as H ling Hling. bind_inv_as H t Ht.
  bind_inv_as H anns Hanns.
  apply (ids_fresh_add_tier _ _ _ _ _ _ Hf) in Ht.
  eapply ids_fresh_loop; [ | | exact H ];
    [ | now rewrite deref_update_same ].
  intros s [[x0 x1] x2] s' Hs Hb. bind_inv_as Hb t' Ht'. injection Hb as <-.
  rewrite deref_update_same. eapply ids_fresh_add_annotation; eauto.
Qed.

Lemma ids_fresh__tier_copy_to_ref (source_eaf target_eaf : ref)
    (source_tier_name target_tier_name target_parent_tier_name : string)
    (override_params : attrs) (h h' : store) :
  ids_fresh (deref h target_eaf) ->
  _tier_copy_to_ref api source_eaf target_eaf source_tier_name
    target_tier_name target_parent_tier_name override_params h = Ok h' ->
  ids_fresh (deref h' target_eaf).
Proof.
  intros Hf H. unfold _tier_copy_to_ref in H.
  bind_inv_as H params Hp. bind_inv_as H ling Hling. bind_inv_as H t Ht.
  bind_inv_as H anns Hanns.
  apply (ids_fresh_add_tier _ _ _ _ _ _ Hf) in Ht.
  eapply ids_fresh_loop; [ | | exact H ];
    [ | now rewrite deref_update_same ].
  intros s [[x0 x1] x2] s' Hs Hb. bind_inv_as Hb t' Ht'. injection Hb as <-.
  rewrite deref_update_same. eapply ids_fresh_add_ref_annotation; eauto.
Qed.

Lemma ids_fresh__ref_tier_copy (source_eaf target_eaf : ref)
    (source_tier_name target_tier_name target_parent_tier_name : string)
    (override_params : attrs) (h h' : store) :
  ids_fresh (deref h target_eaf) ->
  _ref_tier_copy api source_eaf target_eaf source_tier_name
    target_tier_name target_parent_tier_name override_params h = Ok h' ->
  ids_fresh (deref h' target_eaf).
Proof.
  intros Hf H. unfold _ref_tier_copy in H.
  bind_inv_as H params Hp. bind_inv_as H ling Hling. bind_inv_as H t Ht.
  bind_inv_as H anns Hanns.
  apply (ids_fresh_add_tier _ _ _ _ _ _ Hf) in Ht.
  eapply ids_fresh_loop; [ | | exact H ];
    [ | now rewrite deref_update_same ].
  intros s [[[x0 x1] x2] x3] s' Hs Hb. bind_inv_as Hb t' Ht'.
  injection Hb as <-.
  rewrite deref_update_same. eapply ids_fresh_add_ref_annotation; eauto.
Qed.

Lemma ids_fresh__copy_symbolic_subdivision_tier (source_eaf target_eaf : ref)
    (source_tier_name target_tier_name target_parent_tier_name : string)
    (override_params : attrs) (h h' : store) :
  ids_fresh (deref h target_eaf) ->
  _copy_symbolic_subdivision_tier api source_eaf target_eaf source_tier_name
    target_tier_name target_parent_tier_name override_params h = Ok h' ->
  ids_fresh (deref h' target_eaf).
Proof.
  intros Hf H. unfold _copy_symbolic_subdivision_tier in H.
  bind_inv_as H params Hp. bind_inv_as H ling Hling. bind_inv_as H t Ht.
  bind_inv_as H anns Hanns. bind_inv_as H s' Hloop. injection H as <-.
  apply (ids_fresh_add_tier _ _ _ _ _ _ Hf) in Ht.
  apply (for_each_invariant
           (fun s => ids_fresh (deref (chain_store s) target_eaf))
           (chain_step api target_eaf target_tier_name
              target_parent_tier_name))
    with (xs := anns) (s := mk_chain_state (update h target_eaf t) None None);
    [ | cbn [chain_store]; now rewrite deref_update_same | exact Hloop ].
  intros s [[[x0 x1] x2] x3] s1 Hs Hb. unfold chain_step in Hb.
  bind_inv_as Hb t' Ht'. injection Hb as <-. cbn [chain_store].
  rewrite deref_update_same. eapply ids_fresh_add_ref_annotation; eauto.
Qed.

End FreshIds.

(** X13.  Each of the four copies and the emission keeps the annotation
    identifiers of the target fresh: on a target where no identifier names
    two annotations and none above the counter is in use, the same holds
    once the procedure has returned. *)
Theorem procedures_keep_ids_fresh (api : ref_api)
    (source_eaf target_eaf : ref)
    (source_tier_name target_tier_name target_parent_tier_name : string)
    (override_params : attrs) (new_dict : dict word_gloss_list)
    (h : store) :
  ids_fresh (deref h target_eaf) ->
  (forall h',
      _tier_copy api source_eaf target_eaf source_tier_name target_tier_name
        override_params h = Ok h' -> ids_fresh (deref h' target_eaf))
  /\ (forall h',
        _tier_copy_to_ref api source_eaf target_eaf source_tier_name
          target_tier_name target_parent_tier_name override_params h = Ok h' ->
        ids_fresh (deref h' target_eaf))
  /\ (forall h',
        _ref_tier_copy api source_eaf target_eaf source_tier_name
          target_tier_name target_parent_tier_name override_params h = Ok h' ->
        ids_fresh (deref h' target_eaf))
  /\ (forall h',
        _copy_symbolic_subdivision_tier api source_eaf target_eaf
          source_tier_name target_tier_name target_parent_tier_name
          override_params h = Ok h' ->
        ids_fresh (deref h' target_eaf))
  /\ (forall e3',
        emit new_dict (deref h target_eaf) = Ok e3' -> ids_fresh e3').
Proof.
  intros Hf.
  split; [ intros r Hr; exact (ids_fresh__tier_copy api _ _ _ _ _ _ _ Hf Hr) | ].
  split; [ intros r Hr;
           exact (ids_fresh__tier_copy_to_ref api _ _ _ _ _ _ _ _ Hf Hr) | ].
  split; [ intros r Hr;
           exact (ids_fresh__ref_tier_copy api _ _ _ _ _ _ _ _ Hf Hr) | ].
  split; [ intros r Hr;
           exact (ids_fresh__copy_symbolic_subdivision_tier api
                    _ _ _ _ _ _ _ _ Hf Hr) | ].
  intros r Hr. exact (ids_fresh_emit new_dict _ _ Hf Hr).
Qed.

(** X14.  Whatever the two input documents are, when [main] returns no
    identifier names two annotations of the merged document, across all of
    its tiers. *)
Theorem merged_ids_distinct (api : ref_api) (author date : string)
    (file_1 file_2 : Eaf) (h' : store) :
  main api author date file_1 file_2 = Ok h' ->
  NoDup (annotation_ids (deref h' eaf_3)).
Proof.
  intros H. unfold main, main_from in H.
  bind_inv_as H h4 Hcopy. bind_inv_as H nd Hagg. bind_inv_as H e3 Hemit.
  injection H as <-. cbn [deref update obj_1 obj_2 obj_3].
  apply (ids_fresh_emit nd _ _) in Hemit; [ apply Hemit | ].
  clear Hemit Hagg nd e3.
  unfold copy_tiers in Hcopy.
  bind_inv_as Hcopy e0 Hrm. bind_inv_as Hcopy h1 H1.
  bind_inv_as Hcopy h2 H2. bind_inv_as Hcopy h3 H3.
  assert (F0 : ids_fresh e0).
  { cbn [deref obj_3] in Hrm. vm_compute in Hrm. injection Hrm as <-.
    split; [ constructor | intros k _ [] ]. }
  apply ids_fresh__tier_copy in H1;
    [ | cbn [deref update obj_1 obj_2 obj_3]; exact F0 ].
  apply ids_fresh__tier_copy_to_ref in H2;
    [ | rewrite deref_update_same; apply ids_fresh_add_linguistic_type;
        exact H1 ].
  apply ids_fresh__ref_tier_copy in H3; [ | exact H2 ].
  apply ids_fresh__copy_symbolic_subdivision_tier in Hcopy;
    [ exact Hcopy | ].
  rewrite deref_update_same. apply ids_fresh_add_linguistic_type.
  exact H3.
Qed.

(** ** The media descriptor *)

Section MediaFacts.

Variable Doc : Type.
Variable media_descriptors : Doc -> list (dict string).
Variable add_linked_file : string -> string -> string -> Doc -> result Doc.

Lemma insert_item_length (x : string * string) (l : list (string * string)) :
  List.length (insert_item x l) = S (List.length l).
Proof.
  induction l as [| y l IH]; cbn [insert_item]; [ reflexivity | ].
  destruct (item_leb x y); cbn [List.length]; now rewrite ?IH.
Qed.

Lemma sorted_length (d : dict string) :
  List.length (sorted d) = List.length d.
Proof.
  induction d as [| x d IH]; [ reflexivity | ].
  unfold sorted in *. cbn [fold_right]. now rewrite insert_item_length, IH.
Qed.

Lemma compare_lt_trans (a b c : string) :
  String.compare a b = Lt -> String.compare b c = Lt ->
  String.compare a c = Lt.
Proof.
  intros H1 H2.
  apply OrderedTypeEx.String_as_OT.cmp_lt in H1, H2.
  apply OrderedTypeEx.String_as_OT.cmp_lt.
  exact (OrderedTypeEx.String_as_OT.lt_trans _ _ _ H1 H2).
Qed.

Lemma compare_lt_gt (a b : string) :
  String.compare a b = Lt -> String.compare b a = Gt.
Proof. intros H. rewrite String.compare_antisym, H. reflexivity. Qed.

Lemma compare_lt_neq (a b : string) : String.compare a b = Lt -> a <> b.
Proof.
  intros H ->.
  assert (E : String.compare b b = Eq)
    by (apply OrderedTypeEx.String_as_OT.cmp_eq; reflexivity).
  congruence.
Qed.

(** Three items under increasing keys, in any order, are sorted by key. *)
Lemma sorted_three (d : dict string) (k1 k2 k3 v1 v2 v3 : string) :
  Permutation d [(k1, v1); (k2, v2); (k3, v3)] ->
  String.compare k1 k2 = Lt -> String.compare k2 k3 = Lt ->
  sorted d = [(k1, v1); (k2, v2); (k3, v3)].
Proof.
  intros P C12 C23.
  pose proof (compare_lt_trans _ _ _ C12 C23) as C13.
  pose proof (compare_lt_gt _ _ C12) as C21.
  pose proof (compare_lt_gt _ _ C23) as C32.
  pose proof (compare_lt_gt _ _ C13) as C31.
  pose proof (compare_lt_neq _ _ C12) as N12.
  pose proof (compare_lt_neq _ _ C23) as N23.
  pose proof (compare_lt_neq _ _ C13) as N13.
  assert (Hnd : NoDup d).
  { apply (Permutation_NoDup (Permutation_sym P)).
    repeat constructor; cbn [In]; intros H;
      repeat (destruct H as [H | H]; [ injection H as ? ?; congruence | ]);
      exact H. }
  pose proof (Permutation_length P) as Hlen.
  destruct d as [| a [| b [| c [| ? ?]]]]; try discriminate Hlen.
  assert (Ha : In a [(k1, v1); (k2, v2); (k3, v3)])
    by (apply (Permutation_in _ P); cbn [In]; auto).
  assert (Hb : In b [(k1, v1); (k2, v2); (k3, v3)])
    by (apply (Permutation_in _ P); cbn [In]; auto).
  assert (Hc : In c [(k1, v1); (k2, v2); (k3, v3)])
    by (apply (Permutation_in _ P); cbn [In]; auto).
  inversion Hnd as [| ? ? Hab Hnd']; subst.
  inversion Hnd' as [| ? ? Hbc _]; subst.
  cbn [In] in Ha, Hb, Hc, Hab, Hbc.
  destruct Ha as [<- | [<- | [<- | []]]];
    destruct Hb as [<- | [<- | [<- | []]]];
    try (exfalso; apply Hab; auto; fail);
    destruct Hc as [<- | [<- | [<- | []]]];
    try (exfalso; apply Hab; auto; fail);
    try (exfalso; apply Hbc; auto; fail);
    unfold sorted; cbn [fold_right insert_item];
    repeat (progress (unfold item_leb; cbn [insert_item fst snd];
                      rewrite ?C12, ?C23, ?C13, ?C21, ?C32, ?C31));
    reflexivity.
Qed.

End MediaFacts.

(** X15.  [copy_media] raises [IndexError] when the first document has no
    media descriptor, and [ValueError] when its first descriptor does not
    have exactly three attributes; in both cases nothing is linked. *)
Theorem copy_media_errors (Doc : Type)
    (media_descriptors : Doc -> list (dict string))
    (add_linked_file : string -> string -> string -> Doc -> result Doc)
    (eaf_1 eaf_3 : Doc) :
  (media_descriptors eaf_1 = [] ->
   copy_media Doc media_descriptors add_linked_file eaf_1 eaf_3
   = Raise IndexError)
  /\ (forall d rest,
         media_descriptors eaf_1 = d :: rest ->
         List.length d <> 3 ->
         copy_media Doc media_descriptors add_linked_file eaf_1 eaf_3
         = Raise ValueError).
Proof.
  split.
  - intros H. unfold copy_media. now rewrite H.
  - intros d rest H Hlen. unfold copy_media. rewrite H. cbn [bind].
    pose proof (sorted_length d) as Hs.
    pose proof (length_map snd (sorted d)) as Hm.
    destruct (map snd (sorted d)) as [| a [| b [| c [| ? ?]]]];
      try reflexivity.
    cbn [List.length] in Hm. congruence.
Qed.

(** X16.  [copy_media] hands the three values of the first descriptor over
    by the alphabetical order of their keys, not by their names: with the
    keys [k1 < k2 < k3], in whatever order the descriptor holds them, the
    value of [k1] is passed as [file_path], that of [k2] as [mimetype] and
    that of [k3] as [relpath].  The other descriptors are not read. *)
Theorem copy_media_by_key_order (Doc : Type)
    (media_descriptors : Doc -> list (dict string))
    (add_linked_file : string -> string -> string -> Doc -> result Doc)
    (eaf_1 eaf_3 : Doc) (d : dict string) (rest : list (dict string))
    (k1 k2 k3 v1 v2 v3 : string) :
  media_descriptors eaf_1 = d :: rest ->
  Permutation d [(k1, v1); (k2, v2); (k3, v3)] ->
  String.compare k1 k2 = Lt -> String.compare k2 k3 = Lt ->
  copy_media Doc media_descriptors add_linked_file eaf_1 eaf_3
  = add_linked_file v1 v2 v3 eaf_3.
Proof.
  intros H P C12 C23. unfold copy_media. rewrite H. cbn [bind].
  now rewrite (sorted_three d k1 k2 k3 v1 v2 v3 P C12 C23).
Qed.

(** ** What [main] needs of its inputs *)

Lemma subscript_mem {V : Type} (d : dict V) (k : string) (v : V) :
  subscript d k = Ok v -> dict_mem k d = true.
Proof.
  intros H. apply subscript_inv in H. unfold dict_mem. now rewrite H.
Qed.

(** X17.  [main] returns only when the second document has the tiers
    [A_phrase-segnum-en], [A_word-txt-qaa-fonipa-x-eib],
    [A_morph-txt-qaa-fonipa-x-eib] and [A_morph-gls-en], and the first
    document the tier [DDD_Transcription-txt-qaa-fonipa-x-eib]. *)
Theorem main_needs_tiers (api : ref_api) (author date : string)
    (file_1 file_2 : Eaf) (h' : store) :
  main api author date file_1 file_2 = Ok h' ->
  dict_mem utterance_id_source_tier (tiers file_2) = true
  /\ dict_mem word_source_tier (tiers file_2) = true
  /\ dict_mem morph_source_tier (tiers file_2) = true
  /\ dict_mem gloss_source_tier (tiers file_2) = true
  /\ dict_mem utterance_source_tier (tiers file_1) = true.
Proof.
  intros H. unfold main, main_from in H.
  bind_inv_as H h4 Hcopy. bind_inv_as H nd Hagg. clear H.
  pose proof (copy_tiers_frame api _ _ Hcopy eaf_2 ltac:(discriminate))
    as Hsame.
  cbn [deref obj_2] in Hsame. cbn [deref] in Hagg. rewrite Hsame in Hagg.
  unfold aggregate in Hagg.
  bind_inv_as Hagg w Hw. bind_inv_as Hagg m Hm. bind_inv_as Hagg g Hg.
  bind_inv_as Hagg u Hu.
  repeat (split; [ eapply subscript_mem; eassumption | ]).
  clear Hagg Hw Hm Hg Hu Hsame.
  unfold copy_tiers in Hcopy.
  bind_inv_as Hcopy e0 Hrm. bind_inv_as Hcopy h1 H1.
  bind_inv_as Hcopy h2 H2. clear Hcopy.
  pose proof (_tier_copy_frame api _ _ _ _ _ _ _ H1 eaf_1 ltac:(discriminate))
    as Hsame.
  rewrite deref_update_other in Hsame by discriminate.
  cbn [deref obj_1] in Hsame.
  unfold _tier_copy_to_ref in H2.
  bind_inv_as H2 params Hp. bind_inv_as H2 ling Hling.
  bind_inv_as H2 t Ht. bind_inv_as H2 anns Hanns. clear H2.
  rewrite !deref_update_other in Hanns by discriminate.
  cbn [deref] in Hanns. rewrite Hsame in Hanns.
  unfold get_annotation_data_for_tier in Hanns.
  bind_inv_as Hanns src Hsrc. eapply subscript_mem. exact Hsrc.
Qed.

(** ** [main] as the composition of its phases *)

Section MainComposition.

Variable api : ref_api.

Lemma add_ref_annotation_tier (id_tier tier2 : string) (time : Z)
    (value : string) (prev : option string) (e e' : Eaf) :
  add_ref_annotation api id_tier tier2 time value prev e = Ok e' ->
  dict_mem id_tier (tiers e') = true.
Proof.
  unfold add_ref_annotation. intros H. bind_inv_as H t Ht.
  destruct (truthy (aligned_annotations t)); [ discriminate | ].
  bind_inv_as H ann Hann. cbn [generate_annotation_id] in H.
  unfold put_ref in H. bind_inv_as H t' Ht'. injection H as <-.
  unfold dict_mem. cbn [tiers set_tiers]. now rewrite dict_get_set_same.
Qed.

Lemma _copy_symbolic_subdivision_tier_tier (source_eaf target_eaf : ref)
    (source_tier_name target_tier_name target_parent_tier_name : string)
    (override_params : attrs) (h h' : store) :
  _copy_symbolic_subdivision_tier api source_eaf target_eaf source_tier_name
    target_tier_name target_parent_tier_name override_params h = Ok h' ->
  dict_mem target_tier_name (tiers (deref h' target_eaf)) = true.
Proof.
  intros H. unfold _copy_symbolic_subdivision_tier in H.
  bind_inv_as H params Hp. bind_inv_as H ling Hling. bind_inv_as H t Ht.
  bind_inv_as H anns Hanns. bind_inv_as H s' Hloop. injection H as <-.
  apply add_tier_get in Ht.
  apply (for_each_invariant
           (fun s => dict_mem target_tier_name
                       (tiers (deref (chain_store s) target_eaf)) = true)
           (chain_step api target_eaf target_tier_name
              target_parent_tier_name))
    with (xs := anns) (s := mk_chain_state (update h target_eaf t) None None);
    [ | | exact Hloop ].
  - intros s [[[x0 x1] x2] x3] s1 _ Hb. unfold chain_step in Hb.
    bind_inv_as Hb t' Ht'. injection Hb as <-. cbn [chain_store].
    rewrite deref_update_same. eapply add_ref_annotation_tier. exact Ht'.
  - cbn [chain_store]. rewrite deref_update_same. unfold dict_mem.
    now rewrite Ht.
Qed.

Lemma add_tier_types (tier_id : string) (ling parent : option string)
    (d : option attrs) (e e' : Eaf) :
  add_tier tier_id ling parent d e = Ok e' -> linguistic_types e <> [].
Proof.
  unfold add_tier. destruct (String.eqb tier_id ""); [ discriminate | ].
  intros H Hnil. rewrite Hnil in H. unfold dict_mem in H.
  destruct ling; cbn [dict_get dict_keys map bind] in H; discriminate.
Qed.

End MainComposition.

(** X18.  When [main] returns, its result is the composition of its three
    phases: the store the copies leave, with the target replaced by the
    closed form of the emission, [glossed], for the dictionary aggregated
    from the second document as it was loaded and the word tier as the
    copies left it. *)
Theorem main_composition (api : ref_api) (author date : string)
    (file_1 file_2 : Eaf) (h' : store) :
  main api author date file_1 file_2 = Ok h' ->
  exists h4 new_dict tw,
    copy_tiers api (mk_store file_1 file_2 (Eaf_new author date)) = Ok h4
    /\ aggregate file_2 = Ok new_dict
    /\ dict_get word_target_tier (tiers (deref h4 eaf_3)) = Some tw
    /\ h' = update h4 eaf_3
              (glossed (deref h4 eaf_3)
                 (gloss_links (reference_annotations tw) new_dict)).
Proof.
  intros H. unfold main, main_from in H.
  bind_inv_as H h4 Hcopy. bind_inv_as H nd Hagg. bind_inv_as H e3 Hemit.
  pose proof (copy_tiers_frame api _ _ Hcopy eaf_2 ltac:(discriminate))
    as Hsame.
  cbn [deref obj_2] in Hsame. cbn [deref] in Hagg. rewrite Hsame in Hagg.
  assert (Hword : dict_mem word_target_tier (tiers (deref h4 eaf_3)) = true).
  { pose proof Hcopy as Hc. unfold copy_tiers in Hc.
    bind_inv_as Hc e0 Hrm. bind_inv_as Hc h1 H1. bind_inv_as Hc h2 H2.
    bind_inv_as Hc h3 H3.
    eapply _copy_symbolic_subdivision_tier_tier. exact Hc. }
  unfold dict_mem in Hword.
  destruct (dict_get word_target_tier (tiers (deref h4 eaf_3)))
    as [tw |] eqn:Htw; [ | discriminate ].
  exists h4, nd, tw. repeat split; try assumption.
  assert (Htypes : linguistic_types (deref h4 eaf_3) <> []).
  { unfold emit in Hemit. bind_inv_as Hemit e Hadd.
    eapply add_tier_types. exact Hadd. }
  cbn [deref] in Hemit. unfold emit in Hemit.
  rewrite add_tier_given in Hemit by (discriminate || exact Htypes).
  cbn [bind] in Hemit. rewrite <- glossed_nil in Hemit.
  rewrite (emit_glossed (obj_3 h4) tw Htw nd []) in Hemit.
  cbn [app] in Hemit. injection Hemit as <-. injection H as <-.
  reflexivity.
Qed.

(** ** The time slots of the merged document *)

Section TimeSlots.

Variable api : ref_api.

Lemma add_annotation_slots (id_tier : string) (s f : Z) (v : string)
    (e e' : Eaf) :
  slots_fresh e ->
  add_annotation id_tier s f v e = Ok e' ->
  timeslots e'
  = timeslots e ++ [(tsid_of (S (maxts e)), s);
                    (tsid_of (S (S (maxts e))), f)]
  /\ maxts e' = S (S (maxts e))
  /\ slots_fresh e'.
Proof.
  intros Hf H. unfold add_annotation in H. bind_inv_as H t Ht.
  apply subscript_inv in Ht.
  destruct (truthy (reference_annotations t)); [ discriminate | ].
  destruct (s =? f)%Z; [ discriminate | ].
  destruct (s >? f)%Z; [ discriminate | ].
  destruct (s <? 0)%Z; [ discriminate | ].
  unfold generate_ts_id in H.
  destruct (s <? 0)%Z; [ discriminate | ]. cbn [bind] in H.
  destruct (f <? 0)%Z; [ discriminate | ]. cbn [bind] in H.
  unfold generate_annotation_id, put_aligned, subscript in H.
  cbn [tiers maxaid maxts timeslots set_tiers set_maxaid set_annotations
       set_timeslots set_maxts] in H.
  rewrite Ht in H. cbn [bind] in H. injection H as <-.
  cbn [tiers maxaid maxts timeslots set_tiers set_maxaid set_annotations
       set_timeslots set_maxts].
  assert (E1 : dict_set (tsid_of (S (maxts e))) s (timeslots e)
               = timeslots e ++ [(tsid_of (S (maxts e)), s)])
    by (apply dict_set_fresh, Hf; lia).
  assert (E2 : dict_set (tsid_of (S (S (maxts e)))) f
                 (timeslots e ++ [(tsid_of (S (maxts e)), s)])
               = (timeslots e ++ [(tsid_of (S (maxts e)), s)])
                   ++ [(tsid_of (S (S (maxts e))), f)]).
  { apply dict_set_fresh. unfold dict_keys. rewrite map_app.
    intros Hin. apply in_app_or in Hin. destruct Hin as [Hin | [Heq | []]].
    - apply (Hf (S (S (maxts e)))); [ lia | exact Hin ].
    - cbn [fst] in Heq. apply tsid_of_inj in Heq. lia. }
  rewrite E1, E2, <- app_assoc. split; [ reflexivity | ].
  split; [ reflexivity | ].
  intros k Hk Hin. unfold slots_fresh, dict_keys in *.
  cbn [tiers maxaid maxts timeslots set_tiers set_maxaid set_annotations
       set_timeslots set_maxts] in Hk, Hin.
  rewrite !map_app in Hin.
  apply in_app_or in Hin. destruct Hin as [Hin | Hin].
  - apply (Hf k); [ lia | exact Hin ].
  - cbn [map fst app In] in Hin.
    destruct Hin as [Heq | [Heq | []]]; apply tsid_of_inj in Heq; lia.
Qed.

Lemma copy_loop_slots (target_tier_name : string)
    (data : list (Z * Z * string)) :
  forall e e' : Eaf,
    slots_fresh e ->
    for_each
      (fun e (x : Z * Z * string) =>
         match x with
         | (a0, a1, a2) => add_annotation target_tier_name a0 a1 a2 e
         end)
      data e = Ok e' ->
    timeslots e' = timeslots e ++ span_slots (maxts e) data.
Proof.
  induction data as [| [[s f] v] data IH]; intros e e' Hf H.
  - injection H as <-. cbn [span_slots]. now rewrite app_nil_r.
  - cbn [for_each] in H. bind_inv_as H e1 H1.
    destruct (add_annotation_slots _ _ _ _ _ _ Hf H1) as [Hts [Hmax Hf1]].
    rewrite (IH e1 e' Hf1 H), Hts, Hmax, <- app_assoc. reflexivity.
Qed.

(** A loop on the store whose iterations leave the time slots of the
    target as they are. *)
Lemma slots_kept_loop {A : Type} (target_eaf : ref)
    (body : store -> A -> result store) (xs : list A) (h h' : store) :
  (forall s x s', body s x = Ok s' ->
                  timeslots (deref s' target_eaf)
                  = timeslots (deref s target_eaf)) ->
  for_each body xs h = Ok h' ->
  timeslots (deref h' target_eaf) = timeslots (deref h target_eaf).
Proof.
  intros Hbody H.
  apply (for_each_invariant
           (fun s => timeslots (deref s target_eaf)
                     = timeslots (deref h target_eaf)) body)
    with (xs := xs) (s := h); [ | reflexivity | exact H ].
  intros s x s' Hs Hb. now rewrite (Hbody s x s' Hb).
Qed.

Lemma add_tier_slots (tier_id : string) (ling parent : option string)
    (d : option attrs) (e e' : Eaf) :
  add_tier tier_id ling parent d e = Ok e' ->
  timeslots e' = timeslots e /\ maxts e' = maxts e.
Proof.
  intros H. apply add_tier_only_tier_changed in H.
  destruct H as (_ & _ & T & M & _). now split.
Qed.

Lemma add_ref_annotation_slots (id_tier tier2 : string) (time : Z)
    (value : string) (prev : option string) (e e' : Eaf) :
  add_ref_annotation api id_tier tier2 time value prev e = Ok e' ->
  timeslots e' = timeslots e.
Proof.
  intros H. apply add_ref_annotation_only_tier_changed in H.
  now destruct H as (_ & _ & T & _).
Qed.

Lemma _tier_copy_to_ref_slots (source_eaf target_eaf : ref)
    (source_tier_name target_tier_name target_parent_tier_name : string)
    (override_params : attrs) (h h' : store) :
  _tier_copy_to_ref api source_eaf target_eaf source_tier_name
    target_tier_name target_parent_tier_name override_params h = Ok h' ->
  timeslots (deref h' target_eaf) = timeslots (deref h target_eaf).
Proof.
  intros H. unfold _tier_copy_to_ref in H.
  bind_inv_as H params Hp. bind_inv_as H ling Hling. bind_inv_as H t Ht.
  bind_inv_as H anns Hanns. apply add_tier_slots in Ht.
  destruct Ht as [<- _].
  transitivity (timeslots (deref (update h target_eaf t) target_eaf));
    [ | now rewrite deref_update_same ].
  eapply slots_kept_loop; [ | exact H ].
  intros s [[x0 x1] x2] s' Hb. bind_inv_as Hb t' Ht'. injection Hb as <-.
  rewrite deref_update_same. eapply add_ref_annotation_slots. exact Ht'.
Qed.

Lemma _ref_tier_copy_slots (source_eaf target_eaf : ref)
    (source_tier_name target_tier_name target_parent_tier_name : string)
    (override_params : attrs) (h h' : store) :
  _ref_tier_copy api source_eaf target_eaf source_tier_name
    target_tier_name target_parent_tier_name override_params h = Ok h' ->
  timeslots (deref h' target_eaf) = timeslots (deref h target_eaf).
Proof.
  intros H. unfold _ref_tier_copy in H.
  bind_inv_as H params Hp. bind_inv_as H ling Hling. bind_inv_as H t Ht.
  bind_inv_as H anns Hanns. apply add_tier_slots in Ht.
  destruct Ht as [<- _].
  transitivity (timeslots (deref (update h target_eaf t) target_eaf));
    [ | now rewrite deref_update_same ].
  eapply slots_kept_loop; [ | exact H ].
  intros s [[[x0 x1] x2] x3] s' Hb. bind_inv_as Hb t' Ht'.
  injection Hb as <-.
  rewrite deref_update_same. eapply add_ref_annotation_slots. exact Ht'.
Qed.

Lemma _copy_symbolic_subdivision_tier_slots (source_eaf target_eaf : ref)
    (source_tier_name target_tier_name target_parent_tier_name : string)
    (override_params : attrs) (h h' : store) :
  _copy_symbolic_subdivision_tier api source_eaf target_eaf source_tier_name
    target_tier_name target_parent_tier_name override_params h = Ok h' ->
  timeslots (deref h' target_eaf) = timeslots (deref h target_eaf).
Proof.
  intros H. unfold _copy_symbolic_subdivision_tier in H.
  bind_inv_as H params Hp. bind_inv_as H ling Hling. bind_inv_as H t Ht.
  bind_inv_as H anns Hanns. bind_inv_as H s' Hloop. injection H as <-.
  apply add_tier_slots in Ht. destruct Ht as [<- _].
  apply (for_each_invariant
           (fun s => timeslots (deref (chain_store s) target_eaf)
                     = timeslots t)
           (chain_step api target_eaf target_tier_name
              target_parent_tier_name))
    with (xs := anns) (s := mk_chain_state (update h target_eaf t) None None);
    [ | cbn [chain_store]; now rewrite deref_update_same | exact Hloop ].
  intros s [[[x0 x1] x2] x3] s1 Hs Hb. unfold chain_step in Hb.
  bind_inv_as Hb t' Ht'. injection Hb as <-. cbn [chain_store].
  rewrite deref_update_same, <- Hs.
  eapply add_ref_annotation_slots. exact Ht'.
Qed.

Lemma _tier_copy_slots (source_eaf target_eaf : ref)
    (source_tier_name target_tier_name : string) (override_params : attrs)
    (h h' : store) (data : list (Z * Z * string)) :
  source_eaf <> target_eaf ->
  slots_fresh (deref h target_eaf) ->
  get_annotation_data_for_tier api (deref h source_eaf) source_tier_name
  = Ok data ->
  _tier_copy api source_eaf target_eaf source_tier_name target_tier_name
    override_params h = Ok h' ->
  timeslots (deref h' target_eaf)
  = timeslots (deref h target_eaf)
      ++ span_slots (maxts (deref h target_eaf)) data.
Proof.
  intros Hne Hf Hdata H. pose proof H as H0. unfold _tier_copy in H0.
  bind_inv_as H0 params Hp. bind_inv_as H0 ling Hling.
  bind_inv_as H0 t Ht. clear H0.
  rewrite (_tier_copy_as_loop api _ _ _ _ _ params ling h t data
             Hne Hp Hling Ht Hdata) in H.
  bind_inv_as H e' Hloop. injection H as <-. rewrite deref_update_same.
  destruct (add_tier_slots _ _ _ _ _ _ Ht) as [Hts Hmax].
  rewrite <- Hts, <- Hmax. apply (copy_loop_slots _ _ _ _ ) in Hloop;
    [ exact Hloop | ].
  intros k Hk. rewrite Hts. apply Hf. rewrite <- Hmax. exact Hk.
Qed.

Lemma match_step_slots (ann : string * string) (e3 e3' : Eaf)
    (item : string * ref_annotation) :
  match_step ann e3 item = Ok e3' -> timeslots e3' = timeslots e3.
Proof.
  destruct item as [aid [[[r v] p] svg]]. intros H. unfold match_step in H.
  destruct (String.eqb (fst ann) v); [ | now injection H as <- ].
  unfold generate_annotation_id, put_ref in H. bind_inv_as H t Ht.
  now injection H as <-.
Qed.

Lemma emit_slots (new_dict : dict word_gloss_list) (e3 e3' : Eaf) :
  emit new_dict e3 = Ok e3' -> timeslots e3' = timeslots e3.
Proof.
  intros H. unfold emit in H. bind_inv_as H e Hadd.
  apply add_tier_slots in Hadd. destruct Hadd as [<- _].
  apply (for_each_invariant (fun x => timeslots x = timeslots e)
           (fun e3 item =>
              '(e3', _) <- emit_utterance e3 (snd item) ;; Ok e3'))
    with (xs := new_dict) (s := e); [ | reflexivity | exact H ].
  intros s item s' Hs Hb. bind_inv_as Hb r Hr. destruct r as [e1 starts].
  injection Hb as <-. unfold emit_utterance in Hr. bind_inv_as Hr st Hst.
  injection Hr as <- _.
  apply (for_each_invariant (fun x => timeslots (emit_eaf x) = timeslots e)
           (emit_word (item_0 (snd item)) (item_1 (snd item))))
    with (xs := items_from_2 (snd item)) (s := mk_emit_state s 0%Z []);
    [ | exact Hs | exact Hst ].
  intros s0 ann s1 Hs0 Hw. unfold emit_word in Hw. bind_inv_as Hw e2 He2.
  injection Hw as <-. cbn [emit_eaf].
  unfold emit_matches in He2. bind_inv_as He2 t2 Ht2.
  apply (for_each_invariant (fun x => timeslots x = timeslots e)
           (match_step ann))
    with (xs := reference_annotations t2) (s := emit_eaf s0);
    [ | exact Hs0 | exact He2 ].
  intros a x b Ha Hx. now rewrite (match_step_slots ann a b x Hx).
Qed.

End TimeSlots.

(** X19.  When [main] returns, the time slots of the merged document are
    those of the utterance ids of the second document and no other: two per
    utterance, its start and its end offset, in tier order and under the
    identifiers [ts2], [ts3], ...  No offset of the first document and no
    synthesized word offset is stored. *)
Theorem merged_time_slots (api : ref_api) (author date : string)
    (file_1 file_2 : Eaf) (h' : store) (data : list (Z * Z * string)) :
  get_annotation_data_for_tier api file_2 utterance_id_source_tier
  = Ok data ->
  main api author date file_1 file_2 = Ok h' ->
  timeslots (deref h' eaf_3) = span_slots 1 data.
Proof.
  intros Hdata H. unfold main, main_from in H.
  bind_inv_as H h4 Hcopy. bind_inv_as H nd Hagg. bind_inv_as H e3 Hemit.
  injection H as <-. cbn [deref update obj_1 obj_2 obj_3].
  apply emit_slots in Hemit. rewrite Hemit. clear Hemit Hagg nd e3.
  change (obj_3 h4) with (deref h4 eaf_3).
  unfold copy_tiers in Hcopy.
  bind_inv_as Hcopy e0 Hrm. bind_inv_as Hcopy h1 H1.
  bind_inv_as Hcopy h2 H2. bind_inv_as Hcopy h3 H3.
  apply _copy_symbolic_subdivision_tier_slots in Hcopy.
  apply _ref_tier_copy_slots in H3. apply _tier_copy_to_ref_slots in H2.
  rewrite deref_update_same in Hcopy, H2.
  cbn [timeslots add_linguistic_type set_linguistic_types] in Hcopy, H2.
  rewrite Hcopy, H3, H2.
  cbn [deref obj_3] in Hrm. vm_compute in Hrm. injection Hrm as <-.
  apply (_tier_copy_slots api eaf_2 eaf_3 _ _ _ _ _ data) in H1;
    [ exact H1 | discriminate | intros k _ [] | exact Hdata ].
Qed.

(** ** The further properties on the sample documents *)

Lemma promoted_copy_content_witness :
  exists h' t,
    _tier_copy_to_ref Sample.api eaf_1 eaf_3 utterance_source_tier
      utterance_target_tier utterance_id_target_tier utterance_tier_params
      SampleRuns.before_utterance_copy = Ok h'
    /\ dict_get utterance_target_tier (tiers (deref h' eaf_3)) = Some t
    /\ reference_annotations t
       = [("a4", ("a2", "mi na", None, None));
          ("a5", ("a3", "ka rua te", None, None))]
    /\ Forall2
         (fun x y =>
            copied_reference Sample.api
              (deref SampleRuns.before_utterance_copy eaf_3)
              utterance_target_tier utterance_id_target_tier
              (span_start x) (span_value x) y)
         [(0%Z, 900%Z, "mi na"); (1000%Z, 4000%Z, "ka rua te")]
         (reference_annotations t).
Proof.
  eexists.
  assert (Hrun : _tier_copy_to_ref Sample.api eaf_1 eaf_3
                   utterance_source_tier utterance_target_tier
                   utterance_id_target_tier utterance_tier_params
                   SampleRuns.before_utterance_copy = Ok _)
    by (vm_compute; reflexivity).
  destruct (promoted_copy_content Sample.api eaf_1 eaf_3
              utterance_source_tier utterance_target_tier
              utterance_id_target_tier utterance_tier_params
              SampleRuns.before_utterance_copy _
              [(0%Z, 900%Z, "mi na"); (1000%Z, 4000%Z, "ka rua te")]
              ltac:(discriminate) ltac:(vm_compute; reflexivity) Hrun)
    as [t [Ht [_ [_ [_ [_ [Hall _]]]]]]].
  exists t. split; [ exact Hrun | ]. split; [ exact Ht | ].
  split; [ | exact Hall ].
  vm_compute in Ht. injection Ht as <-. reflexivity.
Defined.

Lemma reference_copy_content_witness :
  exists h' t,
    _ref_tier_copy Sample.api eaf_1 eaf_3 utterance_translation_source_tier
      utterance_translation_target_tier utterance_target_tier
      utterance_translation_tier_params
      SampleRuns.before_translation_copy = Ok h'
    /\ dict_get utterance_translation_target_tier (tiers (deref h' eaf_3))
       = Some t
    /\ dict_keys (reference_annotations t) = ["a6"; "a7"]
    /\ Forall2
         (fun x y =>
            copied_reference Sample.api
              (deref SampleRuns.before_translation_copy eaf_3)
              utterance_translation_target_tier utterance_target_tier
              (data_start x + 1)%Z (data_value x) y)
         [(0%Z, 900%Z, "I did not", "mi na");
          (1000%Z, 4000%Z, "he went there", "ka rua te")]
         (reference_annotations t).
Proof.
  eexists.
  assert (Hrun : _ref_tier_copy Sample.api eaf_1 eaf_3
                   utterance_translation_source_tier
                   utterance_translation_target_tier utterance_target_tier
                   utterance_translation_tier_params
                   SampleRuns.before_translation_copy = Ok _)
    by (vm_compute; reflexivity).
  destruct (reference_copy_content Sample.api eaf_1 eaf_3
              utterance_translation_source_tier
              utterance_translation_target_tier utterance_target_tier
              utterance_translation_tier_params
              SampleRuns.before_translation_copy _
              [(0%Z, 900%Z, "I did not", "mi na");
               (1000%Z, 4000%Z, "he went there", "ka rua te")]
              ltac:(discriminate) ltac:(vm_compute; reflexivity) Hrun)
    as [t [Ht [_ [_ [Hkeys [_ [Hall _]]]]]]].
  exists t. split; [ exact Hrun | ]. split; [ exact Ht | ].
  split; [ exact Hkeys | exact Hall ].
Defined.

Lemma copies_reuse_source_attributes_witness :
  exists h',
    _tier_copy Sample.api eaf_1 eaf_3 utterance_source_tier "transcript" []
      SampleRuns.before_utterance_copy = Ok h'
    /\ dict_get "transcript" (tier_attributes (deref h' eaf_3))
       = Some [("LINGUISTIC_TYPE_REF", Some "default-lt");
               ("TIER_ID", Some utterance_source_tier)].
Proof.
  eexists.
  assert (Hrun : _tier_copy Sample.api eaf_1 eaf_3 utterance_source_tier
                   "transcript" [] SampleRuns.before_utterance_copy = Ok _)
    by (vm_compute; reflexivity).
  split; [ exact Hrun | ].
  exact (proj1
           (copies_reuse_source_attributes Sample.api eaf_1 eaf_3
              utterance_source_tier "transcript" ""
              SampleRuns.before_utterance_copy
              (mk_tier [("a1", ("ts1", "ts2", "mi na", None));
                        ("a2", ("ts3", "ts4", "ka rua te", None))]
                 []
                 [("LINGUISTIC_TYPE_REF", Some "default-lt");
                  ("TIER_ID", Some utterance_source_tier)] 0)
              ltac:(vm_compute; reflexivity))
           _ Hrun).
Defined.

Lemma copy_onto_itself_empties_witness :
  (exists h' t,
      _tier_copy Sample.api eaf_1 eaf_1 utterance_source_tier
        utterance_source_tier [] Sample.loaded = Ok h'
      /\ dict_get utterance_source_tier (tiers (deref h' eaf_1)) = Some t
      /\ aligned_annotations t = [] /\ reference_annotations t = [])
  /\ (exists h' t,
        _tier_copy_to_ref Sample.api eaf_1 eaf_1 utterance_source_tier
          utterance_source_tier "" [] Sample.loaded = Ok h'
        /\ dict_get utterance_source_tier (tiers (deref h' eaf_1)) = Some t
        /\ aligned_annotations t = [] /\ reference_annotations t = []).
Proof.
  apply (copy_onto_itself_empties Sample.api eaf_1 utterance_source_tier ""
           []
           [("LINGUISTIC_TYPE_REF", Some "default-lt");
            ("TIER_ID", Some utterance_source_tier)]
           (Some "default-lt") Sample.loaded).
  - vm_compute. reflexivity.
  - reflexivity.
  - discriminate.
  - vm_compute. discriminate.
Defined.

Lemma missing_source_tier_witness :
  _ref_tier_copy Sample.api eaf_2 eaf_3 "no such tier" "copy" "utterance_id"
    [] SampleRuns.before_utterance_copy = Raise KeyError
  /\ _tier_copy Sample.api eaf_2 eaf_3 "no such tier" "copy"
       utterance_id_tier_params SampleRuns.before_utterance_copy
     = Raise KeyError.
Proof.
  destruct (missing_source_tier Sample.api eaf_2 eaf_3 "no such tier" "copy"
              "utterance_id" SampleRuns.before_utterance_copy
              ltac:(reflexivity))
    as [[_ [_ [Href _]]] Hover].
  split; [ exact Href | ].
  apply (Hover utterance_id_tier_params).
  - reflexivity.
  - reflexivity.
  - discriminate.
  - vm_compute. discriminate.
  - discriminate.
Defined.

Lemma aggregate_entries_witness :
  aggregate Sample.file_2 = Ok SampleRuns.sample_dict
  /\ Forall2
       (entry_of (timeslots Sample.file_2) Sample.words Sample.morphs
          Sample.glosses)
       [("a1", ("ts1", "ts2", "1", None)); ("a2", ("ts3", "ts4", "2", None))]
       SampleRuns.sample_dict.
Proof.
  assert (Hrun : aggregate Sample.file_2 = Ok SampleRuns.sample_dict)
    by (vm_compute; reflexivity).
  split; [ exact Hrun | ].
  refine (aggregate_entries Sample.file_2
            (mk_tier [] Sample.words _ 1) (mk_tier [] Sample.morphs _ 2)
            (mk_tier [] Sample.glosses _ 3)
            (mk_tier [("a1", ("ts1", "ts2", "1", None));
                      ("a2", ("ts3", "ts4", "2", None))] [] _ 0)
            SampleRuns.sample_dict _ _ _ _ _ Hrun);
    try reflexivity.
  repeat constructor; cbn [In dict_keys map fst aligned_annotations];
    intuition discriminate.
Defined.

Lemma emission_closed_form_witness :
  emit SampleRuns.sample_dict Sample.repeated_word_target
  = Ok (glossed Sample.repeated_word_target
          [("a3", "NEG"); ("a4", "NEG")]).
Proof.
  exact (emission_closed_form SampleRuns.sample_dict
           Sample.repeated_word_target
           (mk_tier [] [("a3", ("a2", "ka", None, None));
                        ("a4", ("a2", "ka", Some "a3", None))]
              [("LINGUISTIC_TYPE_REF", Some "word");
               ("PARENT_REF", Some utterance_target_tier);
               ("TIER_ID", Some word_target_tier)] 1)
           ltac:(reflexivity) ltac:(discriminate)).
Defined.

Lemma emission_ignores_timing_witness :
  emit SampleRuns.sample_dict Sample.repeated_word_target
  = emit SampleRuns.sample_dict_retimed Sample.repeated_word_target.
Proof.
  apply (emission_ignores_timing SampleRuns.sample_dict
           SampleRuns.sample_dict_retimed Sample.repeated_word_target).
  reflexivity.
Defined.

Lemma synthesized_words_fit_witness :
  exists d e3' starts,
    aggregate_step (timeslots Sample.file_2)
      Sample.words Sample.morphs Sample.glosses []
      ("a2", ("ts3", "ts4", "2", None))
    = Ok [("a2", mk_word_gloss_list 1000 d
                   [("ka", "NEG"); ("rua", "go-PST"); ("te", "")])]
    /\ emit_utterance Sample.repeated_word_target
         (mk_word_gloss_list 1000 d
            [("ka", "NEG"); ("rua", "go-PST"); ("te", "")])
       = Ok (e3', starts)
    /\ List.length starts = 3
    /\ (0 <= d)%Z
    /\ (forall s, In s starts -> (1000 <= s /\ s + d <= 4000)%Z)
    /\ (0 <= 4000 - (1000 + d * 3) < 3)%Z.
Proof.
  apply (synthesized_words_fit (timeslots Sample.file_2)
           Sample.words Sample.morphs Sample.glosses
           [] "a2" "ts3" "ts4" "2" None 1000%Z 4000%Z
           Sample.repeated_word_target).
  - reflexivity.
  - reflexivity.
  - lia.
  - vm_compute. reflexivity.
  - vm_compute. reflexivity.
  - split; reflexivity.
Defined.

Lemma reversed_span_duration_witness :
  aggregate_step (timeslots Sample.file_2)
    Sample.words Sample.morphs Sample.glosses []
    ("a2", ("ts3", "ts1", "2", None))
  = Ok [("a2", mk_word_gloss_list 1000 (-333)
                 [("ka", "NEG"); ("rua", "go-PST"); ("te", "")])]
  /\ ((0 < 1000)%Z ->
      ((0 - 1000) ÷ 3 = - ((1000 - 0) / 3) /\ (0 - 1000) ÷ 3 <= 0)%Z).
Proof.
  apply (reversed_span_duration (timeslots Sample.file_2)
           Sample.words Sample.morphs Sample.glosses
           [] "a2" "ts3" "ts1" "2" None 1000%Z 0%Z).
  - reflexivity.
  - reflexivity.
  - vm_compute. reflexivity.
  - vm_compute. reflexivity.
Defined.

Lemma subdivision_copy_anchors_witness :
  exists h' t,
    _copy_symbolic_subdivision_tier Sample.api eaf_2 eaf_3 word_source_tier
      word_target_tier utterance_id_target_tier word_tier_params
      Sample.before_word_copy = Ok h'
    /\ dict_get word_target_tier (tiers (deref h' eaf_3)) = Some t
    /\ map (fun y => ref_parent (snd y)) (reference_annotations t)
       = ["a2"; "a3"; "a3"; "a3"]
    /\ Forall2
         (fun x y =>
            anchored_reference Sample.api (deref Sample.before_word_copy eaf_3)
              word_target_tier utterance_id_target_tier
              (data_start x + 1)%Z (data_value x) y)
         [(0%Z, 900%Z, "mina", "1"); (1000%Z, 4000%Z, "ka", "2");
          (1000%Z, 4000%Z, "rua", "2"); (1000%Z, 4000%Z, "te", "2")]
         (reference_annotations t).
Proof.
  eexists.
  assert (Hrun : _copy_symbolic_subdivision_tier Sample.api eaf_2 eaf_3
                   word_source_tier word_target_tier utterance_id_target_tier
                   word_tier_params Sample.before_word_copy = Ok _)
    by (vm_compute; reflexivity).
  destruct (subdivision_copy_anchors Sample.api eaf_2 eaf_3 word_source_tier
              word_target_tier utterance_id_target_tier word_tier_params
              Sample.before_word_copy _
              [(0%Z, 900%Z, "mina", "1"); (1000%Z, 4000%Z, "ka", "2");
               (1000%Z, 4000%Z, "rua", "2"); (1000%Z, 4000%Z, "te", "2")]
              ltac:(discriminate) ltac:(vm_compute; reflexivity) Hrun)
    as [t [Ht [_ [Hall _]]]].
  exists t. split; [ exact Hrun | ]. split; [ exact Ht | ].
  split; [ | exact Hall ].
  vm_compute in Ht. injection Ht as <-. reflexivity.
Defined.

Lemma invalid_span_aborts_copy_witness :
  _tier_copy Sample.api eaf_2 eaf_3 utterance_id_source_tier
    utterance_id_target_tier utterance_id_tier_params
    SampleRuns.zero_length_source = Raise ValueError.
Proof.
  apply (invalid_span_aborts_copy Sample.api eaf_2 eaf_3
           utterance_id_source_tier utterance_id_target_tier
           utterance_id_tier_params utterance_id_tier_params
           (Some "default-lt") SampleRuns.zero_length_source
           [(0%Z, 0%Z, "1"); (1000%Z, 4000%Z, "2")]).
  - discriminate.
  - reflexivity.
  - reflexivity.
  - discriminate.
  - vm_compute. discriminate.
  - vm_compute. reflexivity.
  - apply Exists_cons_hd. unfold valid_span. lia.
Defined.

Lemma procedures_keep_ids_fresh_witness :
  exists h',
    _tier_copy_to_ref Sample.api eaf_1 eaf_3 utterance_source_tier
      utterance_target_tier utterance_id_target_tier utterance_tier_params
      SampleRuns.before_utterance_copy = Ok h'
    /\ ids_fresh (deref h' eaf_3).
Proof.
  eexists.
  assert (Hrun : _tier_copy_to_ref Sample.api eaf_1 eaf_3
                   utterance_source_tier utterance_target_tier
                   utterance_id_target_tier utterance_tier_params
                   SampleRuns.before_utterance_copy = Ok _)
    by (vm_compute; reflexivity).
  split; [ exact Hrun | ].
  assert (Hfresh : ids_fresh (deref SampleRuns.before_utterance_copy eaf_3)).
  { split.
    - repeat constructor; cbn [In]; intuition discriminate.
    - intros k Hk Hin.
      change (In (aid_of k) [aid_of 2; aid_of 3]) in Hin.
      cbn [In] in Hin.
      destruct Hin as [Hin | [Hin | []]]; apply aid_of_inj in Hin;
        cbn [maxaid deref obj_3 SampleRuns.before_utterance_copy] in Hk; lia. }
  destruct (procedures_keep_ids_fresh Sample.api eaf_1 eaf_3
              utterance_source_tier utterance_target_tier
              utterance_id_target_tier utterance_tier_params []
              SampleRuns.before_utterance_copy Hfresh)
    as [_ [Hcopy _]].
  exact (Hcopy _ Hrun).
Defined.

Lemma merged_ids_distinct_witness :
  exists h',
    main Sample.api "pympi" "2019-01-03T00:00:00+10:00"
      Sample.file_1 Sample.file_2 = Ok h'
    /\ NoDup (annotation_ids (deref h' eaf_3)).
Proof.
  eexists.
  assert (Hrun : main Sample.api "pympi" "2019-01-03T00:00:00+10:00"
                   Sample.file_1 Sample.file_2 = Ok _)
    by (vm_compute; reflexivity).
  split; [ exact Hrun | ].
  exact (merged_ids_distinct Sample.api "pympi" "2019-01-03T00:00:00+10:00"
           Sample.file_1 Sample.file_2 _ Hrun).
Defined.

Lemma copy_media_errors_witness :
  copy_media SampleRuns.linked_document snd SampleRuns.link_file
    (Sample.file_1, []) (Sample.file_2, []) = Raise IndexError
  /\ copy_media SampleRuns.linked_document snd SampleRuns.link_file
       (Sample.file_1,
        [[("MEDIA_URL", "file:///story.wav"); ("MIME_TYPE", "audio/x-wav")]])
       (Sample.file_2, []) = Raise ValueError.
Proof.
  split.
  - apply (copy_media_errors SampleRuns.linked_document snd
             SampleRuns.link_file (Sample.file_1, []) (Sample.file_2, [])).
    reflexivity.
  - apply (proj2
             (copy_media_errors SampleRuns.linked_document snd
                SampleRuns.link_file
                (Sample.file_1,
                 [[("MEDIA_URL", "file:///story.wav");
                   ("MIME_TYPE", "audio/x-wav")]])
                (Sample.file_2, []))
             [("MEDIA_URL", "file:///story.wav"); ("MIME_TYPE", "audio/x-wav")]
             []).
    + reflexivity.
    + discriminate.
Defined.

Lemma copy_media_by_key_order_witness :
  copy_media SampleRuns.linked_document snd SampleRuns.link_file
    (Sample.file_1, [SampleRuns.sample_media]) (Sample.file_2, [])
  = Ok (Sample.file_2,
        [[("MEDIA_URL", "file:///story.wav"); ("MIME_TYPE", "audio/x-wav");
          ("RELATIVE_MEDIA_URL", "./story.wav")]]).
Proof.
  apply (copy_media_by_key_order SampleRuns.linked_document snd
           SampleRuns.link_file
           (Sample.file_1, [SampleRuns.sample_media]) (Sample.file_2, [])
           SampleRuns.sample_media []
           "MEDIA_URL" "MIME_TYPE" "RELATIVE_MEDIA_URL"
           "file:///story.wav" "audio/x-wav" "./story.wav").
  - reflexivity.
  - exact (Permutation_cons_append
             [("MEDIA_URL", "file:///story.wav");
              ("MIME_TYPE", "audio/x-wav")]
             ("RELATIVE_MEDIA_URL", "./story.wav")).
  - reflexivity.
  - reflexivity.
Defined.

Lemma main_needs_tiers_witness :
  exists h',
    main Sample.api "pympi" "2019-01-03T00:00:00+10:00"
      Sample.file_1 Sample.file_2 = Ok h'
    /\ dict_mem utterance_id_source_tier (tiers Sample.file_2) = true
    /\ dict_mem word_source_tier (tiers Sample.file_2) = true
    /\ dict_mem morph_source_tier (tiers Sample.file_2) = true
    /\ dict_mem gloss_source_tier (tiers Sample.file_2) = true
    /\ dict_mem utterance_source_tier (tiers Sample.file_1) = true.
Proof.
  eexists.
  assert (Hrun : main Sample.api "pympi" "2019-01-03T00:00:00+10:00"
                   Sample.file_1 Sample.file_2 = Ok _)
    by (vm_compute; reflexivity).
  split; [ exact Hrun | ].
  exact (main_needs_tiers Sample.api "pympi" "2019-01-03T00:00:00+10:00"
           Sample.file_1 Sample.file_2 _ Hrun).
Defined.

Lemma main_composition_witness :
  exists h' h4 tw,
    main Sample.api "pympi" "2019-01-03T00:00:00+10:00"
      Sample.file_1 Sample.file_2 = Ok h'
    /\ aggregate Sample.file_2 = Ok SampleRuns.sample_dict
    /\ dict_get word_target_tier (tiers (deref h4 eaf_3)) = Some tw
    /\ h' = update h4 eaf_3
              (glossed (deref h4 eaf_3)
                 (gloss_links (reference_annotations tw)
                    SampleRuns.sample_dict)).
Proof.
  eexists.
  assert (Hrun : main Sample.api "pympi" "2019-01-03T00:00:00+10:00"
                   Sample.file_1 Sample.file_2 = Ok _)
    by (vm_compute; reflexivity).
  destruct (main_composition Sample.api "pympi" "2019-01-03T00:00:00+10:00"
              Sample.file_1 Sample.file_2 _ Hrun)
    as [h4 [nd [tw [_ [Hagg [Htw Heq]]]]]].
  assert (Hnd : nd = SampleRuns.sample_dict).
  { vm_compute in Hagg. injection Hagg as <-. reflexivity. }
  rewrite Hnd in Heq.
  exists h4, tw. split; [ exact Hrun | ]. split; [ reflexivity | ].
  split; [ exact Htw | exact Heq ].
Defined.

Lemma merged_time_slots_witness :
  exists h',
    main Sample.api "pympi" "2019-01-03T00:00:00+10:00"
      Sample.file_1 Sample.file_2 = Ok h'
    /\ timeslots (deref h' eaf_3)
       = [("ts2", 0%Z); ("ts3", 900%Z); ("ts4", 1000%Z); ("ts5", 4000%Z)].
Proof.
  eexists.
  assert (Hrun : main Sample.api "pympi" "2019-01-03T00:00:00+10:00"
                   Sample.file_1 Sample.file_2 = Ok _)
    by (vm_compute; reflexivity).
  split; [ exact Hrun | ].
  exact (merged_time_slots Sample.api "pympi" "2019-01-03T00:00:00+10:00"
           Sample.file_1 Sample.file_2 _
           [(0%Z, 900%Z, "1"); (1000%Z, 4000%Z, "2")]
           ltac:(vm_compute; reflexivity) Hrun).
Defined.
